(** * SoftwareThatMatters: the npm ingestion pipeline (package [ingest])

    A shallow embedding of the Go package [ingest]: the timestamp codec
    ([CreatedTime]), the document readers, the dependency extractors of
    the live path ([process]) and of the streaming path ([StreamDecode]),
    the CSV sink ([writeOneToFile]) and the version printer.

    Conventions.
    - A Go [string] is a sequence of bytes: Rocq's [string]; [len] is
      [String.length].
    - A Go [map[string]T] is a [gmap string T]; a [range] loop over a map
      visits the entries in an order the language leaves unspecified: any
      list that is a permutation of the map's entries ([ranges]).
    - A JSON text is taken after tokenising, as a [json] tree; decoding
      into the package's structs is modelled from the struct declarations
      and the custom [UnmarshalJSON] methods.
    - A call that can return an error, panic or end the process
      ([log.Fatal]) returns an [outcome].
    - The output files are taken to open and to accept every write; what
      a run does to a sink is kept as a list of events. *)

From Stdlib Require Import ZArith Ascii String List Lia Permutation.
From stdpp Require Import gmap strings list fin_maps.

Local Open Scope string_scope.

(** ** Outcomes of fallible Go calls *)

Inductive outcome (A : Type) : Type :=
| Ok (a : A)          (* normal return, [err == nil] *)
| Err (msg : string)  (* returned [error] *)
| Panic (msg : string) (* run-time panic, [panic(..)] or [log.Fatal]: the process ends *).
Arguments Ok {A} a.
Arguments Err {A} msg.
Arguments Panic {A} msg.

#[global] Instance outcome_bind : MBind outcome := fun A B f x =>
  match x with
  | Ok a => f a
  | Err e => Err e
  | Panic e => Panic e
  end.

#[global] Instance outcome_ret : MRet outcome := fun A a => Ok a.

#[global] Instance outcome_fmap : FMap outcome := fun A B f x =>
  match x with
  | Ok a => Ok (f a)
  | Err e => Err e
  | Panic e => Panic e
  end.

(** ** Bytes and strings *)

Definition dquote : ascii := Ascii.ascii_of_nat 34.
Definition byte_of (c : ascii) : Z := Z.of_nat (nat_of_ascii c).
Definition len (s : string) : Z := Z.of_nat (String.length s).

Fixpoint repeat_char (c : ascii) (n : nat) : string :=
  match n with
  | O => EmptyString
  | S n' => String c (repeat_char c n')
  end.

(** [strings.Trim(s, cutset)] for a one-byte cutset: strips every leading
    and trailing occurrence of the byte. *)
Fixpoint trim_left (c : ascii) (s : string) : string :=
  match s with
  | String a s' => if Ascii.eqb a c then trim_left c s' else s
  | EmptyString => EmptyString
  end.

Fixpoint trim_right (c : ascii) (s : string) : string :=
  match s with
  | EmptyString => EmptyString
  | String a s' =>
      match trim_right c s' with
      | EmptyString => if Ascii.eqb a c then EmptyString else String a EmptyString
      | r => String a r
      end
  end.

Definition strings_Trim (s : string) (c : ascii) : string :=
  trim_right c (trim_left c s).

(** ** Package [time]: the part the codec uses

    [time.Time] is an instant (seconds and nanoseconds since January 1 of
    year 1, UTC) with a zone offset used for display.  The definitions
    follow [time/time.go] and [time/format.go] for the one layout the
    package uses, [time.RFC3339Nano] =
    [2006-01-02T15:04:05.999999999Z07:00]. *)

Module GoTime.
Local Open Scope Z_scope.

Record Time : Type := mkTime {
  t_sec : Z;     (* seconds since 0001-01-01T00:00:00Z *)
  t_nsec : Z;    (* nanoseconds within the second, [0, 1e9) *)
  t_offset : Z   (* seconds east of UTC of the zone the time is shown in *)
}.

(** The zero value of [time.Time]: January 1, year 1, 00:00:00 UTC. *)
Definition zeroTime : Time := mkTime 0 0 0.

Definition secondsPerMinute := 60.
Definition secondsPerHour := 3600.
Definition secondsPerDay := 86400.
Definition daysPer400Years := 365 * 400 + 97.
Definition daysPer100Years := 365 * 100 + 24.
Definition daysPer4Years := 365 * 4 + 1.

Definition absoluteZeroYear := -292277022399.
Definition internalYear := 1.
(* (absoluteZeroYear - internalYear) * 365.2425 * secondsPerDay *)
Definition absoluteToInternal :=
  (absoluteZeroYear - internalYear) * 3652425 / 10000 * secondsPerDay.
Definition internalToAbsolute := - absoluteToInternal.

Definition wrap64 (x : Z) : Z := x mod 2 ^ 64.

Definition isLeap (year : Z) : bool :=
  (Z.rem year 4 =? 0) && (negb (Z.rem year 100 =? 0) || (Z.rem year 400 =? 0)).

(** [daysBefore[m]]: days in a non-leap year before month [m+1]. *)
Definition daysBefore (m : Z) : Z :=
  match m with
  | 0 => 0 | 1 => 31 | 2 => 59 | 3 => 90 | 4 => 120 | 5 => 151 | 6 => 181
  | 7 => 212 | 8 => 243 | 9 => 273 | 10 => 304 | 11 => 334 | _ => 365
  end.

Definition daysIn (m year : Z) : Z :=
  if (m =? 2) && isLeap year then 29 else daysBefore m - daysBefore (m - 1).

(** [norm(hi, lo, base)]: bring [lo] into [0, base), carrying into [hi]. *)
Definition norm (hi lo base : Z) : Z * Z :=
  let '(hi, lo) :=
    if lo <? 0 then
      let n := Z.quot (- lo - 1) base + 1 in (hi - n, lo + n * base)
    else (hi, lo) in
  if lo >=? base then
    let n := Z.quot lo base in (hi + n, lo - n * base)
  else (hi, lo).

Definition daysSinceEpoch (year : Z) : Z :=
  let y := wrap64 (year - absoluteZeroYear) in
  let n := y / 400 in
  let y := y - 400 * n in
  let d := daysPer400Years * n in
  let n := y / 100 in
  let y := y - 100 * n in
  let d := d + daysPer100Years * n in
  let n := y / 4 in
  let y := y - 4 * n in
  let d := d + daysPer4Years * n in
  let n := y in
  d + 365 * n.

(** [time.Date(year, month, day, hour, min, sec, nsec, time.UTC)]. *)
Definition Date (year month day hour min sec nsec : Z) : Time :=
  let m := month - 1 in
  let '(year, m) := norm year m 12 in
  let month := m + 1 in
  let '(sec, nsec) := norm sec nsec 1000000000 in
  let '(min, sec) := norm min sec 60 in
  let '(hour, min) := norm hour min 60 in
  let '(day, hour) := norm day hour 24 in
  let d := daysSinceEpoch year in
  let d := d + daysBefore (month - 1) in
  let d := if isLeap year && (month >=? 3) then d + 1 else d in
  let d := d + (day - 1) in
  let abs := d * secondsPerDay in
  let abs := wrap64 (abs + (hour * secondsPerHour + min * secondsPerMinute + sec)) in
  mkTime (abs + absoluteToInternal) nsec 0.

(** [t.addSec(d)] followed by [t.setLoc] of a zone with the given offset. *)
Definition in_zone (t : Time) (zoneOffset : Z) : Time :=
  mkTime (t_sec t - zoneOffset) (t_nsec t) zoneOffset.

(** [t.abs()]: seconds since the absolute epoch, in the time's zone. *)
Definition abs (t : Time) : Z :=
  wrap64 (t_sec t + t_offset t + internalToAbsolute).

(** [absDate(abs, true)]: year, month and day of an absolute time. *)
Definition absDate (abs : Z) : Z * Z * Z :=
  let d := abs / secondsPerDay in
  let n := d / daysPer400Years in
  let y := 400 * n in
  let d := d - daysPer400Years * n in
  let n := d / daysPer100Years in
  let n := n - Z.shiftr n 2 in
  let y := y + 100 * n in
  let d := d - daysPer100Years * n in
  let n := d / daysPer4Years in
  let y := y + 4 * n in
  let d := d - daysPer4Years * n in
  let n := d / 365 in
  let n := n - Z.shiftr n 2 in
  let y := y + n in
  let d := d - 365 * n in
  let year := y + absoluteZeroYear in
  let yday := d in
  let day := yday in
  let after_feb (day : Z) :=
    let month := day / 31 in
    let end_ := daysBefore (month + 1) in
    let '(month, begin) :=
      if day >=? end_ then (month + 1, end_) else (month, daysBefore month) in
    (year, month + 1, day - begin + 1) in
  if isLeap year then
    if day >? 31 + 29 - 1 then after_feb (day - 1)
    else if day =? 31 + 29 - 1 then (year, 2, 29)
    else after_feb day
  else after_feb day.

(** [absClock(abs)]: hour, minute and second within the day. *)
Definition absClock (abs : Z) : Z * Z * Z :=
  let sec := abs mod secondsPerDay in
  let hour := sec / secondsPerHour in
  let sec := sec - hour * secondsPerHour in
  let min := sec / secondsPerMinute in
  let sec := sec - min * secondsPerMinute in
  (hour, min, sec).

(** *** Formatting *)

Definition digit (n : Z) : ascii := ascii_of_nat (48 + Z.to_nat n).

Fixpoint decimal (fuel : nat) (u : Z) (acc : string) : string :=
  match fuel with
  | O => acc
  | S fuel' =>
      if u <? 10 then String (digit u) acc
      else decimal fuel' (u / 10) (String (digit (u mod 10)) acc)
  end.

Fixpoint zeros (n : nat) (s : string) : string :=
  match n with
  | O => s
  | S n' => String "0" (zeros n' s)
  end.

(** [appendInt(b, x, width)]: decimal, zero-padded to [width] digits. *)
Definition appendInt (x : Z) (width : Z) : string :=
  let u := Z.abs x in
  let sign := if x <? 0 then "-" else "" in
  if (width =? 2) && (u <? 100) then
    sign ++ String (digit (u / 10)) (String (digit (u mod 10)) "")
  else if (width =? 4) && (u <? 10000) then
    sign ++ String (digit (u / 100 / 10)) (String (digit (u / 100 mod 10))
            (String (digit (u mod 100 / 10)) (String (digit (u mod 100 mod 10)) "")))
  else
    let ds := decimal 20 u "" in
    sign ++ zeros (Z.to_nat (width - Z.of_nat (String.length ds))) ds.

(** The nine decimal digits of a nanosecond count, most significant first. *)
Fixpoint nano_digits (n : nat) (u : Z) (acc : list Z) : list Z :=
  match n with
  | O => acc
  | S n' => nano_digits n' (u / 10) (u mod 10 :: acc)
  end.

(** Drop the trailing zeros of a digit list. *)
Fixpoint trim_zeros (ds : list Z) : list Z :=
  match ds with
  | [] => []
  | d :: ds' =>
      match trim_zeros ds' with
      | [] => if d =? 0 then [] else [d]
      | r => d :: r
      end
  end.

Fixpoint digits_string (ds : list Z) : string :=
  match ds with
  | [] => ""
  | d :: ds' => String (digit d) (digits_string ds')
  end.

(** [formatNano(b, nanosec, 9, true)], the [.999999999] element: up to
    nine digits, trailing zeros removed, nothing at all for zero. *)
Definition formatNano9 (nanosec : Z) : string :=
  match trim_zeros (nano_digits 9 nanosec []) with
  | [] => ""
  | ds => String "." (digits_string ds)
  end.

(** The [Z07:00] element. *)
Definition formatZone (offset : Z) : string :=
  if offset =? 0 then "Z"
  else
    let zone := Z.quot offset 60 in
    let '(sign, zone) := if zone <? 0 then ("-", - zone) else ("+", zone) in
    sign ++ appendInt (Z.quot zone 60) 2 ++ ":" ++ appendInt (Z.rem zone 60) 2.

(** The elements of the layout, in order. *)
Definition layout (year month day hour min sec nsec offset : Z) : string :=
  appendInt year 4 ++ "-" ++ appendInt month 2 ++ "-" ++ appendInt day 2 ++ "T"
  ++ appendInt hour 2 ++ ":" ++ appendInt min 2 ++ ":" ++ appendInt sec 2
  ++ formatNano9 nsec ++ formatZone offset.

(** [t.Format(time.RFC3339Nano)]. *)
Definition Format (t : Time) : string :=
  let a := abs t in
  let '(year, month, day) := absDate a in
  let '(hour, min, sec) := absClock a in
  layout year month day hour min sec (t_nsec t) (t_offset t).

(** *** Parsing *)

Definition errBad : string := "bad value for field".

Definition isDigit (c : ascii) : bool :=
  (48 <=? byte_of c) && (byte_of c <=? 57).
Definition digitVal (c : ascii) : Z := byte_of c - 48.
Definition commaOrPeriod (c : ascii) : bool :=
  Ascii.eqb c "." || Ascii.eqb c ",".

(** [getnum(s, fixed)]: a one- or two-digit number; two digits are
    required when [fixed]. *)
Definition getnum (s : string) (fixed : bool) : outcome (Z * string) :=
  match s with
  | String c0 s1 =>
      if isDigit c0 then
        match s1 with
        | String c1 s2 =>
            if isDigit c1 then Ok (digitVal c0 * 10 + digitVal c1, s2)
            else if fixed then Err errBad else Ok (digitVal c0, s1)
        | EmptyString => if fixed then Err errBad else Ok (digitVal c0, s1)
        end
      else Err errBad
  | EmptyString => Err errBad
  end.

(** [skip(value, prefix)] for a one-byte literal of the layout. *)
Definition skip (value : string) (c : ascii) : outcome string :=
  match value with
  | String a rest => if Ascii.eqb a c then Ok rest else Err errBad
  | EmptyString => Err errBad
  end.

(** The [2006] element: exactly four digits. *)
Definition getyear (value : string) : outcome (Z * string) :=
  match value with
  | String c0 (String c1 (String c2 (String c3 rest))) =>
      if isDigit c0 && isDigit c1 && isDigit c2 && isDigit c3 then
        Ok (((digitVal c0 * 10 + digitVal c1) * 10 + digitVal c2) * 10 + digitVal c3, rest)
      else Err errBad
  | _ => Err errBad
  end.

(** The longest run of digits at the head of a string, as digit values. *)
Fixpoint span_digits (s : string) : list Z * string :=
  match s with
  | String c rest =>
      if isDigit c then
        let '(ds, r) := span_digits rest in (digitVal c :: ds, r)
      else ([], s)
  | EmptyString => ([], s)
  end.

Definition atoi_digits (ds : list Z) : Z :=
  fold_left (fun acc d => acc * 10 + d) ds 0.

(** The [.999999999] element: optional; any number of digits is taken,
    [parseNanoseconds] keeps the first nine and scales to nanoseconds. *)
Definition getfrac (value : string) : Z * string :=
  match value with
  | String c0 (String c1 _ as digits) =>
      if commaOrPeriod c0 && isDigit c1 then
        let '(ds, rest) := span_digits digits in
        let ds := firstn 9 ds in
        (atoi_digits ds * 10 ^ (9 - Z.of_nat (length ds)), rest)
      else (0, value)
  | _ => (0, value)
  end.

(** The [Z07:00] element: [Z], or a sign, two digits, a colon and two
    digits; the result is the offset in seconds. *)
Definition getzone (value : string) : outcome (Z * string) :=
  match value with
  | String sign after =>
      if Ascii.eqb sign "Z" then Ok (0, after)
      else
        match after with
        | String h0 (String h1 (String colon (String m0 (String m1 rest)))) =>
            if negb (Ascii.eqb colon ":") then Err errBad
            else
              '(hr, _) ← getnum (String h0 (String h1 "")) true;
              '(mm, _) ← getnum (String m0 (String m1 "")) true;
              if hr >? 24 then Err "time zone offset hour out of range"
              else if mm >? 60 then Err "time zone offset minute out of range"
              else
                let zoneOffset := (hr * 60 + mm) * 60 in
                if Ascii.eqb sign "+" then Ok (zoneOffset, rest)
                else if Ascii.eqb sign "-" then Ok (- zoneOffset, rest)
                else Err errBad
        | _ => Err errBad
        end
  | EmptyString => Err errBad
  end.

(** [time.Parse(time.RFC3339Nano, value)]. *)
Definition Parse (value : string) : outcome Time :=
  '(year, value) ← getyear value;
  value ← skip value "-";
  '(month, value) ← getnum value true;
  if (month <=? 0) || (12 <? month) then Err "month out of range" else
  value ← skip value "-";
  '(day, value) ← getnum value true;
  value ← skip value "T";
  '(hour, value) ← getnum value false;
  if (hour <? 0) || (24 <=? hour) then Err "hour out of range" else
  value ← skip value ":";
  '(min, value) ← getnum value true;
  if (min <? 0) || (60 <=? min) then Err "minute out of range" else
  value ← skip value ":";
  '(sec, value) ← getnum value true;
  if (sec <? 0) || (60 <=? sec) then Err "second out of range" else
  let '(nsec, value) := getfrac value in
  '(zoneOffset, value) ← getzone value;
  if 0 <? len value then Err "extra text" else
  if (day <? 1) || (daysIn month year <? day) then Err "day out of range" else
  Ok (in_zone (Date year month day hour min sec nsec) zoneOffset).

End GoTime.

(** ** RFC 3339 date-times

    The grammar [date-time] of RFC 3339, section 5.6: four digits of
    year, two of month and of day, [T], two digits each of hour, minute
    and second, an optional fraction ([.] and at least one digit), and
    [Z] or a numeric offset of hours (00-23) and minutes (00-59).  The
    RFC lets [T] and [Z] be written in lower case and lets the second
    be 60 (a leap second); with [go] set, these two forms, which
    [time.Parse] rejects, are left out. *)

Module RFC3339.
Import GoTime.
Local Open Scope Z_scope.

Definition skip_T (go : bool) (s : string) : outcome string :=
  match s with
  | String c rest =>
      if Ascii.eqb c "T" || (negb go && Ascii.eqb c "t") then Ok rest else Err errBad
  | EmptyString => Err errBad
  end.

Definition secfrac (s : string) : outcome string :=
  match s with
  | String c rest =>
      if Ascii.eqb c "." then
        match span_digits rest with
        | ([], _) => Err errBad
        | (_, rest') => Ok rest'
        end
      else Ok s
  | EmptyString => Ok s
  end.

Definition time_offset (go : bool) (s : string) : outcome (Z * Z * string) :=
  match s with
  | String c rest =>
      if Ascii.eqb c "Z" || (negb go && Ascii.eqb c "z") then Ok (0, 0, rest)
      else if Ascii.eqb c "+" || Ascii.eqb c "-" then
        '(h, s) ← getnum rest true;
        s ← skip s ":";
        '(m, s) ← getnum s true;
        Ok (h, m, s)
      else Err errBad
  | EmptyString => Err errBad
  end.

Definition date_time (go : bool) (s : string) : outcome unit :=
  '(year, s) ← getyear s;
  s ← skip s "-";
  '(month, s) ← getnum s true;
  s ← skip s "-";
  '(day, s) ← getnum s true;
  s ← skip_T go s;
  '(hour, s) ← getnum s true;
  s ← skip s ":";
  '(min, s) ← getnum s true;
  s ← skip s ":";
  '(sec, s) ← getnum s true;
  s ← secfrac s;
  '(oh, om, s) ← time_offset go s;
  if (1 <=? month) && (month <=? 12) && (1 <=? day) && (day <=? daysIn month year)
     && (hour <=? 23) && (min <=? 59) && (sec <=? (if go then 59 else 60))
     && (oh <=? 23) && (om <=? 59) && (len s =? 0)
  then Ok tt else Err errBad.

(** A string is an RFC 3339 date-time. *)
Definition rfc3339 (s : string) : bool :=
  match date_time false s with Ok _ => true | _ => false end.

(** An RFC 3339 date-time with upper-case [T] and [Z] and no leap second. *)
Definition rfc3339_go (s : string) : bool :=
  match date_time true s with Ok _ => true | _ => false end.

End RFC3339.

(** ** JSON documents

    A JSON text after tokenising.  Objects keep the members in the order
    of the text, duplicates included; a string is held as the bytes
    between its quotes and is taken to be written without escapes. *)

#[local] Set Warnings "-register-all".
Inductive json : Type :=
| JNull
| JBool (b : bool)
| JNum (literal : string)
| JStr (s : string)
| JArr (elems : list json)
| JObj (members : list (string * json)).

(** A JSON object decoded into a Go map: a later duplicate key overwrites
    an earlier one; decoding into a map that already has entries keeps
    them. *)
Definition obj_to_map {A} (members : list (string * A)) (m : gmap string A) : gmap string A :=
  fold_left (fun m kv => <[kv.1 := kv.2]> m) members m.

(** [encoding/json] matches an object key with a struct field by the
    field's name, ignoring case (the tags of this package's structs are
    not of the form [json:"name"] and are ignored).  Besides the ASCII
    letters, the long s (bytes C5 BF) folds to [s]. *)
Definition lower (c : ascii) : ascii :=
  let n := nat_of_ascii c in
  if (65 <=? n)%nat && (n <=? 90)%nat then ascii_of_nat (n + 32) else c.

Fixpoint fold_eq (key field : string) : bool :=
  match field, key with
  | EmptyString, EmptyString => true
  | String f field', String k key' =>
      if Ascii.eqb (lower k) (lower f) then fold_eq key' field'
      else
        match key' with
        | String k2 key'' =>
            Ascii.eqb (lower f) "s" && Ascii.eqb k (ascii_of_nat 197)
            && Ascii.eqb k2 (ascii_of_nat 191) && fold_eq key'' field'
        | EmptyString => false
        end
  | _, _ => false
  end.

Definition type_error (what : string) : string :=
  "json: cannot unmarshal into Go value of type " ++ what.

Fixpoint mapM_outcome {A B} (f : A -> outcome B) (l : list A) : outcome (list B) :=
  match l with
  | [] => Ok []
  | a :: l' => b ← f a; bs ← mapM_outcome f l'; Ok (b :: bs)
  end.

(** ** Record types of the package *)

(** [type CreatedTime time.Time] *)
Abbreviation CreatedTime := GoTime.Time.

Record Version : Type := mkVersion {
  Number : string;
  PublishedAt : CreatedTime
}.

Record PackageInfo : Type := mkPackageInfo {
  pkg_Name : string;
  pkg_Versions : list Version
}.

Record Dependency : Type := mkDependency {
  dep_Name : string;
  RequiredVersion : string
}.

Record VersionDependencies : Type := mkVersionDependencies {
  vdep_Name : string;
  vdep_Version : string;
  VersionCreated : GoTime.Time;
  vdep_Dependencies : list Dependency
}.

(** [map[string]interface{}]: a value of type [interface{}] decoded from
    JSON is kept as its JSON tree. *)
Record VersionInfo : Type := mkVersionInfo {
  vi_Dependencies : gmap string json;
  vi_DevDependencies : gmap string json
}.

Record VersionData : Type := mkVersionData {
  vd_Version : string;
  vd_DevDependencies : gmap string string;
  vd_Dependencies : gmap string string
}.

Record Doc : Type := mkDoc {
  doc_Name : string;
  doc_Versions : gmap string VersionData;
  doc_Time : gmap string CreatedTime
}.

Record Entry : Type := mkEntry { entry_Doc : Doc }.

(** ** The timestamp codec *)

(** [func (ct *CreatedTime) UnmarshalJSON(b []byte) error] *)
Definition CreatedTime_UnmarshalJSON (b : string) : outcome CreatedTime :=
  let s := strings_Trim b dquote in
  GoTime.Parse s.

(** [func (ct CreatedTime) String() string] *)
Definition CreatedTime_String (ct : CreatedTime) : string :=
  GoTime.Format ct.

Definition quoted (s : string) : string :=
  String dquote s ++ String dquote "".

(** [json.Unmarshal(date_json, &date)] for [date_json] a string between
    two quotes: the decoder first checks that the bytes are one JSON
    value, then hands them to [CreatedTime.UnmarshalJSON].  A quote, a
    backslash or a control byte inside makes the text either invalid or
    escaped; both end in an error, since [time.Parse] accepts none of
    these bytes. *)
Definition plain_string_byte (c : ascii) : bool :=
  negb (Ascii.eqb c dquote) && negb (Ascii.eqb c (ascii_of_nat 92))
  && (32 <=? nat_of_ascii c)%nat.

Fixpoint plain_string (s : string) : bool :=
  match s with
  | EmptyString => true
  | String c s' => plain_string_byte c && plain_string s'
  end.

Definition unmarshal_CreatedTime (date_string : string) : outcome CreatedTime :=
  if plain_string date_string
  then CreatedTime_UnmarshalJSON (quoted date_string)
  else Err "invalid character in string literal".

(** ** The bulk document reader *)

(** [json.Unmarshal(b, &dat)] with [dat map[string]interface{}]. *)
Definition unmarshal_map_any (j : json) : outcome (gmap string json) :=
  match j with
  | JObj members => Ok (obj_to_map members ∅)
  | JNull => Ok ∅
  | _ => Err (type_error "map[string]interface {}")
  end.

(** [x.(string)] on a map element: panics unless the element is present
    and holds a string. *)
Definition assert_string (x : option json) : outcome string :=
  match x with
  | Some (JStr s) => Ok s
  | _ => Panic "interface conversion: interface {} is not string"
  end.

(** [func (v *Version) UnmarshalJSON(b []byte) error] *)
Definition Version_UnmarshalJSON (b : json) : outcome Version :=
  dat ← unmarshal_map_any b;
  date_string ← assert_string (dat !! "published_at");
  date ← unmarshal_CreatedTime date_string;
  number ← assert_string (dat !! "number");
  Ok (mkVersion number date).

Fixpoint foldM_outcome {A B} (f : A -> B -> outcome A) (l : list B) (a : A) : outcome A :=
  match l with
  | [] => Ok a
  | b :: l' => a' ← f a b; foldM_outcome f l' a'
  end.

(** [d.saveError]: a value whose type does not fit is recorded, the
    first one only, and decoding goes on with the next value; the
    recorded error is returned when the whole text has been decoded. *)
Definition save_error (saved : option string) (msg : string) : option string :=
  match saved with
  | Some _ => saved
  | None => Some msg
  end.

(** Decoding one member of a [PackageInfo] object, next to the error
    saved so far.  A [null] leaves a string as it is and sets a slice to
    [nil]; an error or a panic of [Version.UnmarshalJSON] ends the
    decoding at once. *)
Definition decode_PackageInfo_member (st : PackageInfo * option string)
    (kv : string * json) : outcome (PackageInfo * option string) :=
  let '(p, saved) := st in
  let '(k, v) := kv in
  if fold_eq k "Name" then
    match v with
    | JStr s => Ok (mkPackageInfo s (pkg_Versions p), saved)
    | JNull => Ok (p, saved)
    | _ => Ok (p, save_error saved (type_error "string"))
    end
  else if fold_eq k "Versions" then
    match v with
    | JArr elems =>
        vs ← mapM_outcome Version_UnmarshalJSON elems;
        Ok (mkPackageInfo (pkg_Name p) vs, saved)
    | JNull => Ok (mkPackageInfo (pkg_Name p) [], saved)
    | _ => Ok (p, save_error saved (type_error "[]ingest.Version"))
    end
  else Ok (p, saved).

(** Decoding one element of the array into a fresh [PackageInfo]. *)
Definition decode_PackageInfo (saved : option string) (j : json)
  : outcome (PackageInfo * option string) :=
  match j with
  | JObj members =>
      foldM_outcome decode_PackageInfo_member members (mkPackageInfo "" [], saved)
  | JNull => Ok (mkPackageInfo "" [], saved)
  | _ => Ok (mkPackageInfo "" [], save_error saved (type_error "ingest.PackageInfo"))
  end.

Fixpoint decode_PackageInfo_elems (elems : list json) (saved : option string)
  : outcome (list PackageInfo * option string) :=
  match elems with
  | [] => Ok ([], saved)
  | e :: rest =>
      '(p, saved) ← decode_PackageInfo saved e;
      '(ps, saved) ← decode_PackageInfo_elems rest saved;
      Ok (p :: ps, saved)
  end.

(** [json.Unmarshal(inputBytes, &arr)] with [arr []PackageInfo].  Any
    error ends the run: [ingestInternal] panics on it. *)
Definition unmarshal_PackageInfos (j : json) : outcome (list PackageInfo) :=
  match j with
  | JArr elems =>
      '(arr, saved) ← decode_PackageInfo_elems elems None;
      match saved with
      | Some msg => Err msg
      | None => Ok arr
      end
  | JNull => Ok []
  | _ => Err (type_error "[]ingest.PackageInfo")
  end.

(** ** The registry response of the live path *)

Record Response : Type := mkResponse {
  resp_body : option json;  (* [None]: the body is not a JSON text *)
  StatusCode : Z
}.

(** Decoding one member of a [VersionInfo] object.  A [null] sets the
    map to [nil]; an object adds its members to the map.  A value of
    another type is an error that [encoding/json] saves before it goes
    on; nothing it decodes afterwards can panic or replace the first
    saved error, so the model stops there with that error. *)
Definition decode_VersionInfo_member (vi : VersionInfo) (kv : string * json)
  : outcome VersionInfo :=
  let '(k, v) := kv in
  if fold_eq k "Dependencies" then
    match v with
    | JObj members => Ok (mkVersionInfo (obj_to_map members (vi_Dependencies vi)) (vi_DevDependencies vi))
    | JNull => Ok (mkVersionInfo ∅ (vi_DevDependencies vi))
    | _ => Err (type_error "map[string]interface {}")
    end
  else if fold_eq k "DevDependencies" then
    match v with
    | JObj members => Ok (mkVersionInfo (vi_Dependencies vi) (obj_to_map members (vi_DevDependencies vi)))
    | JNull => Ok (mkVersionInfo (vi_Dependencies vi) ∅)
    | _ => Err (type_error "map[string]interface {}")
    end
  else Ok vi.

(** [json.Unmarshal] of the fetched bytes into [parsed VersionInfo]. *)
Definition unmarshal_VersionInfo (body : option json) : outcome VersionInfo :=
  match body with
  | None => Err "invalid character looking for beginning of value"
  | Some (JObj members) =>
      foldM_outcome decode_VersionInfo_member members (mkVersionInfo ∅ ∅)
  | Some JNull => Ok (mkVersionInfo ∅ ∅)
  | Some _ => Err (type_error "ingest.VersionInfo")
  end.

(** ** The CSV sink *)

(** [func (d Dependency) String() string] *)
Definition Dependency_String (d : Dependency) : string :=
  dep_Name d ++ ":" ++ RequiredVersion d.

(** The loop of [writeOneToFile] that joins the dependencies with [;]. *)
Fixpoint join_deps (deps : list Dependency) : string :=
  match deps with
  | [] => ""
  | [dep] => Dependency_String dep
  | dep :: rest => Dependency_String dep ++ ";" ++ join_deps rest
  end.

(** The record [writeOneToFile] hands to [csvWriter.Write]. *)
Definition csv_record (input : VersionDependencies) : list string :=
  let depsString := "[" ++ join_deps (vdep_Dependencies input) ++ "]" in
  [vdep_Name input; vdep_Version input;
   GoTime.Format (VersionCreated input); depsString].

(** [encoding/csv]: a field is quoted when it holds the delimiter, a
    quote, a carriage return or a line feed, or starts with a space
    ([unicode.IsSpace] of its first rune). *)
Definition special_byte (c : ascii) : bool :=
  Ascii.eqb c (ascii_of_nat 10) || Ascii.eqb c (ascii_of_nat 13)
  || Ascii.eqb c dquote || Ascii.eqb c ",".

Fixpoint has_special (field : string) : bool :=
  match field with
  | EmptyString => false
  | String c rest => special_byte c || has_special rest
  end.

Definition starts_with_space (field : string) : bool :=
  match field with
  | String c rest =>
      let b0 := nat_of_ascii c in
      if ((9 <=? b0) && (b0 <=? 13) || (b0 =? 32))%nat then true
      else
        match rest with
        | String c1 rest1 =>
            let b1 := nat_of_ascii c1 in
            if (b0 =? 194)%nat then ((b1 =? 133) || (b1 =? 160))%nat
            else
              match rest1 with
              | String c2 _ =>
                  let b2 := nat_of_ascii c2 in
                  ((b0 =? 225) && (b1 =? 154) && (b2 =? 128)
                   || (b0 =? 226) && (b1 =? 128)
                      && ((128 <=? b2) && (b2 <=? 138) || (b2 =? 168) || (b2 =? 169) || (b2 =? 175))
                   || (b0 =? 226) && (b1 =? 129) && (b2 =? 159)
                   || (b0 =? 227) && (b1 =? 128) && (b2 =? 128))%nat
              | EmptyString => false
              end
        | EmptyString => false
        end
  | EmptyString => false
  end.

Definition backslash_dot : string := String (ascii_of_nat 92) ".".

Definition fieldNeedsQuotes (field : string) : bool :=
  match field with
  | EmptyString => false
  | _ =>
      if String.eqb field backslash_dot then true
      else has_special field || starts_with_space field
  end.

Fixpoint escape_quotes (field : string) : string :=
  match field with
  | EmptyString => EmptyString
  | String c rest =>
      if Ascii.eqb c dquote then String dquote (String dquote (escape_quotes rest))
      else String c (escape_quotes rest)
  end.

Definition csv_field (field : string) : string :=
  if fieldNeedsQuotes field
  then String dquote (escape_quotes field) ++ String dquote ""
  else field.

Fixpoint csv_fields (record : list string) : string :=
  match record with
  | [] => ""
  | [field] => csv_field field
  | field :: rest => csv_field field ++ "," ++ csv_fields rest
  end.

(** The bytes [csv.Writer.Write(record)] produces: the fields separated
    by commas and ended by a line feed. *)
Definition csv_line (record : list string) : string :=
  csv_fields record ++ String (ascii_of_nat 10) "".

(** What a run does to its sink and to the registry, in order. *)
Inductive event : Type :=
| EvFetch (url : string)
| EvWrite (record : list string)
| EvFlush.

(** The bytes that have reached the file for certain: the lines written
    before the last flush. *)
Fixpoint flushed (pending file : string) (tr : list event) : string :=
  match tr with
  | [] => file
  | EvWrite record :: tr' => flushed (pending ++ csv_line record) file tr'
  | EvFlush :: tr' => flushed "" (file ++ pending) tr'
  | EvFetch _ :: tr' => flushed pending file tr'
  end.

Definition file_content (tr : list event) : string := flushed "" "" tr.

(** ** The dependency extractor *)

(** A [range] loop over a Go map visits every entry once, in an order
    the language does not fix. *)
Definition ranges {A} (m : gmap string A) (visit : list (string * A)) : Prop :=
  visit ≡ₚ map_to_list m.

Definition limit : Z := 10000.

(** [func tooLong(a, b string) bool] *)
Definition tooLong (a b : string) : bool :=
  ((len a >? limit) || (len b >? limit))%Z.

(** The body of the two loops of [StreamDecode] over [deps] and [devDeps]. *)
Definition stream_append (allDependencies : list Dependency) (kv : string * string)
  : list Dependency :=
  if tooLong kv.1 kv.2 then allDependencies
  else (allDependencies ++ [mkDependency kv.1 kv.2])%list.

(** The extractor of the streaming path, given the order in which the
    two maps are visited. *)
Definition stream_extract (deps devDeps : list (string * string)) : list Dependency :=
  fold_left stream_append devDeps (fold_left stream_append deps []).

Definition stream_extracts (deps devDeps : gmap string string) (out : list Dependency) : Prop :=
  exists visit visitDev,
    ranges deps visit /\ ranges devDeps visitDev /\ out = stream_extract visit visitDev.

(** [v.(string)] *)
Definition as_string (v : json) : outcome string := assert_string (Some v).

(** The body of the two loops of [process] over [deps] and [devDeps]. *)
Definition live_append (allDependencies : list Dependency) (kv : string * json)
  : outcome (list Dependency) :=
  v ← as_string kv.2;
  Ok (allDependencies ++ [mkDependency kv.1 v])%list.

(** The extractor of the live path, given the order in which the two
    maps are visited. *)
Definition live_extract (deps devDeps : list (string * json)) : outcome (list Dependency) :=
  allDependencies ← foldM_outcome live_append deps [];
  foldM_outcome live_append devDeps allDependencies.

Definition live_extracts (deps devDeps : gmap string json) (out : outcome (list Dependency)) : Prop :=
  exists visit visitDev,
    ranges deps visit /\ ranges devDeps visitDev /\ out = live_extract visit visitDev.

(** ** The live path: [process] *)

(** The state of one call of [process]: what it has done so far and the
    slice it will return. *)
Record pstate : Type := mkPstate {
  p_events : list event;
  p_result : list VersionDependencies
}.

Definition emit (e : event) (st : pstate) : pstate :=
  mkPstate (p_events st ++ [e]) (p_result st).

Definition push_result (vd : VersionDependencies) (st : pstate) : pstate :=
  mkPstate (p_events st) (p_result st ++ [vd]).

(** [fmt.Sprintf("https://registry.npmjs.org/%s/%s", name, number)] *)
Definition registry_url (name number : string) : string :=
  "https://registry.npmjs.org/" ++ name ++ "/" ++ number.

Section Live.
(** The registry: the answer to the request made for the version at
    index [verIdx] of the package at index [packageIdx].  [Panic] is a
    failed [http.Get] or a failed read of the body, on which [request]
    panics. *)
Variable fetch : Z -> Z -> string -> outcome Response.
(** The order in which the [range] loops of that iteration visit the
    runtime ([false]) and the dev ([true]) dependencies. *)
Variable order : Z -> Z -> bool -> gmap string json -> list (string * json).

(** One iteration of the loop over the versions.  The second component
    is [Some msg] when the iteration ends the process. *)
Definition process_version (name : string) (packageIdx verIdx : Z)
    (version : Version) (st : pstate) : pstate * option string :=
  let number := Number version in
  let date := PublishedAt version in
  let currentURL := registry_url name number in
  let st := emit (EvFetch currentURL) st in
  match fetch packageIdx verIdx currentURL with
  | Ok response =>
      match unmarshal_VersionInfo (resp_body response) with
      | Ok parsed =>
          let deps := order packageIdx verIdx false (vi_Dependencies parsed) in
          let devDeps := order packageIdx verIdx true (vi_DevDependencies parsed) in
          match live_extract deps devDeps with
          | Ok allDependencies =>
              let versionDeps := mkVersionDependencies name number date allDependencies in
              let st := push_result versionDeps st in
              let st := emit (EvWrite (csv_record versionDeps)) st in
              let st := if (Z.rem verIdx 10 =? 0)%Z then emit EvFlush st else st in
              (st, None)
          | Err msg | Panic msg => (st, Some msg)
          end
      | Err msg =>
          if (StatusCode response =? 404)%Z then (st, None) else (st, Some msg)
      | Panic msg => (st, Some msg)
      end
  | Err msg | Panic msg => (st, Some msg)
  end.

Fixpoint process_versions (name : string) (packageIdx verIdx : Z)
    (versions : list Version) (st : pstate) : pstate * option string :=
  match versions with
  | [] => (st, None)
  | version :: rest =>
      match process_version name packageIdx verIdx version st with
      | (st, None) => process_versions name packageIdx (verIdx + 1) rest st
      | stopped => stopped
      end
  end.

Fixpoint process_packages (packageIdx : Z) (input : list PackageInfo) (st : pstate)
  : pstate * option string :=
  match input with
  | [] => (st, None)
  | p :: rest =>
      match process_versions (pkg_Name p) packageIdx 0 (pkg_Versions p) st with
      | (st, None) => process_packages (packageIdx + 1) rest (emit EvFlush st)
      | stopped => stopped
      end
  end.

(** [func process(input []PackageInfo, outPath string) *[]VersionDependencies] *)
Definition process (input : list PackageInfo) : pstate * option string :=
  process_packages 0 input (mkPstate [] []).
End Live.

(** ** The streaming path: [StreamDecode] *)

(** One decoded entry as one run walks it: every map with the order in
    which its [range] loop visits it. *)
Record VersionVisit : Type := mkVersionVisit {
  vv_number : string;
  vv_deps : list (string * string);
  vv_devDeps : list (string * string)
}.

Record EntryVisit : Type := mkEntryVisit {
  ev_Name : string;
  ev_versions : list VersionVisit;
  ev_Time : gmap string CreatedTime
}.

Definition visits_version (kv : string * VersionData) (vv : VersionVisit) : Prop :=
  vv_number vv = kv.1
  /\ ranges (vd_Dependencies kv.2) (vv_deps vv)
  /\ ranges (vd_DevDependencies kv.2) (vv_devDeps vv).

Definition visits_entry (e : Entry) (ev : EntryVisit) : Prop :=
  ev_Name ev = doc_Name (entry_Doc e)
  /\ ev_Time ev = doc_Time (entry_Doc e)
  /\ exists visit,
       ranges (doc_Versions (entry_Doc e)) visit
       /\ Forall2 visits_version visit (ev_versions ev).

(** [timeStamps[number]]: the zero value when the key is missing. *)
Definition time_of (timeStamps : gmap string CreatedTime) (number : string) : GoTime.Time :=
  default GoTime.zeroTime (timeStamps !! number).

(** The body of the loop over [e.Doc.Versions]. *)
Definition stream_version (name : string) (timeStamps : gmap string CreatedTime)
    (vv : VersionVisit) : event :=
  let t := time_of timeStamps (vv_number vv) in
  let allDependencies := stream_extract (vv_deps vv) (vv_devDeps vv) in
  let vd := mkVersionDependencies name (vv_number vv) t allDependencies in
  EvWrite (csv_record vd).

(** The body of the loop over the entries of the document. *)
Definition stream_entry (ev : EntryVisit) : list event :=
  (map (stream_version (ev_Name ev) (ev_Time ev)) (ev_versions ev) ++ [EvFlush])%list.

Definition stream_events (evs : list EntryVisit) : list event :=
  concat (map stream_entry evs).

(** [func StreamDecode(inPath string, outPath string)] on a document whose
    entries all decode, into an empty file: the bytes it leaves there. *)
Definition StreamDecode (document : list Entry) (out : string) : Prop :=
  exists evs, Forall2 visits_entry document evs /\ out = file_content (stream_events evs).

(** ** The fan-out path: [versionPrinter] and [ingestInternal] *)

(** [func printSinglePackage(packageAddr *PackageInfo, writer *ccsv.CsvWriter)]:
    the records it writes, in order. *)
Definition printSinglePackage (p : PackageInfo) : list (list string) :=
  map (fun ver => [pkg_Name p; Number ver; GoTime.Format (PublishedAt ver)])
      (pkg_Versions p).

(** The writes of goroutines that share a writer behind a mutex: each
    goroutine's writes in its own order, merged in any way. *)
Inductive interleaving {A : Type} : list (list A) -> list A -> Prop :=
| interleaving_done (ls : list (list A)) :
    Forall (fun l => l = []) ls -> interleaving ls []
| interleaving_step (ls1 ls2 : list (list A)) (x : A) (l tr : list A) :
    interleaving (ls1 ++ l :: ls2) tr ->
    interleaving (ls1 ++ (x :: l) :: ls2) (x :: tr).

(** [func versionPrinter(input *[]PackageInfo, versionPath string)]: one
    goroutine per package; the deferred [wg.Wait()] and [csv.Close()]
    run, in this order, before it returns, so every record is in the
    file by then. *)
Definition versionPrinter (input : list PackageInfo) (rows : list (list string)) : Prop :=
  interleaving (map printSinglePackage input) rows.

(** What the whole of [ingestInternal] does: records of the version file,
    and events of the unit of work with a given index. *)
Inductive gevent : Type :=
| GVersionRow (record : list string)
| GUnit (unit : nat) (e : event).


Section FanOut.
(** Registry and iteration orders as seen by the unit with a given index. *)
Variable fetch : nat -> Z -> Z -> string -> outcome Response.
Variable order : nat -> Z -> Z -> bool -> gmap string json -> list (string * json).

(** The goroutine [i] runs [process(arr[i:i+1], path)]. *)
Definition unit_events (i : nat) (p : PackageInfo) : list gevent :=
  map (GUnit i) (p_events (process (fetch i) (order i) [p]).1).

(** [func ingestInternal(inputBytes []byte, outPathTemplate, versionPath string)]:
    a trace of it, observed once the units of work may run.  A unit
    that panics ends the process, so the units' part is a prefix of a
    merge of their events. *)
Definition ingestInternal (inputBytes : json) (tr : list gevent) : Prop :=
  exists arr rows merged later,
    unmarshal_PackageInfos inputBytes = Ok arr
    /\ versionPrinter arr rows
    /\ interleaving (imap unit_events arr) (merged ++ later)
    /\ tr = (map GVersionRow rows ++ merged)%list.
End FanOut.

(** ** Encoding back to JSON *)

(** Go values handed to [json.Marshal]. *)
Inductive govalue : Type :=
| GoBool (b : bool)
| GoCreatedTime (ct : CreatedTime)
| GoVersion (v : Version).

Section Marshal.
(** [json.Marshal], as far as the recursion budget of the caller goes. *)
Variable Marshal : govalue -> option (outcome string).

(** [func (ct CreatedTime) MarshalJSON() ([]byte, error)] *)
Definition CreatedTime_MarshalJSON (ct : CreatedTime) : option (outcome string) :=
  Marshal (GoCreatedTime ct).

(** [func (v Version) MarshalJSON() ([]byte, error)] *)
Definition Version_MarshalJSON (v : Version) : option (outcome string) :=
  Marshal (GoVersion v).
End Marshal.

(** [json.Marshal(v)]: a value whose type has a [MarshalJSON] method is
    encoded by calling it; a bool is written as its literal.  [fuel]
    bounds the depth of calls; [None] means the depth was not enough. *)
Fixpoint json_Marshal (fuel : nat) (v : govalue) : option (outcome string) :=
  match fuel with
  | O => None
  | S fuel' =>
      match v with
      | GoBool b => Some (Ok (if b then "true" else "false"))
      | GoCreatedTime ct => CreatedTime_MarshalJSON (json_Marshal fuel') ct
      | GoVersion v => Version_MarshalJSON (json_Marshal fuel') v
      end
  end.

(** ** Auxiliary definitions for the statements *)

(** What the loops of [StreamDecode] keep of a visited map. *)
Definition stream_keep (visit : list (string * string)) : list Dependency :=
  map (fun kv => mkDependency kv.1 kv.2)
      (List.filter (fun kv => negb (tooLong kv.1 kv.2)) visit).

Definition is_JStr (v : json) : bool :=
  match v with JStr _ => true | _ => false end.

Definition str_of (v : json) : string :=
  match v with JStr s => s | _ => "" end.

(** What the loops of [process] append for a visited map of strings. *)
Definition live_keep (visit : list (string * json)) : list Dependency :=
  map (fun kv => mkDependency kv.1 (str_of kv.2)) visit.

Definition not_string_msg : string :=
  "interface conversion: interface {} is not string".

(** A registry that answers every request the same way, and the visit
    of a map in the order of [map_to_list]. *)
Definition always (r : Response) : Z -> Z -> string -> outcome Response :=
  fun _ _ _ => Ok r.

Definition listed : Z -> Z -> bool -> gmap string json -> list (string * json) :=
  fun _ _ _ m => map_to_list m.

Definition newline : string := String (ascii_of_nat 10) "".

(** The scenario of the left-pad package: the bulk document, the answer
    of the registry for its one version, and the row the specification
    expects in the output (its last field between quotes). *)
Definition left_pad_document : json :=
  JArr [JObj [("name", JStr "left-pad");
              ("versions", JArr [JObj [("number", JStr "1.0.0");
                                       ("published_at", JStr "2015-03-17T00:00:00.000Z")]])]].

Definition left_pad_response : Response :=
  mkResponse (Some (JObj [("dependencies", JObj []); ("devDependencies", JObj [])])) 200.

Definition left_pad_expected_row : string :=
  "left-pad,1.0.0,2015-03-17T00:00:00.000000000Z," ++ quoted "[]".

(** A package with eleven versions, all published at the zero time. *)
Definition eleven_versions : PackageInfo :=
  mkPackageInfo "left-pad"
    (map (fun number => mkVersion number GoTime.zeroTime)
       ["1.0.0"; "1.0.1"; "1.0.2"; "1.0.3"; "1.0.4"; "1.0.5";
        "1.0.6"; "1.0.7"; "1.0.8"; "1.0.9"; "1.0.10"]).

(** How one version of a unit went, when the unit was not stopped:
    resolved with a list of dependencies, or skipped ([None]). *)
Definition version_events (name : string) (verIdx : Z) (version : Version)
    (o : option (list Dependency)) : list event :=
  EvFetch (registry_url name (Number version)) ::
  match o with
  | None => []
  | Some all =>
      EvWrite (csv_record (mkVersionDependencies name (Number version)
                             (PublishedAt version) all))
      :: (if (Z.rem verIdx 10 =? 0)%Z then [EvFlush] else [])
  end.

Fixpoint unit_trace (name : string) (verIdx : Z) (versions : list Version)
    (outcomes : list (option (list Dependency))) : list event :=
  match versions, outcomes with
  | version :: versions', o :: outcomes' =>
      (version_events name verIdx version o
       ++ unit_trace name (verIdx + 1) versions' outcomes')%list
  | _, _ => []
  end.

Section Answers.
Variable fetch : Z -> Z -> string -> outcome Response.
Variable order : Z -> Z -> bool -> gmap string json -> list (string * json).

(** The registry's answer for a version leads to the given outcome. *)
Definition answers (name : string) (packageIdx verIdx : Z) (version : Version)
    (o : option (list Dependency)) : Prop :=
  exists response,
    fetch packageIdx verIdx (registry_url name (Number version)) = Ok response
    /\ match o with
       | Some all =>
           exists parsed,
             unmarshal_VersionInfo (resp_body response) = Ok parsed
             /\ live_extract (order packageIdx verIdx false (vi_Dependencies parsed))
                             (order packageIdx verIdx true (vi_DevDependencies parsed))
                = Ok all
       | None =>
           StatusCode response = 404%Z
           /\ exists msg, unmarshal_VersionInfo (resp_body response) = Err msg
       end.

Fixpoint all_answer (name : string) (packageIdx verIdx : Z) (versions : list Version)
    (outcomes : list (option (list Dependency))) : Prop :=
  match versions, outcomes with
  | [], [] => True
  | version :: versions', o :: outcomes' =>
      answers name packageIdx verIdx version o
      /\ all_answer name packageIdx (verIdx + 1) versions' outcomes'
  | _, _ => False
  end.
End Answers.

(** A streamed document of one package with one version that declares
    two runtime dependencies. *)
Definition two_deps_document : list Entry :=
  [mkEntry (mkDoc "left-pad"
      {["1.0.0" := mkVersionData "1.0.0" ∅ (<["a" := "1"]> {["b" := "2"]})]}
      ∅)].

(** No map the run iterates over has two entries. *)
Definition single_order (document : list Entry) : Prop :=
  Forall (fun e =>
    size (doc_Versions (entry_Doc e)) <= 1
    /\ map_Forall (fun _ vd =>
         size (vd_Dependencies vd) <= 1 /\ size (vd_DevDependencies vd) <= 1)
       (doc_Versions (entry_Doc e))) document.

(** The visit of an entry that takes every map in the order of
    [map_to_list]. *)
Definition listed_version (kv : string * VersionData) : VersionVisit :=
  mkVersionVisit kv.1 (map_to_list (vd_Dependencies kv.2))
                 (map_to_list (vd_DevDependencies kv.2)).

Definition listed_entry (e : Entry) : EntryVisit :=
  mkEntryVisit (doc_Name (entry_Doc e))
               (map listed_version (map_to_list (doc_Versions (entry_Doc e))))
               (doc_Time (entry_Doc e)).



(** ** Auxiliary definitions for the timestamp codec *)

Section TimestampDefs.
Import GoTime.
Local Open Scope Z_scope.

(** The day February 29 adds to the days before a month of a leap year. *)
Definition leap_adjust (year month : Z) : Z :=
  if isLeap year && (month >=? 3) then 1 else 0.

(** The day of the year, counted from zero, of a date. *)
Definition yearDay (year month day : Z) : Z :=
  daysBefore (month - 1) + leap_adjust year month + (day - 1).

(** The absolute time [Date] computes for a date and a time of day in UTC. *)
Definition absOf (year month day hour min sec : Z) : Z :=
  (daysSinceEpoch year + yearDay year month day) * secondsPerDay
  + (hour * secondsPerHour + min * secondsPerMinute + sec).

(** The second half of [absDate]: month and day from the day of the year. *)
Definition month_day (year yday : Z) : Z * Z * Z :=
  let day := yday in
  let after_feb (day : Z) :=
    let month := day / 31 in
    let end_ := daysBefore (month + 1) in
    let '(month, begin) :=
      if day >=? end_ then (month + 1, end_) else (month, daysBefore month) in
    (year, month + 1, day - begin + 1) in
  if isLeap year then
    if day >? 31 + 29 - 1 then after_feb (day - 1)
    else if day =? 31 + 29 - 1 then (year, 2, 29)
    else after_feb day
  else after_feb day.

(** Decimal digits. *)
Definition digits_ok (ds : list Z) : Prop := Forall (fun d => 0 <= d <= 9) ds.

(** The string does not start with a digit. *)
Definition no_digit_head (z : string) : Prop :=
  match z with
  | String c _ => isDigit c = false
  | EmptyString => True
  end.

(** The string starts with a byte that is neither a digit nor a comma or period. *)
Definition zone_head (z : string) : Prop :=
  exists c rest, z = String c rest /\ isDigit c = false /\ commaOrPeriod c = false.

(** A zone offset of whole minutes, less than a day: what RFC 3339 can write. *)
Definition zone_ok (offset : Z) : Prop :=
  Z.rem offset 60 = 0 /\ -86400 < offset < 86400.

(** The fields of a date and time of day, each in its range. *)
Definition fields_ok (year month day hour min sec nsec : Z) : Prop :=
  0 <= year <= 9999 /\ 1 <= month <= 12 /\ 1 <= day <= daysIn month year
  /\ 0 <= hour <= 23 /\ 0 <= min <= 59 /\ 0 <= sec <= 59 /\ 0 <= nsec < 1000000000.

(** The offset [time.Parse] reads where RFC 3339 sees an offset. *)
Definition zone_of (go : bool) (r : string) (oh om : Z) : Z :=
  match r with
  | String c _ => if Ascii.eqb c "-" then - ((oh * 60 + om) * 60) else (oh * 60 + om) * 60
  | EmptyString => 0
  end.

(** The string is not empty and its last byte is not [c]. *)
Fixpoint last_not (c : ascii) (s : string) : Prop :=
  match s with
  | EmptyString => False
  | String a EmptyString => Ascii.eqb a c = false
  | String _ s' => last_not c s'
  end.

(** [rest] is what is left of [s] after some bytes were read off its head. *)
Inductive consumes : string -> string -> Prop :=
| consumes_refl (s : string) : consumes s s
| consumes_cons (c : ascii) (s r : string) : consumes s r -> consumes (String c s) r.

End TimestampDefs.

(** ** Auxiliary definitions for further properties *)

(** One iteration of the loop of [writeOneToFile] over [deps]: [l] is
    [len(deps)], the state is [depsString] and the index [i]. *)
Definition depsString_step (l : Z) (acc : string * Z) (dep : Dependency) : string * Z :=
  let '(depsString, i) := acc in
  let depsString := depsString ++ Dependency_String dep in
  let depsString := if (i <? l - 1)%Z then depsString ++ ";" else depsString in
  (depsString, (i + 1)%Z).

(** [depsString] when the loop of [writeOneToFile] ends. *)
Definition depsString_loop (deps : list Dependency) : string :=
  (fold_left (depsString_step (Z.of_nat (length deps))) deps ("", 0%Z)).1.

(** The records written, and the addresses requested, in a list of events. *)
Definition writes_of (tr : list event) : list (list string) :=
  omap (fun e => match e with EvWrite record => Some record | _ => None end) tr.

Definition fetches_of (tr : list event) : list string :=
  omap (fun e => match e with EvFetch url => Some url | _ => None end) tr.

(** The lines of all the records written, flushed or not. *)
Definition lines_of (tr : list event) : string :=
  String.concat "" (map csv_line (writes_of tr)).

(** The registry addresses of the versions of a package, in order. *)
Definition package_urls (p : PackageInfo) : list string :=
  map (fun version => registry_url (pkg_Name p) (Number version)) (pkg_Versions p).

(** An event is about a version of the package [p]. *)
Definition concerns (p : PackageInfo) (e : event) : Prop :=
  match e with
  | EvFetch url =>
      exists version, version ∈ pkg_Versions p
        /\ url = registry_url (pkg_Name p) (Number version)
  | EvWrite record =>
      exists version deps, version ∈ pkg_Versions p
        /\ record = csv_record (mkVersionDependencies (pkg_Name p) (Number version)
                                  (PublishedAt version) deps)
  | EvFlush => True
  end.

(** The number of versions in a streamed document. *)
Definition streamed_versions (document : list Entry) : nat :=
  sum_list_with (fun e => size (doc_Versions (entry_Doc e))) document.


(** The state of a run in which the rows written so far are the rows of
    the records collected so far. *)
Definition results_written (st : pstate) : Prop :=
  writes_of (p_events st) = map csv_record (p_result st).

(** The record is the row [StreamDecode] writes for an entry of the
    versions map of a package: the number is the key, the date is the
    entry of the time map under it, and the dependencies are an output
    of the extractor on the two maps of the version. *)
Definition version_row (name : string) (timeStamps : gmap string CreatedTime)
    (kv : string * VersionData) (record : list string) : Prop :=
  exists deps,
    stream_extracts (vd_Dependencies kv.2) (vd_DevDependencies kv.2) deps
    /\ record = csv_record (mkVersionDependencies name kv.1 (time_of timeStamps kv.1) deps).

(** The records are the rows of the versions of the package of an entry,
    one for each version, in some order of the versions map. *)
Definition entry_rows (e : Entry) (records : list (list string)) : Prop :=
  exists visit,
    ranges (doc_Versions (entry_Doc e)) visit
    /\ Forall2 (version_row (doc_Name (entry_Doc e)) (doc_Time (entry_Doc e))) visit records.

(** The JSON value is an object with a member [v] whose key matches the
    field, ignoring case. *)
Definition member_of (j : json) (field : string) (v : json) : Prop :=
  exists members k, j = JObj members /\ (k, v) ∈ members /\ fold_eq k field = true.

(** What a decoded [PackageInfo] holds of the element it was decoded
    from, when no error was saved: the element is [null] or an object,
    and each field is the zero value or comes from a matching member. *)
Definition decoded_from (e : json) (p : PackageInfo) : Prop :=
  (e = JNull \/ exists members, e = JObj members)
  /\ (pkg_Name p = "" \/ member_of e "Name" (JStr (pkg_Name p)))
  /\ (pkg_Versions p = []
      \/ exists vs, member_of e "Versions" (JArr vs)
           /\ Forall2 (fun b v => Version_UnmarshalJSON b = Ok v) vs (pkg_Versions p)).

(** * Properties *)

(** ** Small checks of the model *)

Example format_zero : GoTime.Format GoTime.zeroTime = "0001-01-01T00:00:00Z".
Proof. vm_compute. reflexivity. Qed.

Example format_2015 :
  GoTime.Format (GoTime.in_zone (GoTime.Date 2015 3 17 10 20 30 120000000) (-3600))
  = "2015-03-17T10:20:30.12-01:00".
Proof. vm_compute. reflexivity. Qed.

Example parse_2015 :
  GoTime.Parse "2015-03-17T00:00:00.000Z" = Ok (GoTime.Date 2015 3 17 0 0 0 0).
Proof. vm_compute. reflexivity. Qed.

Example parse_2015_b :
  GoTime.Format <$> (GoTime.Parse "2015-03-17T23:00:00.1234567891+05:30") = Ok "2015-03-17T23:00:00.123456789+05:30".
Proof. vm_compute. reflexivity. Qed.

Example date_unix_epoch : GoTime.t_sec (GoTime.Date 1970 1 1 0 0 0 0) = 62135596800%Z.
Proof. vm_compute. reflexivity. Qed.

Example parse_one_digit_hour :
  GoTime.Format <$> GoTime.Parse "2015-03-17T7:00:00Z" = Ok "2015-03-17T07:00:00Z".
Proof. vm_compute. reflexivity. Qed.

Example parse_comma_fraction :
  GoTime.Format <$> GoTime.Parse "2016-02-29T12:00:00,5-00:00" = Ok "2016-02-29T12:00:00.5Z".
Proof. vm_compute. reflexivity. Qed.

Example parse_leap_second :
  GoTime.Parse "2016-12-31T23:59:60Z" = Err "second out of range"
  /\ RFC3339.rfc3339 "2016-12-31T23:59:60Z" = true
  /\ RFC3339.rfc3339_go "2016-12-31T23:59:60Z" = false.
Proof. vm_compute. repeat split. Qed.

Example parse_bad_day :
  GoTime.Parse "2015-02-29T00:00:00Z" = Err "day out of range"
  /\ RFC3339.rfc3339 "2015-02-29T00:00:00Z" = false.
Proof. vm_compute. repeat split. Qed.

(** An offset outside RFC 3339 that [time.Parse] lets through: 24 hours
    and 60 minutes are shown as 25 hours, which it then rejects. *)
Example offset_beyond_rfc :
  RFC3339.rfc3339 "2015-03-17T00:00:00+24:60" = false
  /\ GoTime.Format <$> GoTime.Parse "2015-03-17T00:00:00+24:60"
     = Ok "2015-03-17T00:00:00+25:00"
  /\ GoTime.Parse "2015-03-17T00:00:00+25:00" = Err "time zone offset hour out of range".
Proof. vm_compute. repeat split. Qed.

Example csv_line_quoting :
  csv_line ["a,b"; " x"; "plain"; ""]
  = quoted "a,b" ++ "," ++ quoted " x" ++ ",plain," ++ String (ascii_of_nat 10) "".
Proof. vm_compute. reflexivity. Qed.

Example marshal_bool : json_Marshal 1 (GoBool true) = Some (Ok "true").
Proof. reflexivity. Qed.

(** [encoding/json] on this package's types: a [null] sets a slice or
    a map to [nil], also after an earlier member filled it; a value of
    the wrong type is saved as an error and decoding goes on, so that a
    panic of [Version.UnmarshalJSON] further on still happens. *)
Example null_resets_versions :
  unmarshal_PackageInfos
    (JArr [JObj [("name", JStr "a");
                 ("versions", JArr [JObj [("number", JStr "1.0.0");
                                          ("published_at", JStr "2015-03-17T00:00:00Z")]]);
                 ("versions", JNull)]])
  = Ok [mkPackageInfo "a" []].
Proof. vm_compute. reflexivity. Qed.

Example null_resets_dependencies :
  unmarshal_VersionInfo
    (Some (JObj [("dependencies", JObj [("a", JStr "1")]); ("dependencies", JNull)]))
  = Ok (mkVersionInfo ∅ ∅).
Proof. vm_compute. reflexivity. Qed.

Example type_error_then_panic :
  unmarshal_PackageInfos
    (JArr [JObj [("name", JNum "5"); ("versions", JArr [JObj [("number", JStr "1.0.0")]])]])
  = Panic not_string_msg.
Proof. vm_compute. reflexivity. Qed.

Example type_error_is_returned :
  unmarshal_PackageInfos (JArr [JObj [("name", JNum "5")]; JObj [("name", JStr "b")]])
  = Err (type_error "string").
Proof. vm_compute. reflexivity. Qed.

(** ** Encoding back to JSON never returns *)

(** C10. Encoding a [CreatedTime] or a [Version] back to JSON never
    produces a result: [CreatedTime.MarshalJSON] and [Version.MarshalJSON]
    call [json.Marshal] on their own receiver, which calls the method
    again; whatever depth of calls is allowed, neither [json.Marshal] nor
    the method returns. *)
Theorem MarshalJSON_never_returns (fuel : nat) :
  (forall ct : CreatedTime,
      json_Marshal fuel (GoCreatedTime ct) = None
      /\ CreatedTime_MarshalJSON (json_Marshal fuel) ct = None)
  /\ (forall v : Version,
      json_Marshal fuel (GoVersion v) = None
      /\ Version_MarshalJSON (json_Marshal fuel) v = None).
Proof.
  unfold CreatedTime_MarshalJSON, Version_MarshalJSON.
  induction fuel as [|fuel [IHct IHv]]; [by repeat split|].
  split; intros x; cbn [json_Marshal];
    unfold CreatedTime_MarshalJSON, Version_MarshalJSON; [apply IHct | apply IHv].
Qed.

(** ** The dependency extractor *)

Lemma ranges_empty {A} (visit : list (string * A)) : ranges (∅ : gmap string A) visit -> visit = [].
Proof. unfold ranges. rewrite map_to_list_empty. apply Permutation_nil_r. Qed.

Lemma ranges_singleton {A} (k : string) (v : A) (visit : list (string * A)) :
  ranges ({[k := v]} : gmap string A) visit -> visit = [(k, v)].
Proof. unfold ranges. rewrite map_to_list_singleton. apply Permutation_singleton_r. Qed.

Lemma ranges_map_to_list {A} (m : gmap string A) : ranges m (map_to_list m).
Proof. unfold ranges. reflexivity. Qed.

Lemma ranges_length {A} (m : gmap string A) (visit : list (string * A)) :
  ranges m visit -> length visit = size m.
Proof. intros H. rewrite H. apply length_map_to_list. Qed.

Lemma ranges_elem {A} (m : gmap string A) (visit : list (string * A)) k v :
  ranges m visit -> (k, v) ∈ visit <-> m !! k = Some v.
Proof. intros H. rewrite H. apply elem_of_map_to_list. Qed.

Lemma fold_stream_append (visit : list (string * string)) (acc : list Dependency) :
  fold_left stream_append visit acc = (acc ++ stream_keep visit)%list.
Proof.
  revert acc. induction visit as [|[k v] visit IH]; intros acc; cbn.
  - by rewrite app_nil_r.
  - rewrite IH. unfold stream_append, stream_keep. cbn.
    destruct (tooLong k v); cbn; [done|]. by rewrite <- app_assoc.
Qed.

Lemma stream_extract_keep (visit visitDev : list (string * string)) :
  stream_extract visit visitDev = (stream_keep visit ++ stream_keep visitDev)%list.
Proof. unfold stream_extract. by rewrite !fold_stream_append. Qed.

Lemma stream_keep_length (visit : list (string * string)) :
  Forall (fun kv => tooLong kv.1 kv.2 = false) visit ->
  length (stream_keep visit) = length visit.
Proof.
  unfold stream_keep. rewrite length_map.
  induction 1 as [|[k v] visit Hkv _ IH]; cbn in *; [done|].
  rewrite Hkv. cbn. by rewrite IH.
Qed.

Lemma elem_of_stream_keep (visit : list (string * string)) k v :
  mkDependency k v ∈ stream_keep visit <-> (k, v) ∈ visit /\ tooLong k v = false.
Proof.
  unfold stream_keep. rewrite list_elem_of_fmap. split.
  - intros [[k' v'] [Heq Hin]]. cbn in Heq. injection Heq as -> ->.
    apply list_elem_of_In, filter_In in Hin as [Hin Hlen].
    apply list_elem_of_In in Hin. cbn in Hlen. by destruct (tooLong k' v').
  - intros [Hin Hlen]. exists (k, v). split; [done|].
    apply list_elem_of_In, filter_In. split; [by apply list_elem_of_In|].
    cbn. by rewrite Hlen.
Qed.

(** The streaming path does what the size guard promises: with no
    oversized name or range the output has one element per entry, and in
    general an entry is in the output exactly when it is not oversized.
    Lengths are counted in bytes, as [len] does. *)
Lemma stream_extracts_spec (deps devDeps : gmap string string) (out : list Dependency) :
  stream_extracts deps devDeps out ->
  ((forall k v, deps !! k = Some v \/ devDeps !! k = Some v -> tooLong k v = false) ->
   length out = size deps + size devDeps)
  /\ (forall k v, mkDependency k v ∈ out <->
        (deps !! k = Some v \/ devDeps !! k = Some v) /\ tooLong k v = false).
Proof.
  intros (visit & visitDev & Hv & Hd & ->). rewrite stream_extract_keep. split.
  - intros Hshort. rewrite length_app, !stream_keep_length.
    + by rewrite (ranges_length _ _ Hv), (ranges_length _ _ Hd).
    + apply Forall_forall. intros [k v] Hin. apply Hshort. right.
      by apply (ranges_elem _ _ _ _ Hd).
    + apply Forall_forall. intros [k v] Hin. apply Hshort. left.
      by apply (ranges_elem _ _ _ _ Hv).
  - intros k v. rewrite elem_of_app, !elem_of_stream_keep.
    rewrite (ranges_elem _ _ _ _ Hv), (ranges_elem _ _ _ _ Hd). tauto.
Qed.

Lemma fold_live_append_strings (visit : list (string * json)) (acc : list Dependency) :
  Forall (fun kv => is_JStr kv.2 = true) visit ->
  foldM_outcome live_append visit acc = Ok (acc ++ live_keep visit)%list.
Proof.
  intros H. revert acc. induction H as [|[k v] visit Hkv _ IH]; intros acc; cbn.
  - by rewrite app_nil_r.
  - destruct v; try discriminate. cbn. rewrite IH. by rewrite <- app_assoc.
Qed.

Lemma fold_live_append_panics (visit : list (string * json)) (acc : list Dependency) :
  Exists (fun kv => is_JStr kv.2 = false) visit ->
  foldM_outcome live_append visit acc = Panic not_string_msg.
Proof.
  intros H. revert acc. induction H as [[k v] visit Hkv|[k v] visit _ IH]; intros acc; cbn.
  - by destruct v.
  - destruct v; cbn; solve [reflexivity | apply IH].
Qed.

(** C1. The failing input of the live path: a dependency whose name has
    10,001 bytes, with a string range.  [tooLong] holds of it, the
    streaming extractor drops it, and the live extractor, which never
    calls [tooLong], returns it. *)
Theorem live_extract_keeps_oversized :
  let name := repeat_char "a" (Z.to_nat 10001) in
  tooLong name "1.0.0" = true
  /\ (forall out, stream_extracts {[name := "1.0.0"]} ∅ out -> out = [])
  /\ (forall out, live_extracts {[name := JStr "1.0.0"]} ∅ out ->
        out = Ok [mkDependency name "1.0.0"]).
Proof.
  intros name.
  assert (Hlong : tooLong name "1.0.0" = true) by (vm_compute; reflexivity).
  clearbody name. split; [done|]. split.
  - intros out (visit & visitDev & Hv & Hd & ->).
    apply ranges_singleton in Hv as ->. apply ranges_empty in Hd as ->.
    unfold stream_extract, stream_append. cbn. by rewrite Hlong.
  - intros out (visit & visitDev & Hv & Hd & ->).
    apply ranges_singleton in Hv as ->. apply ranges_empty in Hd as ->.
    reflexivity.
Qed.

Lemma all_strings_visit (m : gmap string json) (visit : list (string * json)) :
  ranges m visit ->
  map_Forall (fun _ v => is_JStr v = true) m ->
  Forall (fun kv => is_JStr kv.2 = true) visit.
Proof.
  intros Hv Hall. apply Forall_forall. intros [k v] Hin.
  apply (ranges_elem _ _ _ _ Hv) in Hin. by apply (Hall k v).
Qed.

Lemma some_not_string_visit (m : gmap string json) (visit : list (string * json)) k v :
  ranges m visit -> m !! k = Some v -> is_JStr v = false ->
  Exists (fun kv => is_JStr kv.2 = false) visit.
Proof.
  intros Hv Hk Hns. apply Exists_exists. exists (k, v). split; [|done].
  by apply (ranges_elem _ _ _ _ Hv).
Qed.

(** C2, as stated, fails: in the live path a range that is a JSON number
    makes the extractor panic, whatever the order of the visit. *)
Lemma live_extract_number_panics :
  live_extracts {["left-pad" := JNum "1"]} ∅ (Panic not_string_msg)
  /\ (forall out, live_extracts {["left-pad" := JNum "1"]} ∅ out ->
        ~ exists l, out = Ok l).
Proof.
  split.
  - exists [("left-pad", JNum "1")], []. split; [|split; [|reflexivity]].
    + unfold ranges. by rewrite map_to_list_singleton.
    + unfold ranges. by rewrite map_to_list_empty.
  - intros out (visit & visitDev & Hv & Hd & ->).
    apply ranges_singleton in Hv as ->. intros [l Hl]. discriminate Hl.
Qed.

(** C2, amended. The streaming extractor always yields a list.  The live
    extractor yields a list, with one element per entry, when every
    range is a JSON string; when some range is not a string it panics
    (the type assertion [v.(string)] fails) and the run ends.  Empty maps
    give the empty list in both paths. *)
Theorem extractor_total_on_string_ranges
    (deps devDeps : gmap string json) (out : outcome (list Dependency)) :
  live_extracts deps devDeps out ->
  (map_Forall (fun _ v => is_JStr v = true) deps ->
   map_Forall (fun _ v => is_JStr v = true) devDeps ->
   exists l, out = Ok l /\ length l = size deps + size devDeps)
  /\ (forall k v, deps !! k = Some v \/ devDeps !! k = Some v ->
        is_JStr v = false -> out = Panic not_string_msg)
  /\ (forall sdeps sdevDeps : gmap string string,
        exists l, stream_extracts sdeps sdevDeps l)
  /\ stream_extract [] [] = []
  /\ live_extract [] [] = Ok [].
Proof.
  intros (visit & visitDev & Hv & Hd & ->). repeat split.
  - intros Hs Hsd. unfold live_extract.
    rewrite (fold_live_append_strings visit); [|by eapply all_strings_visit].
    cbn. rewrite (fold_live_append_strings visitDev); [|by eapply all_strings_visit].
    eexists. split; [reflexivity|].
    unfold live_keep. rewrite length_app, !length_map.
    by rewrite (ranges_length _ _ Hv), (ranges_length _ _ Hd).
  - intros k v [Hk|Hk] Hns; unfold live_extract.
    + rewrite (fold_live_append_panics visit); [done|by eapply some_not_string_visit].
    + destruct (foldM_outcome live_append visit []) as [acc|msg|msg] eqn:E; cbn.
      * apply fold_live_append_panics. by eapply some_not_string_visit.
      * clear -E. exfalso. revert E. generalize (@nil Dependency).
        induction visit as [|[k v] visit IH]; intros acc; cbn; [done|].
        destruct v; cbn; try done. apply IH.
      * clear -E. f_equal. revert E. generalize (@nil Dependency).
        induction visit as [|[k v] visit IH]; intros acc; cbn; [done|].
        destruct v; cbn; try (by intros [= <-]). apply IH.
  - intros sdeps sdevDeps. eexists. exists (map_to_list sdeps), (map_to_list sdevDeps).
    split; [apply ranges_map_to_list|]. split; [apply ranges_map_to_list|reflexivity].
Qed.

Lemma extractor_total_on_string_ranges_witness :
  live_extracts {["left-pad" := JStr "^1.3.0"]} ∅ (Ok [mkDependency "left-pad" "^1.3.0"])
  /\ exists l, Ok [mkDependency "left-pad" "^1.3.0"] = Ok l
                /\ length l = size ({["left-pad" := JStr "^1.3.0"]} : gmap string json)
                             + size (∅ : gmap string json).
Proof.
  assert (H : live_extracts {["left-pad" := JStr "^1.3.0"]} ∅
                (Ok [mkDependency "left-pad" "^1.3.0"])).
  { exists [("left-pad", JStr "^1.3.0")], []. split; [|split; [|reflexivity]].
    - unfold ranges. by rewrite map_to_list_singleton.
    - unfold ranges. by rewrite map_to_list_empty. }
  split; [exact H|].
  apply (proj1 (extractor_total_on_string_ranges _ _ _ H)).
  - intros k v Hk. apply lookup_singleton_Some in Hk as [_ <-]. reflexivity.
  - intros k v Hk. by rewrite lookup_empty in Hk.
Defined.

(** ** The live path *)

Section LiveFacts.
Variable fetch : Z -> Z -> string -> outcome Response.
Variable order : Z -> Z -> bool -> gmap string json -> list (string * json).

(** A version whose answer decodes and holds only string ranges: its
    record is written, whatever the status of the answer. *)
Lemma process_version_resolved name packageIdx verIdx version st response parsed all :
  fetch packageIdx verIdx (registry_url name (Number version)) = Ok response ->
  unmarshal_VersionInfo (resp_body response) = Ok parsed ->
  live_extract (order packageIdx verIdx false (vi_Dependencies parsed))
               (order packageIdx verIdx true (vi_DevDependencies parsed)) = Ok all ->
  process_version fetch order name packageIdx verIdx version st =
    (let vd := mkVersionDependencies name (Number version) (PublishedAt version) all in
     let st1 := emit (EvWrite (csv_record vd))
                     (push_result vd (emit (EvFetch (registry_url name (Number version))) st)) in
     if (Z.rem verIdx 10 =? 0)%Z then emit EvFlush st1 else st1, None).
Proof.
  intros Hf Hu He. unfold process_version. rewrite Hf, Hu, He. reflexivity.
Qed.

(** A version whose answer does not decode: skipped on status 404, the
    end of the run otherwise. *)
Lemma process_version_undecodable name packageIdx verIdx version st response msg :
  fetch packageIdx verIdx (registry_url name (Number version)) = Ok response ->
  unmarshal_VersionInfo (resp_body response) = Err msg ->
  process_version fetch order name packageIdx verIdx version st =
    (emit (EvFetch (registry_url name (Number version))) st,
     if (StatusCode response =? 404)%Z then None else Some msg).
Proof.
  intros Hf Hu. unfold process_version. rewrite Hf, Hu.
  by destruct (StatusCode response =? 404)%Z.
Qed.
End LiveFacts.

Lemma unmarshal_VersionInfo_no_panic body msg :
  unmarshal_VersionInfo body <> Panic msg.
Proof.
  destruct body as [[| | | | |members]|]; try discriminate. cbn.
  generalize (mkVersionInfo ∅ ∅).
  induction members as [|[k v] members IH]; intros vi; cbn; [discriminate|].
  destruct (fold_eq k "Dependencies"); [destruct v; try discriminate; apply IH|].
  destruct (fold_eq k "DevDependencies"); [destruct v; try discriminate; apply IH|].
  apply IH.
Qed.

(** C3, as stated, fails.  An answer with status 429 whose body is a JSON
    object does not end the run: it is read as a version without
    dependencies and its record is written.  An answer with status 404
    whose body is a JSON object is not skipped either. *)
Lemma process_ignores_status_of_decodable_answer :
  let p := mkPackageInfo "left-pad" [mkVersion "1.0.0" GoTime.zeroTime] in
  let body := Some (JObj [("error", JStr "rate limited")]) in
  let written :=
    [EvFetch "https://registry.npmjs.org/left-pad/1.0.0";
     EvWrite ["left-pad"; "1.0.0"; "0001-01-01T00:00:00Z"; "[]"];
     EvFlush; EvFlush] in
  (p_events (process (always (mkResponse body 429)) listed [p]).1 = written
   /\ (process (always (mkResponse body 429)) listed [p]).2 = None)
  /\ (p_events (process (always (mkResponse body 404)) listed [p]).1 = written
      /\ (process (always (mkResponse body 404)) listed [p]).2 = None).
Proof. vm_compute. repeat split. Qed.

(** C3, amended.  The status of an answer is looked at only when its body
    does not decode: then status 404 skips the version (nothing is
    written for it) and the loop goes on with the next version of the
    package, and any other status ends the run.  An answer whose body
    decodes is processed as dependency data whatever its status. *)
Theorem process_status_policy
    (fetch : Z -> Z -> string -> outcome Response)
    (order : Z -> Z -> bool -> gmap string json -> list (string * json))
    (name : string) (packageIdx verIdx : Z) (version : Version) (rest : list Version)
    (st : pstate) (response : Response) :
  fetch packageIdx verIdx (registry_url name (Number version)) = Ok response ->
  let fetched := emit (EvFetch (registry_url name (Number version))) st in
  (forall msg, unmarshal_VersionInfo (resp_body response) = Err msg ->
     StatusCode response = 404%Z ->
     process_versions fetch order name packageIdx verIdx (version :: rest) st
     = process_versions fetch order name packageIdx (verIdx + 1) rest fetched)
  /\ (forall msg, unmarshal_VersionInfo (resp_body response) = Err msg ->
     StatusCode response <> 404%Z ->
     process_versions fetch order name packageIdx verIdx (version :: rest) st
     = (fetched, Some msg))
  /\ (forall parsed all, unmarshal_VersionInfo (resp_body response) = Ok parsed ->
     live_extract (order packageIdx verIdx false (vi_Dependencies parsed))
                  (order packageIdx verIdx true (vi_DevDependencies parsed)) = Ok all ->
     exists st', (process_version fetch order name packageIdx verIdx version st).1 = st'
       /\ (process_version fetch order name packageIdx verIdx version st).2 = None
       /\ EvWrite (csv_record (mkVersionDependencies name (Number version)
                                 (PublishedAt version) all)) ∈ p_events st').
Proof.
  intros Hf fetched. repeat split.
  - intros msg Hu H404. cbn [process_versions].
    rewrite (process_version_undecodable _ _ _ _ _ _ _ _ _ Hf Hu).
    apply Z.eqb_eq in H404. by rewrite H404.
  - intros msg Hu H404. cbn [process_versions].
    rewrite (process_version_undecodable _ _ _ _ _ _ _ _ _ Hf Hu).
    apply Z.eqb_neq in H404. by rewrite H404.
  - intros parsed all Hu He. eexists. split; [reflexivity|].
    rewrite (process_version_resolved _ _ _ _ _ _ _ _ _ _ Hf Hu He). cbn [fst snd].
    split; [reflexivity|].
    destruct (Z.rem verIdx 10 =? 0)%Z; unfold emit, push_result; cbn;
      rewrite !elem_of_app, !list_elem_of_singleton; auto.
Qed.

Lemma process_status_policy_witness :
  process_versions (always (mkResponse None 404)) listed "left-pad" 0 0
    [mkVersion "1.0.0" GoTime.zeroTime; mkVersion "1.0.1" GoTime.zeroTime]
    (mkPstate [] [])
  = process_versions (always (mkResponse None 404)) listed "left-pad" 0 (0 + 1)
    [mkVersion "1.0.1" GoTime.zeroTime]
    (emit (EvFetch (registry_url "left-pad" "1.0.0")) (mkPstate [] [])).
Proof.
  refine (proj1 (process_status_policy (always (mkResponse None 404)) listed
                   "left-pad" 0 0 (mkVersion "1.0.0" GoTime.zeroTime)
                   [mkVersion "1.0.1" GoTime.zeroTime] (mkPstate [] [])
                   (mkResponse None 404) _) _ _ _); reflexivity.
Defined.

(** ** The left-pad scenario *)

Lemma left_pad_decodes :
  unmarshal_PackageInfos left_pad_document
  = Ok [mkPackageInfo "left-pad" [mkVersion "1.0.0" (GoTime.Date 2015 3 17 0 0 0 0)]].
Proof. vm_compute. reflexivity. Qed.

(** C4, as stated, fails.  With the registry answering every request by
    the response of the scenario, the file holds one line, and it is not
    the expected row: the layout [RFC3339Nano] drops the trailing zeros
    of the fraction (here all of it), and the CSV writer leaves a field
    without comma, quote or line break unquoted. *)
Lemma left_pad_row_differs :
  file_content (p_events (process (always left_pad_response) listed
     [mkPackageInfo "left-pad" [mkVersion "1.0.0" (GoTime.Date 2015 3 17 0 0 0 0)]]).1)
  = "left-pad,1.0.0,2015-03-17T00:00:00Z,[]" ++ newline
  /\ "left-pad,1.0.0,2015-03-17T00:00:00Z,[]" ++ newline <> left_pad_expected_row ++ newline
  /\ GoTime.Format (GoTime.Date 2015 3 17 0 0 0 0) <> "2015-03-17T00:00:00.000000000Z"
  /\ csv_field "[]" <> quoted "[]".
Proof. vm_compute. repeat split; discriminate. Qed.

(** C4, amended.  For the bulk document of the scenario and a registry
    that answers the request for left-pad 1.0.0 with empty dependency
    maps, the run fetches once, writes the record
    [left-pad, 1.0.0, 2015-03-17T00:00:00Z, []] and flushes, and the file
    holds exactly the line [left-pad,1.0.0,2015-03-17T00:00:00Z,[]]. *)
Theorem left_pad_row
    (fetch : Z -> Z -> string -> outcome Response)
    (order : Z -> Z -> bool -> gmap string json -> list (string * json)) :
  (forall i j dev m, ranges m (order i j dev m)) ->
  fetch 0%Z 0%Z "https://registry.npmjs.org/left-pad/1.0.0" = Ok left_pad_response ->
  exists arr,
    unmarshal_PackageInfos left_pad_document = Ok arr
    /\ process fetch order arr
       = (mkPstate
            [EvFetch "https://registry.npmjs.org/left-pad/1.0.0";
             EvWrite ["left-pad"; "1.0.0"; "2015-03-17T00:00:00Z"; "[]"];
             EvFlush; EvFlush]
            [mkVersionDependencies "left-pad" "1.0.0" (GoTime.Date 2015 3 17 0 0 0 0) []],
          None)
    /\ file_content (p_events (process fetch order arr).1)
       = "left-pad,1.0.0,2015-03-17T00:00:00Z,[]" ++ newline.
Proof.
  intros Horder Hfetch. eexists. split; [apply left_pad_decodes|].
  assert (Hrun : forall P : pstate * option string -> Prop,
    P (mkPstate
            [EvFetch "https://registry.npmjs.org/left-pad/1.0.0";
             EvWrite ["left-pad"; "1.0.0"; "2015-03-17T00:00:00Z"; "[]"];
             EvFlush; EvFlush]
            [mkVersionDependencies "left-pad" "1.0.0" (GoTime.Date 2015 3 17 0 0 0 0) []],
          None) ->
    P (process fetch order
         [mkPackageInfo "left-pad" [mkVersion "1.0.0" (GoTime.Date 2015 3 17 0 0 0 0)]])).
  { intros P HP. unfold process. cbn [process_packages process_versions pkg_Name pkg_Versions].
    erewrite process_version_resolved with (all := []).
    - replace (GoTime.Format (GoTime.Date 2015 3 17 0 0 0 0)) with "2015-03-17T00:00:00Z" in *
        by (vm_compute; reflexivity).
      exact HP.
    - exact Hfetch.
    - reflexivity.
    - cbn [vi_Dependencies vi_DevDependencies obj_to_map fold_left].
      rewrite (ranges_empty _ (Horder _ _ _ _)), (ranges_empty _ (Horder _ _ _ _)).
      reflexivity. }
  split.
  - apply Hrun. reflexivity.
  - apply Hrun. vm_compute. reflexivity.
Qed.

Lemma left_pad_row_witness :
  exists arr,
    unmarshal_PackageInfos left_pad_document = Ok arr
    /\ process (always left_pad_response) listed arr
       = (mkPstate
            [EvFetch "https://registry.npmjs.org/left-pad/1.0.0";
             EvWrite ["left-pad"; "1.0.0"; "2015-03-17T00:00:00Z"; "[]"];
             EvFlush; EvFlush]
            [mkVersionDependencies "left-pad" "1.0.0" (GoTime.Date 2015 3 17 0 0 0 0) []],
          None)
    /\ file_content (p_events (process (always left_pad_response) listed arr).1)
       = "left-pad,1.0.0,2015-03-17T00:00:00Z,[]" ++ newline.
Proof.
  apply (left_pad_row (always left_pad_response) listed).
  - intros i j dev m. apply ranges_map_to_list.
  - reflexivity.
Defined.

(** ** Order of the events of a unit of the live path *)

Lemma process_versions_trace fetch order name packageIdx versions :
  forall verIdx outcomes st,
    all_answer fetch order name packageIdx verIdx versions outcomes ->
    exists result,
      process_versions fetch order name packageIdx verIdx versions st
      = (mkPstate (p_events st ++ unit_trace name verIdx versions outcomes) result, None).
Proof.
  induction versions as [|version versions IH]; intros verIdx [|o outcomes] st Hall;
    try (now destruct Hall).
  - cbn. rewrite app_nil_r. exists (p_result st). by destruct st.
  - destruct Hall as [(response & Hf & Ho) Hrest]. cbn [process_versions unit_trace].
    destruct o as [all|].
    + destruct Ho as (parsed & Hu & He).
      rewrite (process_version_resolved _ _ _ _ _ _ _ _ _ _ Hf Hu He).
      cbv zeta. cbn [fst snd].
      match goal with |- context [process_versions _ _ _ _ _ _ ?s] =>
        destruct (IH (verIdx + 1)%Z outcomes s Hrest) as [result ->] end.
      exists result. f_equal. f_equal. unfold version_events.
      destruct (Z.rem verIdx 10 =? 0)%Z; cbn; rewrite <- !app_assoc; reflexivity.
    + destruct Ho as (H404 & msg & Hu).
      rewrite (process_version_undecodable _ _ _ _ _ _ _ _ _ Hf Hu).
      apply Z.eqb_eq in H404. rewrite H404.
      match goal with |- context [process_versions _ _ _ _ _ _ ?s] =>
        destruct (IH (verIdx + 1)%Z outcomes s Hrest) as [result ->] end.
      exists result. f_equal. f_equal. unfold version_events. cbn.
      rewrite <- !app_assoc. reflexivity.
Qed.

(** C8, as stated, fails.  In a unit of eleven versions, all resolved,
    the record of the first version is followed by a flush, and the
    record of the tenth version is followed by the request for the
    eleventh, with no flush in between: the flush falls on the versions
    at index 0, 10, 20, ... and not on every tenth one. *)
Lemma flush_is_not_on_tenth_version :
  let tr := p_events (process (always left_pad_response) listed [eleven_versions]).1 in
  (tr !! 1%nat = Some (EvWrite ["left-pad"; "1.0.0"; "0001-01-01T00:00:00Z"; "[]"])
   /\ tr !! 2%nat = Some EvFlush)
  /\ (tr !! 20%nat = Some (EvWrite ["left-pad"; "1.0.9"; "0001-01-01T00:00:00Z"; "[]"])
      /\ tr !! 21%nat = Some (EvFetch "https://registry.npmjs.org/left-pad/1.0.10")).
Proof. vm_compute. repeat split. Qed.

(** C8, amended.  In a unit of the live path that is not stopped, the
    versions are processed one after the other in the order of the
    input: for each version a request, then, unless the version is
    skipped, one write; the sink is flushed right after the write of a
    version whose index, counted from zero, is a multiple of 10 (the
    1st, 11th, 21st, ... version of the package, when it is not
    skipped), and once more when the versions of the unit are done. *)
Theorem process_unit_trace
    (fetch : Z -> Z -> string -> outcome Response)
    (order : Z -> Z -> bool -> gmap string json -> list (string * json))
    (p : PackageInfo) (outcomes : list (option (list Dependency))) :
  all_answer fetch order (pkg_Name p) 0 0 (pkg_Versions p) outcomes ->
  (process fetch order [p]).2 = None
  /\ p_events (process fetch order [p]).1
     = (unit_trace (pkg_Name p) 0 (pkg_Versions p) outcomes ++ [EvFlush])%list.
Proof.
  intros Hall. unfold process. cbn [process_packages].
  destruct (process_versions_trace _ _ _ _ _ _ _ (mkPstate [] []) Hall) as [result ->].
  cbn. split; reflexivity.
Qed.

Lemma process_unit_trace_witness :
  (process (always left_pad_response) listed
     [mkPackageInfo "left-pad" [mkVersion "1.0.0" GoTime.zeroTime;
                                mkVersion "1.0.1" GoTime.zeroTime]]).2 = None
  /\ p_events (process (always left_pad_response) listed
       [mkPackageInfo "left-pad" [mkVersion "1.0.0" GoTime.zeroTime;
                                  mkVersion "1.0.1" GoTime.zeroTime]]).1
     = (unit_trace "left-pad" 0
          [mkVersion "1.0.0" GoTime.zeroTime; mkVersion "1.0.1" GoTime.zeroTime]
          [Some []; Some []] ++ [EvFlush])%list.
Proof.
  apply (process_unit_trace (always left_pad_response) listed
           (mkPackageInfo "left-pad" [mkVersion "1.0.0" GoTime.zeroTime;
                                      mkVersion "1.0.1" GoTime.zeroTime])
           [Some []; Some []]).
  cbn. repeat split; exists left_pad_response; (split; [reflexivity|]);
    eexists; (split; [reflexivity|]); vm_compute; reflexivity.
Defined.

(** ** Missing publication times *)

Lemma unmarshal_zero_time :
  CreatedTime_UnmarshalJSON (quoted "0001-01-01T00:00:00Z") = Ok GoTime.zeroTime.
Proof. vm_compute. reflexivity. Qed.

(** C9, as stated, fails.  In the streaming path a version without an
    entry in the [time] map gets the zero value of [time.Time], the same
    value a version published at 0001-01-01T00:00:00Z gets, and its row
    shows that date.  In the bulk path a version object without
    [published_at] makes the decoder panic: no [Version] stands for a
    version without a date. *)
Lemma missing_time_is_zero_time :
  (time_of ∅ "1.0.0" = GoTime.zeroTime
   /\ time_of {["1.0.0" := GoTime.zeroTime]} "1.0.0" = GoTime.zeroTime
   /\ unmarshal_CreatedTime "0001-01-01T00:00:00Z" = Ok GoTime.zeroTime)
  /\ stream_version "left-pad" ∅ (mkVersionVisit "1.0.0" [] [])
     = EvWrite ["left-pad"; "1.0.0"; "0001-01-01T00:00:00Z"; "[]"]
  /\ Version_UnmarshalJSON (JObj [("number", JStr "1.0.0")]) = Panic not_string_msg.
Proof. vm_compute. repeat split. Qed.

Lemma assert_string_Ok x s : assert_string x = Ok s -> x = Some (JStr s).
Proof. destruct x as [[]|]; cbn; congruence. Qed.

Lemma assert_string_not_string x :
  (forall s, x <> Some (JStr s)) -> assert_string x = Panic not_string_msg.
Proof. destruct x as [[]|]; cbn; try reflexivity. intros H. by destruct (H s). Qed.

(** C9, amended.  A [Version] decoded from the bulk document always
    carries a point in time, the one its [published_at] string parses
    to: a version object whose [published_at] is missing or is not a
    string makes the decoder panic, and one whose string does not parse
    makes it return an error.  In the streaming path the time of a
    version is the entry of the [time] map under its number, and the
    zero time 0001-01-01T00:00:00Z when there is no such entry. *)
Theorem publishedAt_is_never_absent
    (b : json) (timeStamps : gmap string CreatedTime) (number : string) :
  (forall v, Version_UnmarshalJSON b = Ok v ->
     exists dat date_string,
       unmarshal_map_any b = Ok dat
       /\ dat !! "published_at" = Some (JStr date_string)
       /\ unmarshal_CreatedTime date_string = Ok (PublishedAt v))
  /\ (forall dat, unmarshal_map_any b = Ok dat ->
       (forall s, dat !! "published_at" <> Some (JStr s)) ->
       Version_UnmarshalJSON b = Panic not_string_msg)
  /\ (forall t, timeStamps !! number = Some t -> time_of timeStamps number = t)
  /\ (timeStamps !! number = None ->
       time_of timeStamps number = GoTime.zeroTime
       /\ CreatedTime_String (time_of timeStamps number) = "0001-01-01T00:00:00Z").
Proof.
  split; [|split; [|split]].
  - intros v Hv. unfold Version_UnmarshalJSON in Hv.
    destruct (unmarshal_map_any b) as [dat| |] eqn:Hdat; try discriminate. cbn in Hv.
    destruct (assert_string (dat !! "published_at")) as [s| |] eqn:Hs; try discriminate.
    cbn in Hv.
    destruct (unmarshal_CreatedTime s) as [date| |] eqn:Hd; try discriminate. cbn in Hv.
    destruct (assert_string (dat !! "number")) as [n| |] eqn:Hn; try discriminate.
    cbn in Hv. injection Hv as <-.
    exists dat, s. by rewrite (assert_string_Ok _ _ Hs).
  - intros dat Hdat Hno. unfold Version_UnmarshalJSON. rewrite Hdat. cbn.
    by rewrite (assert_string_not_string _ Hno).
  - intros t Ht. unfold time_of. by rewrite Ht.
  - intros Hnone. unfold time_of. rewrite Hnone. split; [reflexivity|].
    vm_compute. reflexivity.
Qed.

Lemma publishedAt_is_never_absent_witness :
  (exists dat date_string,
     unmarshal_map_any (JObj [("number", JStr "1.0.0");
                              ("published_at", JStr "2015-03-17T00:00:00.000Z")]) = Ok dat
     /\ dat !! "published_at" = Some (JStr date_string)
     /\ unmarshal_CreatedTime date_string
        = Ok (PublishedAt (mkVersion "1.0.0" (GoTime.Date 2015 3 17 0 0 0 0))))
  /\ time_of ∅ "1.0.0" = GoTime.zeroTime
  /\ CreatedTime_String (time_of ∅ "1.0.0") = "0001-01-01T00:00:00Z".
Proof.
  pose proof (publishedAt_is_never_absent
                (JObj [("number", JStr "1.0.0");
                       ("published_at", JStr "2015-03-17T00:00:00.000Z")])
                ∅ "1.0.0") as (Hbulk & _ & _ & Hstream).
  split.
  - apply Hbulk. vm_compute. reflexivity.
  - apply Hstream. reflexivity.
Defined.

(** ** Runs of the streaming path *)

Lemma ranges_unique {A} (m : gmap string A) (l1 l2 : list (string * A)) :
  size m <= 1 -> ranges m l1 -> ranges m l2 -> l1 = l2.
Proof.
  unfold ranges. intros Hsize H1 H2.
  rewrite <- length_map_to_list in Hsize.
  destruct (map_to_list m) as [|x [|y l]]; cbn in Hsize; [| |lia].
  - apply Permutation_nil_r in H1, H2. congruence.
  - apply Permutation_singleton_r in H1, H2. congruence.
Qed.

Lemma visits_version_listed kv : visits_version kv (listed_version kv).
Proof. repeat split; apply ranges_map_to_list. Qed.

Lemma visits_entry_listed e : visits_entry e (listed_entry e).
Proof.
  repeat split. exists (map_to_list (doc_Versions (entry_Doc e))).
  split; [apply ranges_map_to_list|]. cbn.
  induction (map_to_list (doc_Versions (entry_Doc e))); constructor;
    [apply visits_version_listed|done].
Qed.

(** The streaming ingester runs to the end on every document. *)
Lemma StreamDecode_runs (document : list Entry) : exists out, StreamDecode document out.
Proof.
  eexists. exists (map listed_entry document). split; [|reflexivity].
  induction document; constructor; [apply visits_entry_listed|done].
Qed.

Lemma visits_version_unique kv vv1 vv2 :
  size (vd_Dependencies kv.2) <= 1 -> size (vd_DevDependencies kv.2) <= 1 ->
  visits_version kv vv1 -> visits_version kv vv2 -> vv1 = vv2.
Proof.
  intros Hd Hdd (Hn1 & Hd1 & Hdd1) (Hn2 & Hd2 & Hdd2).
  destruct vv1, vv2; cbn in *.
  f_equal; [congruence|exact (ranges_unique _ _ _ Hd Hd1 Hd2)|exact (ranges_unique _ _ _ Hdd Hdd1 Hdd2)].
Qed.

Lemma visits_entry_unique e ev1 ev2 :
  size (doc_Versions (entry_Doc e)) <= 1 ->
  map_Forall (fun _ vd =>
      size (vd_Dependencies vd) <= 1 /\ size (vd_DevDependencies vd) <= 1)
    (doc_Versions (entry_Doc e)) ->
  visits_entry e ev1 -> visits_entry e ev2 -> ev1 = ev2.
Proof.
  intros Hsize Hall (Hn1 & Ht1 & visit1 & Hr1 & Hv1) (Hn2 & Ht2 & visit2 & Hr2 & Hv2).
  assert (visit2 = visit1) as -> by exact (ranges_unique _ _ _ Hsize Hr2 Hr1).
  destruct ev1 as [n1 vs1 t1], ev2 as [n2 vs2 t2]; cbn in *.
  f_equal; [congruence| |congruence].
  assert (Hin : forall kv, kv ∈ visit1 ->
            size (vd_Dependencies kv.2) <= 1 /\ size (vd_DevDependencies kv.2) <= 1).
  { intros [k vd] Hin. apply (ranges_elem _ _ _ _ Hr1) in Hin. by apply (Hall k vd). }
  clear -Hv1 Hv2 Hin. revert vs2 Hv2.
  induction Hv1 as [|kv vv1 visit vs1 Hkv _ IH]; intros vs2 Hv2; inversion Hv2; subst; [done|].
  f_equal.
  - destruct (Hin kv) as [Hd Hdd]; [by left|]. exact (visits_version_unique _ _ _ Hd Hdd Hkv H1).
  - apply IH; [|done]. intros kv' Hkv'. apply Hin. by right.
Qed.

Lemma ranges_two_deps_ab :
  ranges (<["a" := "1"]> {["b" := "2"]} : gmap string string) [("a", "1"); ("b", "2")].
Proof.
  unfold ranges. rewrite map_to_list_insert by done. by rewrite map_to_list_singleton.
Qed.

Lemma ranges_two_deps_ba :
  ranges (<["a" := "1"]> {["b" := "2"]} : gmap string string) [("b", "2"); ("a", "1")].
Proof. unfold ranges. rewrite <- ranges_two_deps_ab. apply perm_swap. Qed.

(** C6, as stated, fails.  For a document of one package with one
    version that declares the runtime dependencies a and b, one run
    writes them in the order a, b and another in the order b, a: the two
    outputs differ. *)
Lemma StreamDecode_two_outputs :
  StreamDecode two_deps_document
    ("left-pad,1.0.0,0001-01-01T00:00:00Z,[a:1;b:2]" ++ newline)
  /\ StreamDecode two_deps_document
    ("left-pad,1.0.0,0001-01-01T00:00:00Z,[b:2;a:1]" ++ newline)
  /\ "left-pad,1.0.0,0001-01-01T00:00:00Z,[a:1;b:2]" ++ newline
     <> "left-pad,1.0.0,0001-01-01T00:00:00Z,[b:2;a:1]" ++ newline.
Proof.
  split; [|split; [|discriminate]].
  - exists [mkEntryVisit "left-pad" [mkVersionVisit "1.0.0" [("a", "1"); ("b", "2")] []] ∅].
    split; [|vm_compute; reflexivity].
    constructor; [|constructor]. repeat split.
    exists [("1.0.0", mkVersionData "1.0.0" ∅ (<["a" := "1"]> {["b" := "2"]}))].
    split; [unfold ranges; cbn; by rewrite map_to_list_singleton|].
    constructor; [|constructor]. repeat split; cbn.
    + apply ranges_two_deps_ab.
    + unfold ranges. by rewrite map_to_list_empty.
  - exists [mkEntryVisit "left-pad" [mkVersionVisit "1.0.0" [("b", "2"); ("a", "1")] []] ∅].
    split; [|vm_compute; reflexivity].
    constructor; [|constructor]. repeat split.
    exists [("1.0.0", mkVersionData "1.0.0" ∅ (<["a" := "1"]> {["b" := "2"]}))].
    split; [unfold ranges; cbn; by rewrite map_to_list_singleton|].
    constructor; [|constructor]. repeat split; cbn.
    + apply ranges_two_deps_ba.
    + unfold ranges. by rewrite map_to_list_empty.
Qed.

(** C6, amended.  The output of the streaming ingester is fixed by the
    document and by the order in which each map (the versions of a
    package, the runtime and the dev dependencies of a version) is
    visited, which differs from run to run.  Two runs on the same
    document, each into an empty file, leave the same bytes when no map
    they iterate over has two entries or more. *)
Theorem StreamDecode_deterministic_single_order
    (document : list Entry) (out1 out2 : string) :
  single_order document ->
  StreamDecode document out1 -> StreamDecode document out2 -> out1 = out2.
Proof.
  intros Hsingle (evs1 & Hv1 & ->) (evs2 & Hv2 & ->). f_equal. f_equal.
  revert evs2 Hv2.
  induction Hv1 as [|e ev1 document evs1 He _ IH]; intros evs2 Hv2; inversion Hv2; subst; [done|].
  apply Forall_cons in Hsingle as [[Hsize Hall] Hrest]. f_equal.
  - exact (visits_entry_unique _ _ _ Hsize Hall He H1).
  - by apply IH.
Qed.

Lemma StreamDecode_deterministic_single_order_witness :
  let document :=
    [mkEntry (mkDoc "left-pad" {["1.0.0" := mkVersionData "1.0.0" ∅ {["a" := "1"]}]} ∅)] in
  let out := "left-pad,1.0.0,0001-01-01T00:00:00Z,[a:1]" ++ newline in
  single_order document /\ StreamDecode document out /\ out = out.
Proof.
  intros document out.
  assert (Hsingle : single_order document).
  { constructor; [|constructor]. cbn. split.
    - by rewrite map_size_singleton.
    - intros k vd Hk. apply lookup_singleton_Some in Hk as [_ <-]. cbn.
      rewrite map_size_singleton, map_size_empty. lia. }
  assert (Hrun : StreamDecode document out).
  { exists [mkEntryVisit "left-pad" [mkVersionVisit "1.0.0" [("a", "1")] []] ∅].
    split; [|vm_compute; reflexivity].
    constructor; [|constructor]. repeat split.
    exists [("1.0.0", mkVersionData "1.0.0" ∅ {["a" := "1"]})].
    split; [unfold ranges; cbn; by rewrite map_to_list_singleton|].
    constructor; [|constructor]. repeat split; cbn.
    - unfold ranges. by rewrite map_to_list_singleton.
    - unfold ranges. by rewrite map_to_list_empty. }
  split; [exact Hsingle|]. split; [exact Hrun|].
  exact (StreamDecode_deterministic_single_order document out out Hsingle Hrun Hrun).
Defined.

(** ** The version file of the fan-out path *)


Lemma interleaving_sequential {A} (ls : list (list A)) : interleaving ls (concat ls).
Proof.
  induction ls as [|l ls IH]; [by constructor|].
  induction l as [|x l IHl]; cbn.
  - clear -IH. remember (concat ls) as tr eqn:Htr. clear Htr.
    induction IH as [ls Hnil|ls1 ls2 x l tr _ IH'].
    + constructor. by constructor.
    + apply (interleaving_step ([] :: ls1) ls2 x l tr IH').
  - apply (interleaving_step [] ls x l _ IHl).
Qed.

(** [versionPrinter] runs to the end on every input. *)
Lemma versionPrinter_runs (input : list PackageInfo) :
  exists rows, versionPrinter input rows.
Proof. eexists. apply interleaving_sequential. Qed.


Lemma interleaving_elem {A} (ls : list (list A)) (tr : list A) x :
  interleaving ls tr -> x ∈ tr -> exists l, l ∈ ls /\ x ∈ l.
Proof.
  induction 1 as [ls Hnil|ls1 ls2 y l tr _ IH]; [by intros ?%elem_of_nil|].
  intros [Heq|Hin]%elem_of_cons.
  - exists (y :: l). split; [|rewrite Heq; by left]. apply elem_of_app. right. by left.
  - destruct (IH Hin) as (l' & Hl' & Hx). apply elem_of_app in Hl' as [Hl'|Hl'].
    + exists l'. split; [|done]. apply elem_of_app. by left.
    + apply elem_of_cons in Hl' as [->|Hl'].
      * exists (y :: l). split; [|by right]. apply elem_of_app. right. by left.
      * exists l'. split; [|done]. apply elem_of_app. right. by right.
Qed.





(** ** The timestamp codec *)

Section TimestampFacts.
Import GoTime.
Local Open Scope Z_scope.

Ltac zdiv := Z.div_mod_to_equations; lia.
Ltac zquot := Z.quot_rem_to_equations; Z.div_mod_to_equations; lia.

Ltac small_digit n :=
  destruct n as [|p|p]; [reflexivity| |lia];
  do 4 (try destruct p as [p|p|]); solve [reflexivity | lia].

Lemma isDigit_digit (n : Z) : 0 <= n <= 9 -> isDigit (digit n) = true.
Proof. intros H. small_digit n. Qed.

Lemma digitVal_digit (n : Z) : 0 <= n <= 9 -> digitVal (digit n) = n.
Proof. intros H. small_digit n. Qed.

Lemma digitVal_range (c : ascii) : isDigit c = true -> 0 <= digitVal c <= 9.
Proof.
  unfold isDigit, digitVal. intros H. apply andb_true_iff in H as [H1 H2]. lia.
Qed.

Lemma isDigit_not_dquote c : isDigit c = true -> Ascii.eqb c dquote = false.
Proof.
  intros H. destruct (Ascii.eqb_spec c dquote) as [->|]; [discriminate H|done].
Qed.

(** Calendar *)

Lemma norm_id (hi lo base : Z) : 0 <= lo < base -> norm hi lo base = (hi, lo).
Proof.
  intros H. unfold norm.
  destruct (lo <? 0) eqn:E1; [lia|]. destruct (lo >=? base) eqn:E2; [lia|]. reflexivity.
Qed.

Lemma daysSinceEpoch_bounds (year : Z) :
  0 <= year <= 9999 ->
  106751990000000 <= daysSinceEpoch year <= 106751995000000.
Proof.
  intros H. unfold daysSinceEpoch, wrap64, absoluteZeroYear, daysPer400Years,
    daysPer100Years, daysPer4Years. cbv zeta.
  rewrite Z.mod_small by lia. zdiv.
Qed.

Lemma daysBefore_bounds (m : Z) : 0 <= daysBefore m <= 365.
Proof.
  destruct m as [|p|p]; cbn; [lia| |lia].
  do 4 (try destruct p as [p|p|]); cbn; lia.
Qed.

Lemma isLeap_spec (year : Z) :
  0 <= year ->
  isLeap year = true <-> (year mod 4 = 0 /\ (year mod 100 <> 0 \/ year mod 400 = 0)).
Proof.
  intros H. unfold isLeap. rewrite !Z.rem_mod_nonneg by lia.
  rewrite andb_true_iff, orb_true_iff, negb_true_iff, !Z.eqb_eq, Z.eqb_neq. tauto.
Qed.

(** The year and the day of the year of an absolute day count. *)
Lemma absDate_year_day (year yday secs : Z) :
  0 <= year <= 9999 ->
  0 <= yday < 365 + (if isLeap year then 1 else 0) ->
  0 <= secs < secondsPerDay ->
  forall k : Z -> Z -> Z * Z * Z,
  (let d := ((daysSinceEpoch year + yday) * secondsPerDay + secs) / secondsPerDay in
   let n := d / daysPer400Years in
   let y := 400 * n in
   let d := d - daysPer400Years * n in
   let n := d / daysPer100Years in
   let n := n - Z.shiftr n 2 in
   let y := y + 100 * n in
   let d := d - daysPer100Years * n in
   let n := d / daysPer4Years in
   let y := y + 4 * n in
   let d := d - daysPer4Years * n in
   let n := d / 365 in
   let n := n - Z.shiftr n 2 in
   let y := y + n in
   let d := d - 365 * n in
   k (y + absoluteZeroYear) d) = k year yday.
Proof.
  intros Hy Hd Hs k.
  assert (Hleap := isLeap_spec year ltac:(lia)).
  unfold daysSinceEpoch, wrap64, absoluteZeroYear, daysPer400Years,
    daysPer100Years, daysPer4Years, secondsPerDay in *.
  rewrite Z.mod_small by lia.
  rewrite !Z.shiftr_div_pow2 by lia. change (2 ^ 2) with 4.
  set (Y := year - -292277022399).
  assert (HY : Y = year + 292277022399) by (unfold Y; lia).
  assert (HYmod4 : year mod 4 = (Y + 1) mod 4) by (rewrite HY; zdiv).
  assert (HYmod100 : year mod 100 = (Y + 1) mod 100) by (rewrite HY; zdiv).
  assert (HYmod400 : year mod 400 = (Y + 1) mod 400) by (rewrite HY; zdiv).
  rewrite HYmod4, HYmod100, HYmod400 in Hleap.
  assert (HYpos : 0 <= Y) by lia.
  assert (Hyear : year = Y + -292277022399) by lia.
  clearbody Y. clear HY Hy HYmod4 HYmod100 HYmod400.
  set (a := Y / 400). set (r := Y - 400 * a).
  set (b := r / 100). set (r2 := r - 100 * b).
  set (c := r2 / 4). set (e := r2 - 4 * c).
  assert (Hb : 0 <= b <= 3) by (unfold b, r, a; zdiv).
  assert (Hc : 0 <= c <= 24) by (unfold c, r2, b, r, a; zdiv).
  assert (He : 0 <= e <= 3) by (unfold e, c, r2, b, r, a; zdiv).
  assert (HYdec : Y = 400 * a + 100 * b + 4 * c + e) by (unfold e, c, r2, b, r; lia).
  assert (Ha : 0 <= a) by (unfold a; zdiv).
  clearbody a b c e. clear r r2.
  assert (Hyd : 0 <= yday <= 364 \/ (yday = 365 /\ e = 3 /\ (c <> 24 \/ b = 3))).
  { destruct (isLeap year) eqn:El; [|lia].
    destruct (proj1 Hleap eq_refl) as [H4 H100].
    assert (e = 3) by (rewrite HYdec in H4; zdiv).
    assert (c <> 24 \/ b = 3); [|lia].
    destruct H100 as [H100|H400].
    - left. intros ->. apply H100. rewrite HYdec. zdiv.
    - right. rewrite HYdec in H400. zdiv. }
  clear Hleap Hd.
  set (D := ((146097 * a + 36524 * b + 1461 * c + 365 * e + yday) * 86400 + secs) / 86400).
  assert (HD : D = 146097 * a + 36524 * b + 1461 * c + 365 * e + yday) by (unfold D; zdiv).
  cbv zeta.
  replace ((365 * 400 + 97) * a + (365 * 100 + 24) * b + (365 * 4 + 1) * c + 365 * e + yday)
    with (146097 * a + 36524 * b + 1461 * c + 365 * e + yday) by lia.
  fold D. rewrite HD. clear D HD.
  change (365 * 400 + 97) with 146097. change (365 * 100 + 24) with 36524.
  change (365 * 4 + 1) with 1461.
  set (R := 146097 * a + 36524 * b + 1461 * c + 365 * e + yday).
  assert (H1 : R / 146097 = a) by (unfold R; zdiv).
  rewrite H1.
  set (d1 := R - 146097 * a).
  assert (Hd1 : d1 = 36524 * b + 1461 * c + 365 * e + yday) by (unfold d1, R; lia).
  clearbody d1. clear R H1.
  set (n2 := d1 / 36524).
  assert (H2 : n2 - n2 / 4 = b) by (unfold n2; zdiv).
  rewrite H2.
  set (d2 := d1 - 36524 * b).
  assert (Hd2 : d2 = 1461 * c + 365 * e + yday) by (unfold d2; lia).
  clearbody d2. clear n2 H2.
  assert (H3 : d2 / 1461 = c) by zdiv.
  rewrite H3.
  set (d3 := d2 - 1461 * c).
  assert (Hd3 : d3 = 365 * e + yday) by (unfold d3; lia).
  clearbody d3.
  set (n4 := d3 / 365).
  assert (H4 : n4 - n4 / 4 = e) by (unfold n4; zdiv).
  rewrite H4.
  f_equal; lia.
Qed.

Ltac is_pos_lit p :=
  lazymatch p with
  | xH => idtac
  | xO ?q => is_pos_lit q
  | xI ?q => is_pos_lit q
  end.

Ltac is_Z_lit z :=
  lazymatch z with
  | Z0 => idtac
  | Zpos ?p => is_pos_lit p
  | Zneg ?p => is_pos_lit p
  end.

Ltac eval_daysBefore :=
  repeat match goal with
  | |- context [daysBefore ?x] =>
      let v := eval cbv in x in
      is_Z_lit v;
      let w := eval cbv in (daysBefore v) in
      progress change (daysBefore x) with w
  | H : context [daysBefore ?x] |- _ =>
      let v := eval cbv in x in
      is_Z_lit v;
      let w := eval cbv in (daysBefore v) in
      progress change (daysBefore x) with w in H
  end.

Ltac month_cases month :=
  let Hcases := fresh "Hcases" in
  assert (month = 1 \/ month = 2 \/ month = 3 \/ month = 4 \/ month = 5 \/ month = 6
          \/ month = 7 \/ month = 8 \/ month = 9 \/ month = 10 \/ month = 11
          \/ month = 12) as Hcases by lia;
  repeat (destruct Hcases as [->|Hcases]); try subst month.

Lemma triple_eq {A B C} (a a' : A) (b b' : B) (c c' : C) :
  a = a' -> b = b' -> c = c' -> (a, b, c) = (a', b', c').
Proof. congruence. Qed.

Lemma after_feb_spec (year month day : Z) :
  1 <= month <= 12 ->
  1 <= day <= daysBefore month - daysBefore (month - 1) ->
  let yday := daysBefore (month - 1) + (day - 1) in
  (let m := yday / 31 in
   let end_ := daysBefore (m + 1) in
   let '(m, begin) :=
     if yday >=? end_ then (m + 1, end_) else (m, daysBefore m) in
   (year, m + 1, yday - begin + 1)) = (year, month, day).
Proof.
  intros Hm Hd yday. cbv zeta. unfold yday. clear yday.
  month_cases month; eval_daysBefore;
    match goal with |- context [?y / 31] =>
      let Hq := fresh "Hq" in
      assert (y / 31 = 0 \/ y / 31 = 1 \/ y / 31 = 2 \/ y / 31 = 3 \/ y / 31 = 4
              \/ y / 31 = 5 \/ y / 31 = 6 \/ y / 31 = 7 \/ y / 31 = 8 \/ y / 31 = 9
              \/ y / 31 = 10 \/ y / 31 = 11) as Hq by zdiv;
      repeat (destruct Hq as [Hq|Hq]); try (exfalso; zdiv); rewrite Hq;
      eval_daysBefore;
      match goal with |- context [?a >=? ?b] => destruct (Z.geb_spec a b) end;
      first [ exfalso; zdiv | apply triple_eq; lia ]
    end.
Qed.

Lemma yearDay_bounds (year month day : Z) :
  1 <= month <= 12 -> 1 <= day <= daysIn month year ->
  0 <= yearDay year month day < 365 + (if isLeap year then 1 else 0).
Proof.
  intros Hm Hd. unfold yearDay, leap_adjust, daysIn in *.
  destruct (isLeap year); month_cases month; cbn [andb Z.eqb Pos.eqb Z.geb Z.compare Pos.compare Pos.compare_cont] in *;
    eval_daysBefore; lia.
Qed.

Lemma month_day_spec (year month day : Z) :
  1 <= month <= 12 -> 1 <= day <= daysIn month year ->
  month_day year (yearDay year month day) = (year, month, day).
Proof.
  intros Hm Hd. unfold month_day, yearDay, leap_adjust, daysIn in *. cbv zeta.
  destruct (isLeap year).
  - destruct (Z.eq_dec month 1) as [->|H1]; [|destruct (Z.eq_dec month 2) as [->|H2]].
    + cbn [andb Z.eqb Pos.eqb Z.geb Z.compare Pos.compare Pos.compare_cont] in *.
      eval_daysBefore.
      destruct (Z.gtb_spec (0 + 0 + (day - 1)) (31 + 29 - 1)); [lia|].
      destruct (Z.eqb_spec (0 + 0 + (day - 1)) (31 + 29 - 1)); [lia|].
      replace (0 + 0 + (day - 1)) with (daysBefore (1 - 1) + (day - 1)) by (eval_daysBefore; lia).
      apply (after_feb_spec year 1 day); eval_daysBefore; lia.
    + cbn [andb Z.eqb Pos.eqb Z.geb Z.compare Pos.compare Pos.compare_cont] in *.
      eval_daysBefore.
      destruct (Z.gtb_spec (31 + 0 + (day - 1)) (31 + 29 - 1)); [lia|].
      destruct (Z.eqb_spec (31 + 0 + (day - 1)) (31 + 29 - 1)).
      * apply triple_eq; lia.
      * replace (31 + 0 + (day - 1)) with (daysBefore (2 - 1) + (day - 1))
          by (eval_daysBefore; lia).
        apply (after_feb_spec year 2 day); eval_daysBefore; lia.
    + assert (Hge : (month >=? 3) = true) by lia. rewrite Hge.
      assert (Hne : (month =? 2) = false) by lia. rewrite Hne in Hd.
      cbn [andb] in *.
      assert (59 <= daysBefore (month - 1)) by (month_cases month; eval_daysBefore; lia).
      destruct (Z.gtb_spec (daysBefore (month - 1) + 1 + (day - 1)) (31 + 29 - 1)); [|lia].
      replace (daysBefore (month - 1) + 1 + (day - 1) - 1)
        with (daysBefore (month - 1) + (day - 1)) by lia.
      by apply (after_feb_spec year month day).
  - rewrite andb_false_r in Hd. cbn [andb].
    replace (daysBefore (month - 1) + 0 + (day - 1))
      with (daysBefore (month - 1) + (day - 1)) by lia.
    by apply (after_feb_spec year month day).
Qed.

Lemma absDate_unfold (a : Z) :
  absDate a =
  (let d := a / secondsPerDay in
   let n := d / daysPer400Years in
   let y := 400 * n in
   let d := d - daysPer400Years * n in
   let n := d / daysPer100Years in
   let n := n - Z.shiftr n 2 in
   let y := y + 100 * n in
   let d := d - daysPer100Years * n in
   let n := d / daysPer4Years in
   let y := y + 4 * n in
   let d := d - daysPer4Years * n in
   let n := d / 365 in
   let n := n - Z.shiftr n 2 in
   let y := y + n in
   let d := d - 365 * n in
   month_day (y + absoluteZeroYear) d).
Proof. reflexivity. Qed.

Lemma absDate_absOf (year month day hour min sec : Z) :
  0 <= year <= 9999 -> 1 <= month <= 12 -> 1 <= day <= daysIn month year ->
  0 <= hour <= 23 -> 0 <= min <= 59 -> 0 <= sec <= 59 ->
  absDate (absOf year month day hour min sec) = (year, month, day).
Proof.
  intros Hy Hm Hd Hh Hmi Hs.
  rewrite absDate_unfold. unfold absOf.
  etransitivity; [|by apply month_day_spec].
  apply (absDate_year_day year (yearDay year month day)
           (hour * secondsPerHour + min * secondsPerMinute + sec) Hy).
  - by apply yearDay_bounds.
  - unfold secondsPerHour, secondsPerMinute, secondsPerDay. lia.
Qed.

Lemma absClock_absOf (year month day hour min sec : Z) :
  0 <= year <= 9999 -> 1 <= month <= 12 -> 1 <= day <= daysIn month year ->
  0 <= hour <= 23 -> 0 <= min <= 59 -> 0 <= sec <= 59 ->
  absClock (absOf year month day hour min sec) = (hour, min, sec).
Proof.
  intros Hy Hm Hd Hh Hmi Hs. unfold absClock, absOf. cbv zeta.
  pose proof (daysSinceEpoch_bounds year Hy).
  pose proof (yearDay_bounds year month day Hm Hd).
  unfold secondsPerHour, secondsPerMinute, secondsPerDay.
  set (D := daysSinceEpoch year + yearDay year month day).
  assert (HD : 0 <= D) by (unfold D; destruct (isLeap year); lia). clearbody D.
  assert (E : (D * 86400 + (hour * 3600 + min * 60 + sec)) mod 86400
              = hour * 3600 + min * 60 + sec) by zdiv.
  rewrite E. apply triple_eq; zdiv.
Qed.

Lemma absOf_bounds (year month day hour min sec : Z) :
  0 <= year <= 9999 -> 1 <= month <= 12 -> 1 <= day <= daysIn month year ->
  0 <= hour <= 23 -> 0 <= min <= 59 -> 0 <= sec <= 59 ->
  0 <= absOf year month day hour min sec < 2 ^ 64.
Proof.
  intros Hy Hm Hd Hh Hmi Hs. unfold absOf.
  pose proof (daysSinceEpoch_bounds year Hy).
  pose proof (yearDay_bounds year month day Hm Hd).
  unfold secondsPerHour, secondsPerMinute, secondsPerDay.
  change (2 ^ 64) with 18446744073709551616.
  destruct (isLeap year); lia.
Qed.

Lemma Date_spec (year month day hour min sec nsec : Z) :
  0 <= year <= 9999 -> 1 <= month <= 12 -> 1 <= day <= daysIn month year ->
  0 <= hour <= 23 -> 0 <= min <= 59 -> 0 <= sec <= 59 -> 0 <= nsec < 1000000000 ->
  Date year month day hour min sec nsec
  = mkTime (absOf year month day hour min sec + absoluteToInternal) nsec 0.
Proof.
  intros Hy Hm Hd Hh Hmi Hs Hn. unfold Date.
  rewrite (norm_id year (month - 1) 12) by lia.
  rewrite (norm_id sec nsec 1000000000) by lia.
  rewrite (norm_id min sec 60) by lia.
  rewrite (norm_id hour min 60) by lia.
  rewrite (norm_id day hour 24) by lia.
  cbv zeta. replace (month - 1 + 1) with month by lia.
  pose proof (absOf_bounds year month day hour min sec Hy Hm Hd Hh Hmi Hs) as Hb.
  unfold absOf, yearDay, leap_adjust in *.
  f_equal. f_equal. unfold wrap64.
  destruct (isLeap year && (month >=? 3)).
  - rewrite Z.mod_small; lia.
  - rewrite Z.mod_small; lia.
Qed.

Lemma Format_in_zone (year month day hour min sec nsec offset : Z) :
  0 <= year <= 9999 -> 1 <= month <= 12 -> 1 <= day <= daysIn month year ->
  0 <= hour <= 23 -> 0 <= min <= 59 -> 0 <= sec <= 59 -> 0 <= nsec < 1000000000 ->
  Format (in_zone (Date year month day hour min sec nsec) offset)
  = layout year month day hour min sec nsec offset.
Proof.
  intros Hy Hm Hd Hh Hmi Hs Hn. rewrite Date_spec by done.
  unfold Format, in_zone, abs. cbn [t_sec t_nsec t_offset].
  replace (absOf year month day hour min sec + absoluteToInternal - offset + offset
           + internalToAbsolute)
    with (absOf year month day hour min sec) by (unfold internalToAbsolute; lia).
  unfold wrap64. rewrite Z.mod_small by (by apply absOf_bounds).
  cbv zeta. rewrite absDate_absOf, absClock_absOf by done. reflexivity.
Qed.

(** Digits *)

Lemma appendInt_2 (n : Z) :
  0 <= n <= 99 ->
  appendInt n 2 = String (digit (n / 10)) (String (digit (n mod 10)) "").
Proof.
  intros H. unfold appendInt. rewrite Z.abs_eq by lia.
  destruct (n <? 0) eqn:E; [lia|]. destruct (n <? 100) eqn:E2; [|lia]. reflexivity.
Qed.

Lemma appendInt_4 (n : Z) :
  0 <= n <= 9999 ->
  appendInt n 4 = String (digit (n / 100 / 10)) (String (digit (n / 100 mod 10))
                  (String (digit (n mod 100 / 10)) (String (digit (n mod 100 mod 10)) ""))).
Proof.
  intros H. unfold appendInt. rewrite Z.abs_eq by lia.
  destruct (n <? 0) eqn:E; [lia|]. destruct (n <? 10000) eqn:E2; [|lia]. reflexivity.
Qed.

Lemma append_cons (c : ascii) (s r : string) : String c s ++ r = String c (s ++ r).
Proof. reflexivity. Qed.

Lemma append_nil (r : string) : "" ++ r = r.
Proof. reflexivity. Qed.

Ltac norm_append := rewrite ?append_cons, ?append_nil.

Lemma getnum_appendInt (n : Z) (rest : string) (fixed : bool) :
  0 <= n <= 99 -> getnum (appendInt n 2 ++ rest) fixed = Ok (n, rest).
Proof.
  intros H. rewrite appendInt_2 by done. norm_append. cbn [getnum].
  rewrite !isDigit_digit, !digitVal_digit by zdiv.
  do 2 f_equal. zdiv.
Qed.

Lemma getyear_appendInt (n : Z) (rest : string) :
  0 <= n <= 9999 -> getyear (appendInt n 4 ++ rest) = Ok (n, rest).
Proof.
  intros H. rewrite appendInt_4 by done. norm_append. cbn [getyear].
  rewrite !isDigit_digit, !digitVal_digit by zdiv. cbn [andb].
  do 2 f_equal. zdiv.
Qed.

Lemma getnum_range (s rest : string) (fixed : bool) (n : Z) :
  getnum s fixed = Ok (n, rest) -> 0 <= n <= 99.
Proof.
  unfold getnum. destruct s as [|c0 [|c1 s]]; try discriminate.
  - destruct (isDigit c0) eqn:E0; [|discriminate]. destruct fixed; [discriminate|].
    intros [= <- <-]. pose proof (digitVal_range _ E0). lia.
  - destruct (isDigit c0) eqn:E0; [|discriminate].
    destruct (isDigit c1) eqn:E1.
    + intros [= <- <-]. pose proof (digitVal_range _ E0). pose proof (digitVal_range _ E1). lia.
    + destruct fixed; [discriminate|]. intros [= <- <-].
      pose proof (digitVal_range _ E0). lia.
Qed.

Lemma getnum_fixed (s rest : string) (n : Z) :
  getnum s true = Ok (n, rest) -> forall fixed, getnum s fixed = Ok (n, rest).
Proof.
  unfold getnum. destruct s as [|c0 [|c1 s]]; try discriminate.
  - by destruct (isDigit c0).
  - destruct (isDigit c0); [|done]. by destruct (isDigit c1).
Qed.

Lemma getyear_range (s rest : string) (n : Z) :
  getyear s = Ok (n, rest) -> 0 <= n <= 9999.
Proof.
  unfold getyear. destruct s as [|c0 [|c1 [|c2 [|c3 s]]]]; try discriminate.
  destruct (isDigit c0) eqn:E0; [|discriminate].
  destruct (isDigit c1) eqn:E1; [|discriminate].
  destruct (isDigit c2) eqn:E2; [|discriminate].
  destruct (isDigit c3) eqn:E3; [|discriminate].
  intros [= <- <-].
  pose proof (digitVal_range _ E0). pose proof (digitVal_range _ E1).
  pose proof (digitVal_range _ E2). pose proof (digitVal_range _ E3). lia.
Qed.

Lemma getnum_digits (a b : Z) (rest : string) (fixed : bool) :
  0 <= a <= 9 -> 0 <= b <= 9 ->
  getnum (String (digit a) (String (digit b) rest)) fixed = Ok (a * 10 + b, rest).
Proof.
  intros Ha Hb. cbn [getnum]. by rewrite !isDigit_digit, !digitVal_digit.
Qed.

(** Fractions of a second *)

Lemma atoi_snoc (l : list Z) (d : Z) :
  atoi_digits (l ++ [d]) = atoi_digits l * 10 + d.
Proof. unfold atoi_digits. by rewrite fold_left_app. Qed.

Lemma atoi_cons (d : Z) (l : list Z) :
  atoi_digits (d :: l) = d * 10 ^ Z.of_nat (length l) + atoi_digits l.
Proof.
  induction l as [|x l IH] using rev_ind.
  - cbn. lia.
  - rewrite app_comm_cons, !atoi_snoc, IH, length_app. cbn [length].
    replace (Z.of_nat (length l + 1)) with (Z.of_nat (length l) + 1) by lia.
    rewrite Z.pow_add_r by lia. lia.
Qed.

Lemma atoi_bounds (l : list Z) :
  digits_ok l -> 0 <= atoi_digits l < 10 ^ Z.of_nat (length l).
Proof.
  induction 1 as [|d l Hd _ IH].
  - cbn. lia.
  - rewrite atoi_cons. cbn [length].
    replace (Z.of_nat (S (length l))) with (Z.of_nat (length l) + 1) by lia.
    rewrite Z.pow_add_r by lia. nia.
Qed.

Lemma nano_digits_length (n : nat) (u : Z) (acc : list Z) :
  length (nano_digits n u acc) = (n + length acc)%nat.
Proof.
  revert u acc. induction n as [|n IH]; intros u acc; cbn; [done|].
  rewrite IH. cbn. lia.
Qed.

Lemma nano_digits_ok (n : nat) (u : Z) (acc : list Z) :
  digits_ok acc -> digits_ok (nano_digits n u acc).
Proof.
  revert u acc. induction n as [|n IH]; intros u acc Hacc; cbn; [done|].
  apply IH. constructor; [zdiv|done].
Qed.

Lemma nano_digits_value (n : nat) (u : Z) (acc : list Z) :
  0 <= u ->
  atoi_digits (nano_digits n u acc)
  = (u mod 10 ^ Z.of_nat n) * 10 ^ Z.of_nat (length acc) + atoi_digits acc.
Proof.
  revert u acc. induction n as [|n IH]; intros u acc Hu.
  - cbn [nano_digits]. change (10 ^ Z.of_nat 0) with 1. rewrite Z.mod_1_r. lia.
  - cbn [nano_digits]. rewrite IH by zdiv. rewrite atoi_cons. cbn [length].
    replace (Z.of_nat (S n)) with (1 + Z.of_nat n) by lia.
    replace (Z.of_nat (S (length acc))) with (Z.of_nat (length acc) + 1) by lia.
    rewrite !Z.pow_add_r by lia. change (10 ^ 1) with 10.
    rewrite (Z.rem_mul_r u 10 (10 ^ Z.of_nat n)) by lia. lia.
Qed.

Lemma trim_zeros_length (l : list Z) : (length (trim_zeros l) <= length l)%nat.
Proof.
  induction l as [|d l IH]; cbn; [done|].
  destruct (trim_zeros l) as [|x r]; [destruct (d =? 0); cbn; lia|cbn in *; lia].
Qed.

Lemma trim_zeros_ok (l : list Z) : digits_ok l -> digits_ok (trim_zeros l).
Proof.
  induction 1 as [|d l Hd _ IH]; cbn; [constructor|].
  destruct (trim_zeros l) as [|x r].
  - destruct (d =? 0); [constructor|]. by constructor.
  - by constructor.
Qed.

Lemma trim_zeros_value (l : list Z) :
  atoi_digits (trim_zeros l)
  * 10 ^ (Z.of_nat (length l) - Z.of_nat (length (trim_zeros l)))
  = atoi_digits l.
Proof.
  induction l as [|d l IH]; [reflexivity|].
  pose proof (trim_zeros_length l) as Hlen.
  cbn [trim_zeros]. destruct (trim_zeros l) as [|x r] eqn:E.
  - cbn [length atoi_digits fold_left] in IH.
    destruct (Z.eqb_spec d 0) as [->|Hd].
    + rewrite atoi_cons. cbn [atoi_digits fold_left]. lia.
    + rewrite (atoi_cons d l). change (atoi_digits [d]) with (0 * 10 + d). cbn [length].
      replace (Z.of_nat (S (length l)) - Z.of_nat 1) with (Z.of_nat (length l)) by lia. lia.
  - rewrite (atoi_cons d l), (atoi_cons d (x :: r)). rewrite <- IH.
    cbn [length] in *.
    replace (Z.of_nat (S (length l)) - Z.of_nat (S (S (length r))))
      with (Z.of_nat (length l) - Z.of_nat (S (length r))) by lia.
    rewrite Z.mul_add_distr_r. f_equal.
    rewrite <- Z.mul_assoc, <- Z.pow_add_r by lia. do 2 f_equal. lia.
Qed.

Lemma span_digits_string (ds : list Z) (z : string) :
  digits_ok ds -> no_digit_head z ->
  span_digits (digits_string ds ++ z) = (ds, z).
Proof.
  intros Hds Hz. induction Hds as [|d ds Hd _ IH].
  - cbn [digits_string]. norm_append. destruct z as [|c z]; [done|].
    cbn in *. by rewrite Hz.
  - cbn [digits_string]. norm_append. cbn [span_digits].
    by rewrite isDigit_digit, IH, digitVal_digit.
Qed.

Lemma span_digits_ok (s rest : string) (ds : list Z) :
  span_digits s = (ds, rest) -> digits_ok ds.
Proof.
  revert ds rest. induction s as [|c s IH]; intros ds rest; cbn.
  - intros [= <- <-]. constructor.
  - destruct (isDigit c) eqn:E.
    + destruct (span_digits s) as [ds' r]. intros [= <- <-].
      constructor; [by apply digitVal_range|by eapply IH].
    + intros [= <- <-]. constructor.
Qed.

Lemma getfrac_range (s rest : string) (ns : Z) :
  getfrac s = (ns, rest) -> 0 <= ns < 1000000000.
Proof.
  unfold getfrac. destruct s as [|c0 [|c1 s]]; try (intros [= <- <-]; lia).
  destruct (commaOrPeriod c0 && isDigit c1); [|intros [= <- <-]; lia].
  destruct (span_digits (String c1 s)) as [ds r] eqn:E. intros [= <- <-].
  apply span_digits_ok in E.
  assert (Hok : digits_ok (firstn 9 ds)) by (by apply Forall_take).
  pose proof (atoi_bounds _ Hok) as Hb.
  assert (Hlen : (length (firstn 9 ds) <= 9)%nat) by (rewrite length_take; lia).
  set (l := firstn 9 ds) in *. clearbody l.
  set (k := Z.of_nat (length l)) in *.
  assert (Hk : 0 <= k <= 9) by lia. clearbody k.
  assert (E10 : 10 ^ k * 10 ^ (9 - k) = 1000000000).
  { rewrite <- Z.pow_add_r by lia. replace (k + (9 - k)) with 9 by lia. reflexivity. }
  assert (0 < 10 ^ (9 - k)) by (apply Z.pow_pos_nonneg; lia).
  nia.
Qed.

Lemma getfrac_formatNano9 (ns : Z) (z : string) :
  0 <= ns < 1000000000 -> zone_head z ->
  getfrac (formatNano9 ns ++ z) = (ns, z).
Proof.
  intros Hns (c & rest & -> & Hc & Hcp). unfold formatNano9.
  pose proof (nano_digits_value 9 ns [] ltac:(lia)) as Hval.
  pose proof (nano_digits_length 9 ns []) as Hlen.
  pose proof (nano_digits_ok 9 ns [] ltac:(constructor)) as Hok.
  change (10 ^ Z.of_nat 9) with 1000000000 in Hval.
  rewrite Z.mod_small in Hval by lia. cbn [length atoi_digits fold_left] in Hval, Hlen.
  change (10 ^ Z.of_nat 0) with 1 in Hval.
  set (ds9 := nano_digits 9 ns []) in *. clearbody ds9.
  pose proof (trim_zeros_value ds9) as Htrim.
  pose proof (trim_zeros_length ds9) as Htlen.
  pose proof (trim_zeros_ok ds9 Hok) as Htok.
  destruct (trim_zeros ds9) as [|d ds].
  - norm_append. cbn [atoi_digits fold_left] in Htrim.
    assert (ns = 0) as -> by lia.
    unfold getfrac. destruct rest; [done|]. by rewrite Hcp.
  - norm_append. cbn [digits_string]. norm_append.
    cbv beta iota delta [getfrac].
    inversion Htok as [|? ? Hd Hds]; subst.
    change (commaOrPeriod ".") with true. rewrite isDigit_digit by done. cbn [andb].
    change (String (digit d) (digits_string ds ++ String c rest))
      with (digits_string (d :: ds) ++ String c rest).
    rewrite span_digits_string by done.
    rewrite firstn_all2 by lia. f_equal.
    rewrite Hlen in Htrim.
    replace (Z.of_nat (9 + 0)) with 9 in Htrim by lia.
    rewrite Htrim. lia.
Qed.

Lemma formatZone_head (offset : Z) : zone_ok offset -> zone_head (formatZone offset).
Proof.
  intros [_ Hb]. unfold formatZone, zone_head.
  destruct (offset =? 0); [by exists "Z"%char, ""|].
  destruct (Z.quot offset 60 <? 0); norm_append; eexists _, _; repeat split.
Qed.

Lemma getzone_formatZone (offset : Z) :
  zone_ok offset -> getzone (formatZone offset) = Ok (offset, "").
Proof.
  intros [Hrem Hb]. unfold formatZone.
  destruct (Z.eqb_spec offset 0) as [->|Hne]; [reflexivity|].
  destruct (Z.ltb_spec (Z.quot offset 60) 0) as [Hneg|Hpos].
  - set (zone := - Z.quot offset 60).
    assert (Hz : 0 < zone < 1440) by (unfold zone; zquot).
    rewrite !appendInt_2 by zquot. norm_append. cbn [getzone Ascii.eqb Bool.eqb negb].
    rewrite !getnum_digits by zquot. cbn [mbind outcome_bind].
    destruct (Z.gtb_spec (Z.quot zone 60 / 10 * 10 + Z.quot zone 60 mod 10) 24); [zquot|].
    destruct (Z.gtb_spec (Z.rem zone 60 / 10 * 10 + Z.rem zone 60 mod 10) 60); [zquot|].
    f_equal. f_equal. unfold zone in *. zquot.
  - set (zone := Z.quot offset 60).
    assert (Hz : 0 < zone < 1440) by (unfold zone; zquot).
    rewrite !appendInt_2 by zquot. norm_append. cbn [getzone Ascii.eqb Bool.eqb negb].
    rewrite !getnum_digits by zquot. cbn [mbind outcome_bind].
    destruct (Z.gtb_spec (Z.quot zone 60 / 10 * 10 + Z.quot zone 60 mod 10) 24); [zquot|].
    destruct (Z.gtb_spec (Z.rem zone 60 / 10 * 10 + Z.rem zone 60 mod 10) 60); [zquot|].
    f_equal. f_equal. unfold zone in *. zquot.
Qed.

Lemma daysIn_bounds (month year : Z) :
  1 <= month <= 12 -> 28 <= daysIn month year <= 31.
Proof.
  intros Hm. unfold daysIn.
  destruct ((month =? 2) && isLeap year); [lia|].
  month_cases month; eval_daysBefore; lia.
Qed.

Lemma skip_cons (c : ascii) (rest : string) : skip (String c rest) c = Ok rest.
Proof. cbn. by rewrite Ascii.eqb_refl. Qed.

Lemma Format_fields (year month day hour min sec nsec offset : Z) :
  fields_ok year month day hour min sec nsec ->
  Format (in_zone (Date year month day hour min sec nsec) offset)
  = layout year month day hour min sec nsec offset.
Proof. intros (? & ? & ? & ? & ? & ? & ?). by apply Format_in_zone. Qed.

Lemma Parse_layout (year month day hour min sec nsec offset : Z) :
  fields_ok year month day hour min sec nsec -> zone_ok offset ->
  Parse (layout year month day hour min sec nsec offset)
  = Ok (in_zone (Date year month day hour min sec nsec) offset).
Proof.
  intros (Hy & Hm & Hd & Hh & Hmi & Hs & Hn) Hz. unfold Parse, layout.
  rewrite getyear_appendInt by done. cbn [mbind outcome_bind]. norm_append.
  rewrite skip_cons. cbn [mbind outcome_bind].
  rewrite getnum_appendInt by lia. cbn [mbind outcome_bind].
  replace ((month <=? 0) || (12 <? month)) with false by lia.
  norm_append. rewrite skip_cons. cbn [mbind outcome_bind].
  assert (Hd99 : 0 <= day <= 99) by (pose proof (daysIn_bounds month year Hm); lia).
  rewrite getnum_appendInt by done. cbn [mbind outcome_bind].
  norm_append. rewrite skip_cons. cbn [mbind outcome_bind].
  rewrite getnum_appendInt by lia. cbn [mbind outcome_bind].
  replace ((hour <? 0) || (24 <=? hour)) with false by lia.
  norm_append. rewrite skip_cons. cbn [mbind outcome_bind].
  rewrite getnum_appendInt by lia. cbn [mbind outcome_bind].
  replace ((min <? 0) || (60 <=? min)) with false by lia.
  norm_append. rewrite skip_cons. cbn [mbind outcome_bind].
  rewrite getnum_appendInt by lia. cbn [mbind outcome_bind].
  replace ((sec <? 0) || (60 <=? sec)) with false by lia.
  rewrite getfrac_formatNano9 by (done || by apply formatZone_head).
  rewrite getzone_formatZone by done. cbn [mbind outcome_bind].
  change (0 <? len "") with false. cbv iota.
  replace ((day <? 1) || (daysIn month year <? day)) with false by lia.
  reflexivity.
Qed.

(** Inversion of the scanners *)

Lemma getnum_true_inv (s rest : string) (n : Z) :
  getnum s true = Ok (n, rest) ->
  exists c0 c1, s = String c0 (String c1 rest)
    /\ isDigit c0 = true /\ isDigit c1 = true /\ n = digitVal c0 * 10 + digitVal c1.
Proof.
  unfold getnum. destruct s as [|c0 [|c1 s]]; try discriminate.
  - by destruct (isDigit c0).
  - destruct (isDigit c0) eqn:E0; [|discriminate].
    destruct (isDigit c1) eqn:E1; [|discriminate].
    intros [= <- <-]. by exists c0, c1.
Qed.

Lemma skip_inv (s rest : string) (c : ascii) : skip s c = Ok rest -> s = String c rest.
Proof.
  destruct s as [|a s]; cbn; [discriminate|].
  destruct (Ascii.eqb_spec a c) as [->|]; [|discriminate]. by intros [= ->].
Qed.

Lemma isDigit_plain (c : ascii) :
  isDigit c = true ->
  Ascii.eqb c "Z" = false /\ Ascii.eqb c "z" = false /\ Ascii.eqb c "+" = false
  /\ Ascii.eqb c "-" = false /\ Ascii.eqb c "." = false /\ Ascii.eqb c "," = false
  /\ Ascii.eqb c dquote = false.
Proof.
  intros H. repeat split;
    match goal with |- Ascii.eqb c ?x = false =>
      destruct (Ascii.eqb_spec c x) as [->|]; [discriminate H|reflexivity] end.
Qed.

Lemma time_offset_inv (go : bool) (r r' : string) (oh om : Z) :
  RFC3339.time_offset go r = Ok (oh, om, r') ->
  (exists c, r = String c r' /\ oh = 0 /\ om = 0
             /\ (c = "Z"%char \/ (go = false /\ c = "z"%char)))
  \/ (exists sign h0 h1 m0 m1,
        r = String sign (String h0 (String h1 (String ":" (String m0 (String m1 r')))))
        /\ (sign = "+"%char \/ sign = "-"%char)
        /\ isDigit h0 = true /\ isDigit h1 = true /\ isDigit m0 = true /\ isDigit m1 = true
        /\ oh = digitVal h0 * 10 + digitVal h1 /\ om = digitVal m0 * 10 + digitVal m1).
Proof.
  unfold RFC3339.time_offset. destruct r as [|c rest]; [discriminate|].
  destruct (Ascii.eqb_spec c "Z") as [->|HZ].
  - cbn [orb]. intros [= <- <- <-]. left. exists "Z"%char. auto.
  - cbn [orb]. destruct go; cbn [negb andb].
    + destruct (Ascii.eqb c "+" || Ascii.eqb c "-") eqn:Es; [|discriminate].
      destruct (getnum rest true) as [[h s1]| |] eqn:Eh; try discriminate.
      cbn [mbind outcome_bind].
      destruct (skip s1 ":") as [s2| |] eqn:Ec; try discriminate. cbn [mbind outcome_bind].
      destruct (getnum s2 true) as [[m s3]| |] eqn:Em; try discriminate.
      cbn [mbind outcome_bind]. intros [= <- <- <-]. right.
      apply getnum_true_inv in Eh as (h0 & h1 & -> & ? & ? & ->).
      apply getnum_true_inv in Em as (m0 & m1 & -> & ? & ? & ->).
      apply skip_inv in Ec as ->.
      exists c, h0, h1, m0, m1. repeat split; try done.
      apply orb_true_iff in Es as [E|E]; apply Ascii.eqb_eq in E; auto.
    + destruct (Ascii.eqb c "z") eqn:Ez.
      * apply Ascii.eqb_eq in Ez as ->.
        intros [= <- <- <-]. left. exists "z"%char. repeat split; try done. by right.
      * destruct (Ascii.eqb c "+" || Ascii.eqb c "-") eqn:Es; [|discriminate].
        destruct (getnum rest true) as [[h s1]| |] eqn:Eh; try discriminate.
        cbn [mbind outcome_bind].
        destruct (skip s1 ":") as [s2| |] eqn:Ec; try discriminate. cbn [mbind outcome_bind].
        destruct (getnum s2 true) as [[m s3]| |] eqn:Em; try discriminate.
        cbn [mbind outcome_bind]. intros [= <- <- <-]. right.
        apply getnum_true_inv in Eh as (h0 & h1 & -> & ? & ? & ->).
        apply getnum_true_inv in Em as (m0 & m1 & -> & ? & ? & ->).
        apply skip_inv in Ec as ->.
        exists c, h0, h1, m0, m1. repeat split; try done.
        apply orb_true_iff in Es as [E|E]; apply Ascii.eqb_eq in E; auto.
Qed.

Lemma time_offset_getzone (go : bool) (r r' : string) (oh om : Z) :
  RFC3339.time_offset go r = Ok (oh, om, r') -> oh <= 23 -> om <= 59 ->
  zone_ok (zone_of go r oh om)
  /\ ((exists rest, r = String "z" rest) \/ getzone r = Ok (zone_of go r oh om, r')).
Proof.
  intros H Hoh Hom. apply time_offset_inv in H as [(c & -> & -> & -> & Hc)|H].
  - destruct Hc as [->|[_ ->]]; cbn.
    + split; [by split|]. by right.
    + split; [by split|]. left. by eexists.
  - destruct H as (sign & h0 & h1 & m0 & m1 & -> & Hsign & Eh0 & Eh1 & Em0 & Em1 & -> & ->).
    pose proof (digitVal_range _ Eh0). pose proof (digitVal_range _ Eh1).
    pose proof (digitVal_range _ Em0). pose proof (digitVal_range _ Em1).
    split.
    + unfold zone_of, zone_ok. destruct (Ascii.eqb sign "-"); zquot.
    + right. unfold getzone, zone_of.
      destruct Hsign as [-> | ->]; cbn [Ascii.eqb Bool.eqb negb andb];
        cbn [getnum]; rewrite Eh0, Eh1, Em0, Em1; cbn [mbind outcome_bind];
        (destruct (Z.gtb_spec (digitVal h0 * 10 + digitVal h1) 24); [lia|]);
        (destruct (Z.gtb_spec (digitVal m0 * 10 + digitVal m1) 60); [lia|]);
        reflexivity.
Qed.

Lemma secfrac_getfrac (go : bool) (v r : string) (x : Z * Z * string) :
  RFC3339.secfrac v = Ok r -> RFC3339.time_offset go r = Ok x ->
  exists ns, getfrac v = (ns, r).
Proof.
  unfold RFC3339.secfrac. destruct v as [|c0 v1].
  - intros [= <-]. discriminate.
  - destruct (Ascii.eqb_spec c0 ".") as [->|Hc0].
    + destruct (span_digits v1) as [ds r0] eqn:Es.
      destruct ds as [|d ds]; [discriminate|]. intros [= <-] _.
      destruct v1 as [|c1 v2]; [cbn in Es; discriminate|].
      cbn [span_digits] in Es. destruct (isDigit c1) eqn:E1; [|discriminate].
      cbv beta iota delta [getfrac]. change (commaOrPeriod ".") with true.
      rewrite E1. cbn [andb]. cbn [span_digits]. rewrite E1.
      destruct (span_digits v2) as [ds' r']. injection Es as <- <- <-.
      eexists. reflexivity.
    + intros [= <-] Hoff. destruct x as [[oh om] r'].
      assert (Hcp : commaOrPeriod c0 = false).
      { unfold commaOrPeriod.
        apply time_offset_inv in Hoff as [(c & [= -> ->] & _ & _ & Hc)|H].
        - by destruct Hc as [->|[_ ->]].
        - destruct H as (sign & ? & ? & ? & ? & [= -> ->] & [-> | ->] & _); done. }
      cbv beta iota delta [getfrac]. rewrite Hcp. cbn [andb].
      destruct v1; eexists; reflexivity.
Qed.

Lemma getzone_sign (c : ascii) (rest : string) (x : Z * string) :
  getzone (String c rest) = Ok x -> c = "Z"%char \/ c = "+"%char \/ c = "-"%char.
Proof.
  unfold getzone. destruct (Ascii.eqb_spec c "Z") as [->|_]; [by left|].
  destruct rest as [|h0 [|h1 [|colon [|m0 [|m1 rest]]]]]; try discriminate.
  destruct (negb (Ascii.eqb colon ":")); [discriminate|].
  destruct (getnum (String h0 (String h1 "")) true) as [[hr ?]| |]; try discriminate.
  cbn [mbind outcome_bind].
  destruct (getnum (String m0 (String m1 "")) true) as [[mm ?]| |]; try discriminate.
  cbn [mbind outcome_bind].
  destruct (hr >? 24); [discriminate|]. destruct (mm >? 60); [discriminate|].
  destruct (Ascii.eqb_spec c "+") as [->|_]; [auto|].
  destruct (Ascii.eqb_spec c "-") as [->|_]; [auto|]. discriminate.
Qed.

(** Quotes around a timestamp *)

Lemma consumes_trans (s r q : string) : consumes s r -> consumes r q -> consumes s q.
Proof. induction 1; [done|]. intros. constructor. auto. Qed.

Lemma last_not_consumes (c : ascii) (s r : string) :
  consumes s r -> last_not c r -> last_not c s.
Proof.
  induction 1 as [|a s r Hc IH]; [done|]. intros Hr. specialize (IH Hr).
  cbn. destruct s; [by destruct IH|done].
Qed.

Lemma last_not_append (c : ascii) (s r : string) : last_not c r -> last_not c (s ++ r).
Proof.
  intros Hr. apply (last_not_consumes c _ r); [|done].
  induction s; norm_append; by constructor.
Qed.

Lemma last_not_cons (c a : ascii) (r : string) : last_not c r -> last_not c (String a r).
Proof. intros Hr. cbn. destruct r; [by destruct Hr|done]. Qed.

Lemma trim_right_last_not (c : ascii) (s : string) : last_not c s -> trim_right c s = s.
Proof.
  induction s as [|a s IH]; [done|]. cbn [last_not trim_right].
  destruct s as [|b s].
  - intros ->. reflexivity.
  - intros H. rewrite (IH H). reflexivity.
Qed.

Lemma trim_right_snoc (c : ascii) (s : string) :
  trim_right c (s ++ String c "") = trim_right c s.
Proof.
  induction s as [|a s IH]; norm_append.
  - cbn. by rewrite Ascii.eqb_refl.
  - cbn [trim_right]. by rewrite IH.
Qed.

Lemma Trim_quoted (c0 : ascii) (s : string) :
  Ascii.eqb c0 dquote = false -> last_not dquote (String c0 s) ->
  strings_Trim (quoted (String c0 s)) dquote = String c0 s.
Proof.
  intros Hc0 Hlast. unfold strings_Trim, quoted. norm_append.
  cbn [trim_left]. rewrite Ascii.eqb_refl. rewrite Hc0.
  change (String c0 (s ++ String dquote "")) with (String c0 s ++ String dquote "").
  rewrite trim_right_snoc. by apply trim_right_last_not.
Qed.

Lemma getnum_consumes (s rest : string) (fixed : bool) (n : Z) :
  getnum s fixed = Ok (n, rest) -> consumes s rest.
Proof.
  unfold getnum. destruct s as [|c0 [|c1 s]]; try discriminate.
  - destruct (isDigit c0); [|discriminate]. destruct fixed; [discriminate|].
    intros [= <- <-]. repeat constructor.
  - destruct (isDigit c0); [|discriminate].
    destruct (isDigit c1).
    + intros [= <- <-]. repeat constructor.
    + destruct fixed; [discriminate|]. intros [= <- <-]. repeat constructor.
Qed.

Lemma skip_consumes (s rest : string) (c : ascii) : skip s c = Ok rest -> consumes s rest.
Proof. intros ->%skip_inv. repeat constructor. Qed.

Lemma skip_T_consumes (go : bool) (s rest : string) :
  RFC3339.skip_T go s = Ok rest -> consumes s rest.
Proof.
  unfold RFC3339.skip_T. destruct s as [|c s]; [discriminate|].
  destruct (_ || _); [|discriminate]. intros [= <-]. repeat constructor.
Qed.

Lemma getyear_inv (s rest : string) (n : Z) :
  getyear s = Ok (n, rest) ->
  exists c0 s', s = String c0 s' /\ isDigit c0 = true /\ consumes s rest.
Proof.
  unfold getyear. destruct s as [|c0 [|c1 [|c2 [|c3 s]]]]; try discriminate.
  destruct (isDigit c0) eqn:E0; [|discriminate]. cbn [andb].
  destruct (isDigit c1); [|discriminate]. cbn [andb].
  destruct (isDigit c2); [|discriminate]. cbn [andb].
  destruct (isDigit c3); [|discriminate].
  intros [= <- <-]. eexists _, _. repeat split; [done|]. repeat constructor.
Qed.

Lemma span_digits_consumes (s rest : string) (ds : list Z) :
  span_digits s = (ds, rest) -> consumes s rest.
Proof.
  revert ds. induction s as [|c s IH]; intros ds; cbn.
  - intros [= <- <-]. constructor.
  - destruct (isDigit c).
    + destruct (span_digits s) as [ds' r]. intros [= <- <-]. constructor. by eapply IH.
    + intros [= <- <-]. constructor.
Qed.

Lemma secfrac_consumes (s rest : string) : RFC3339.secfrac s = Ok rest -> consumes s rest.
Proof.
  unfold RFC3339.secfrac. destruct s as [|c s]; [intros [= <-]; constructor|].
  destruct (Ascii.eqb c "."); [|intros [= <-]; constructor].
  destruct (span_digits s) as [[|d ds] r] eqn:E; [discriminate|].
  intros [= <-]. constructor. by eapply span_digits_consumes.
Qed.

Lemma time_offset_last (go : bool) (r : string) (oh om : Z) :
  RFC3339.time_offset go r = Ok (oh, om, "") -> last_not dquote r.
Proof.
  intros [(c & -> & _ & _ & Hc)|H]%time_offset_inv.
  - by destruct Hc as [->|[_ ->]].
  - destruct H as (sign & h0 & h1 & m0 & m1 & -> & _ & _ & _ & _ & Em1 & _).
    cbn. by apply isDigit_plain in Em1 as (_ & _ & _ & _ & _ & _ & ?).
Qed.

Lemma formatZone_last (offset : Z) : zone_ok offset -> last_not dquote (formatZone offset).
Proof.
  intros [Hrem Hb]. unfold formatZone.
  destruct (offset =? 0); [done|].
  destruct (Z.ltb_spec (Z.quot offset 60) 0); rewrite !appendInt_2 by zquot;
    norm_append; cbn; apply isDigit_not_dquote, isDigit_digit; zquot.
Qed.

Lemma Trim_layout (year month day hour min sec nsec offset : Z) :
  0 <= year <= 9999 -> zone_ok offset ->
  strings_Trim (quoted (layout year month day hour min sec nsec offset)) dquote
  = layout year month day hour min sec nsec offset.
Proof.
  intros Hy Hz. unfold layout. rewrite appendInt_4 by done. norm_append.
  apply Trim_quoted.
  - apply isDigit_not_dquote, isDigit_digit. zdiv.
  - do 5 apply last_not_cons.
    do 4 (apply last_not_append, last_not_cons).
    do 2 apply last_not_append. by apply formatZone_last.
Qed.

Ltac parse_step :=
  match goal with
  | H : ?x = Ok _ |- context [mbind _ ?x] => rewrite H; cbn [mbind outcome_bind]
  | H : getnum ?s true = Ok _ |- context [getnum ?s false] =>
      rewrite (getnum_fixed _ _ _ H false); cbn [mbind outcome_bind]
  | H : getfrac ?v = _ |- context [getfrac ?v] => rewrite H
  | |- context [if ?b then Err _ else _] =>
      replace b with false by lia; cbv iota
  | |- context [if ?b then Err _ else _] =>
      replace b with true by lia; cbv iota
  end.

(** What the decoder makes of an RFC 3339 date-time: the quotes around
    it are trimmed off exactly, and either [time.Parse] rejects it
    (lower-case [t] or [z], second 60) or it yields the time of its
    fields, in the zone of its offset. *)
Lemma Parse_rfc (go : bool) (s : string) :
  RFC3339.date_time go s = Ok tt ->
  strings_Trim (quoted s) dquote = s
  /\ ((go = false /\ forall t, Parse s <> Ok t)
      \/ exists year month day hour min sec nsec offset,
           fields_ok year month day hour min sec nsec /\ zone_ok offset
           /\ Parse s = Ok (in_zone (Date year month day hour min sec nsec) offset)).
Proof.
  intros H. unfold RFC3339.date_time in H.
  destruct (getyear s) as [[year s1]| |] eqn:E1; try discriminate;
    cbn [mbind outcome_bind] in H.
  destruct (skip s1 "-") as [s2| |] eqn:E2; try discriminate;
    cbn [mbind outcome_bind] in H.
  destruct (getnum s2 true) as [[month s3]| |] eqn:E3; try discriminate;
    cbn [mbind outcome_bind] in H.
  destruct (skip s3 "-") as [s4| |] eqn:E4; try discriminate;
    cbn [mbind outcome_bind] in H.
  destruct (getnum s4 true) as [[day s5]| |] eqn:E5; try discriminate;
    cbn [mbind outcome_bind] in H.
  destruct (RFC3339.skip_T go s5) as [s6| |] eqn:E6; try discriminate;
    cbn [mbind outcome_bind] in H.
  destruct (getnum s6 true) as [[hour s7]| |] eqn:E7; try discriminate;
    cbn [mbind outcome_bind] in H.
  destruct (skip s7 ":") as [s8| |] eqn:E8; try discriminate;
    cbn [mbind outcome_bind] in H.
  destruct (getnum s8 true) as [[min s9]| |] eqn:E9; try discriminate;
    cbn [mbind outcome_bind] in H.
  destruct (skip s9 ":") as [s10| |] eqn:E10; try discriminate;
    cbn [mbind outcome_bind] in H.
  destruct (getnum s10 true) as [[sec s11]| |] eqn:E11; try discriminate;
    cbn [mbind outcome_bind] in H.
  destruct (RFC3339.secfrac s11) as [s12| |] eqn:E12; try discriminate;
    cbn [mbind outcome_bind] in H.
  destruct (RFC3339.time_offset go s12) as [[[oh om] s13]| |] eqn:E13; try discriminate;
    cbn [mbind outcome_bind] in H.
  match type of H with (if ?b then _ else _) = _ => destruct b eqn:Ec; [|discriminate] end.
  clear H.
  repeat (apply andb_true_iff in Ec as [Ec ?]).
  repeat match goal with H : (_ <=? _) = true |- _ => apply Z.leb_le in H end.
  assert (Hsec : sec <= 60 /\ (go = true -> sec <= 59)) by (destruct go; split; (lia || done)).
  assert (s13 = "") as ->.
  { destruct s13 as [|c13 s13]; [done|]. exfalso. unfold len in H.
    apply Z.eqb_eq in H.
    change (String.length (String c13 s13)) with (S (String.length s13)) in H. lia. }
  pose proof (getyear_range _ _ _ E1) as Hyear.
  pose proof (getnum_range _ _ _ _ E3). pose proof (getnum_range _ _ _ _ E5).
  pose proof (getnum_range _ _ _ _ E7). pose proof (getnum_range _ _ _ _ E9).
  pose proof (getnum_range _ _ _ _ E11).
  destruct (secfrac_getfrac go s11 s12 _ E12 E13) as [nsec Ef].
  pose proof (getfrac_range _ _ _ Ef) as Hnsec.
  destruct (time_offset_getzone go s12 "" oh om E13 ltac:(lia) ltac:(lia)) as [Hzok Hz].
  split.
  { destruct (getyear_inv _ _ _ E1) as (c0 & s' & -> & Hc0 & Hcons).
    apply Trim_quoted; [by apply isDigit_not_dquote|].
    apply (last_not_consumes _ _ s12); [|by eapply time_offset_last].
    eapply consumes_trans; [exact Hcons|].
    eapply consumes_trans; [exact (skip_consumes _ _ _ E2)|].
    eapply consumes_trans; [exact (getnum_consumes _ _ _ _ E3)|].
    eapply consumes_trans; [exact (skip_consumes _ _ _ E4)|].
    eapply consumes_trans; [exact (getnum_consumes _ _ _ _ E5)|].
    eapply consumes_trans; [exact (skip_T_consumes _ _ _ E6)|].
    eapply consumes_trans; [exact (getnum_consumes _ _ _ _ E7)|].
    eapply consumes_trans; [exact (skip_consumes _ _ _ E8)|].
    eapply consumes_trans; [exact (getnum_consumes _ _ _ _ E9)|].
    eapply consumes_trans; [exact (skip_consumes _ _ _ E10)|].
    eapply consumes_trans; [exact (getnum_consumes _ _ _ _ E11)|].
    exact (secfrac_consumes _ _ E12). }
  assert (HT : (go = false /\ exists rest, s5 = String "t" rest) \/ skip s5 "T" = Ok s6).
  { unfold RFC3339.skip_T in E6. destruct s5 as [|c s5']; [discriminate|].
    destruct (Ascii.eqb_spec c "T") as [->|HT].
    - right. cbn in *. congruence.
    - cbn [orb] in E6. destruct go; [discriminate|]. cbn [negb andb] in E6.
      destruct (Ascii.eqb_spec c "t") as [->|]; [|discriminate]. left. eauto. }
  destruct HT as [[-> [rest ->]]|ET].
  { left. split; [done|]. intros t. unfold Parse. repeat parse_step.
    cbn [skip Ascii.eqb Bool.eqb mbind outcome_bind]. intros HP. discriminate HP. }
  destruct (Z.eq_dec sec 60) as [->|Hsec60].
  { left. split; [destruct go; [lia|done]|].
    intros t. unfold Parse. repeat parse_step. intros HP. discriminate HP. }
  destruct Hz as [[rest ->]|Hz].
  { left. unfold RFC3339.time_offset in E13. cbn [Ascii.eqb Bool.eqb orb] in E13.
    split; [destruct go; [cbn in E13; discriminate E13|done]|].
    intros t. unfold Parse. repeat parse_step.
    cbv iota beta.
    intros HP.
    destruct (getzone (String "z" rest)) as [x| |] eqn:Ez;
      cbn [mbind outcome_bind] in HP; try discriminate HP.
    by destruct (getzone_sign _ _ _ Ez) as [?|[?|?]]. }
  right. exists year, month, day, hour, min, sec, nsec, (zone_of go s12 oh om).
  split; [|split; [done|]].
  { unfold fields_ok. lia. }
  unfold Parse. repeat parse_step. reflexivity.
Qed.

Lemma time_offset_go (r : string) (x : Z * string) :
  getzone r = Ok x -> RFC3339.time_offset true r = RFC3339.time_offset false r.
Proof.
  destruct r as [|c rest]; [done|]. intros Hz.
  by destruct (getzone_sign _ _ _ Hz) as [->|[->| ->]].
Qed.

(** An RFC 3339 date-time that [time.Parse] accepts is written with
    upper-case [T] and [Z] and its second is not 60. *)
Lemma Parse_accepts_go (s : string) (t : Time) :
  RFC3339.date_time false s = Ok tt -> Parse s = Ok t ->
  RFC3339.date_time true s = Ok tt.
Proof.
  intros H HP. unfold RFC3339.date_time in H |- *. unfold Parse in HP.
  destruct (getyear s) as [[year s1]| |] eqn:E1; try discriminate;
    cbn [mbind outcome_bind] in H, HP |- *.
  destruct (skip s1 "-") as [s2| |] eqn:E2; try discriminate;
    cbn [mbind outcome_bind] in H, HP |- *.
  destruct (getnum s2 true) as [[month s3]| |] eqn:E3; try discriminate;
    cbn [mbind outcome_bind] in H, HP |- *.
  destruct ((month <=? 0) || (12 <? month)); [discriminate HP|].
  destruct (skip s3 "-") as [s4| |] eqn:E4; try discriminate;
    cbn [mbind outcome_bind] in H, HP |- *.
  destruct (getnum s4 true) as [[day s5]| |] eqn:E5; try discriminate;
    cbn [mbind outcome_bind] in H, HP |- *.
  destruct (skip s5 "T") as [s6| |] eqn:E6; try discriminate HP;
    cbn [mbind outcome_bind] in HP.
  apply skip_inv in E6 as ->.
  change (RFC3339.skip_T false (String "T" s6)) with (Ok s6) in H.
  change (RFC3339.skip_T true (String "T" s6)) with (Ok s6).
  cbn [mbind outcome_bind] in H |- *.
  destruct (getnum s6 true) as [[hour s7]| |] eqn:E7; try discriminate;
    cbn [mbind outcome_bind] in H |- *.
  rewrite (getnum_fixed _ _ _ E7 false) in HP. cbn [mbind outcome_bind] in HP.
  destruct ((hour <? 0) || (24 <=? hour)); [discriminate HP|].
  destruct (skip s7 ":") as [s8| |] eqn:E8; try discriminate;
    cbn [mbind outcome_bind] in H, HP |- *.
  destruct (getnum s8 true) as [[min s9]| |] eqn:E9; try discriminate;
    cbn [mbind outcome_bind] in H, HP |- *.
  destruct ((min <? 0) || (60 <=? min)); [discriminate HP|].
  destruct (skip s9 ":") as [s10| |] eqn:E10; try discriminate;
    cbn [mbind outcome_bind] in H, HP |- *.
  destruct (getnum s10 true) as [[sec s11]| |] eqn:E11; try discriminate;
    cbn [mbind outcome_bind] in H, HP |- *.
  destruct ((sec <? 0) || (60 <=? sec)) eqn:Hsec; [discriminate HP|].
  destruct (RFC3339.secfrac s11) as [s12| |] eqn:E12; try discriminate;
    cbn [mbind outcome_bind] in H |- *.
  destruct (RFC3339.time_offset false s12) as [[[oh om] s13]| |] eqn:E13; try discriminate;
    cbn [mbind outcome_bind] in H.
  destruct (secfrac_getfrac false s11 s12 _ E12 E13) as [nsec Ef]. rewrite Ef in HP.
  destruct (getzone s12) as [x| |] eqn:Ez; try discriminate HP.
  rewrite (time_offset_go _ _ Ez), E13. cbn [mbind outcome_bind].
  match type of H with (if ?b then _ else _) = _ => destruct b eqn:Ec; [|discriminate] end.
  repeat (apply andb_true_iff in Ec as [Ec ?]).
  repeat match goal with Hle : (_ <=? _) = true |- _ => apply Z.leb_le in Hle end.
  apply orb_false_iff in Hsec as [_ Hsec]. apply Z.leb_gt in Hsec.
  repeat match goal with
         | |- context [?a <=? ?b] => replace (a <=? b) with true by lia
         end.
  match goal with Hlen : (len _ =? 0) = true |- _ => rewrite Hlen end.
  reflexivity.
Qed.

(** C5, as stated, fails.  The date-time 1990-12-31T23:59:60Z, an example
    of RFC 3339 itself, and a date-time written with the lower-case [t]
    and [z] the RFC allows are valid, with or without a fraction, and
    the codec rejects them: there is no point in time to encode again. *)
Lemma timestamp_leap_second_rejected :
  (RFC3339.rfc3339 "1990-12-31T23:59:60Z" = true
   /\ CreatedTime_UnmarshalJSON (quoted "1990-12-31T23:59:60Z") = Err "second out of range")
  /\ (RFC3339.rfc3339 "1990-12-31T23:59:60.5Z" = true
      /\ CreatedTime_UnmarshalJSON (quoted "1990-12-31T23:59:60.5Z")
         = Err "second out of range")
  /\ (RFC3339.rfc3339 "2015-03-17t00:00:00.000z" = true
      /\ CreatedTime_UnmarshalJSON (quoted "2015-03-17t00:00:00.000z") = Err errBad).
Proof. vm_compute. repeat split. Qed.

(** C5, amended.  Of the RFC 3339 date-times, with or without a fraction
    of a second, the codec decodes exactly those written with upper-case
    [T] and [Z] whose second is not the leap second 60.  For each of
    them the round trip is lossless: when the codec decodes the JSON
    string holding [s] to a time [t], encoding [t] with [String] (the
    layout [RFC3339Nano]) and decoding the result gives [t] again, the
    same second, nanosecond and zone offset. *)
Theorem timestamp_round_trip (s : string) :
  RFC3339.rfc3339 s = true ->
  (forall t, CreatedTime_UnmarshalJSON (quoted s) = Ok t ->
     CreatedTime_UnmarshalJSON (quoted (CreatedTime_String t)) = Ok t)
  /\ (RFC3339.rfc3339_go s = true ->
      exists t, CreatedTime_UnmarshalJSON (quoted s) = Ok t)
  /\ (forall t, CreatedTime_UnmarshalJSON (quoted s) = Ok t ->
        RFC3339.rfc3339_go s = true).
Proof.
  intros H. unfold RFC3339.rfc3339 in H.
  destruct (RFC3339.date_time false s) as [[]| |] eqn:E; try discriminate.
  destruct (Parse_rfc false s E) as [Htrim Hcases]. split; [|split].
  - intros t Ht. unfold CreatedTime_UnmarshalJSON in Ht. rewrite Htrim in Ht.
    destruct Hcases as [[_ Hno]|Hfields]; [by destruct (Hno t)|].
    destruct Hfields as (year & month & day & hour & min & sec & nsec & offset
                         & Hf & Hz & HP).
    rewrite HP in Ht. injection Ht as <-.
    unfold CreatedTime_String, CreatedTime_UnmarshalJSON.
    rewrite Format_fields by done.
    rewrite Trim_layout by (done || apply Hf). by apply Parse_layout.
  - intros Hgo. unfold RFC3339.rfc3339_go in Hgo.
    destruct (RFC3339.date_time true s) as [[]| |] eqn:Eg; try discriminate.
    destruct (Parse_rfc true s Eg) as [_ [[? _]|Hfields]]; [discriminate|].
    destruct Hfields as (year & month & day & hour & min & sec & nsec & offset
                         & _ & _ & HP).
    eexists. unfold CreatedTime_UnmarshalJSON. rewrite Htrim. exact HP.
  - intros t Ht. unfold CreatedTime_UnmarshalJSON in Ht. rewrite Htrim in Ht.
    unfold RFC3339.rfc3339_go. by rewrite (Parse_accepts_go s t E Ht).
Qed.

Lemma timestamp_round_trip_witness :
  CreatedTime_UnmarshalJSON
    (quoted (CreatedTime_String
       (in_zone (Date 2015 3 17 23 59 58 123456789) 19800)))
  = Ok (in_zone (Date 2015 3 17 23 59 58 123456789) 19800).
Proof.
  apply (proj1 (timestamp_round_trip "2015-03-17T23:59:58.123456789+05:30"
                  ltac:(vm_compute; reflexivity))).
  vm_compute. reflexivity.
Defined.

End TimestampFacts.

(** * Further properties *)

(** ** The extractors *)

Lemma tooLong_false (a b : string) :
  tooLong a b = false <-> (len a <= 10000)%Z /\ (len b <= 10000)%Z.
Proof.
  unfold tooLong, limit. rewrite orb_false_iff.
  split.
  - intros [Ha Hb]. lia.
  - intros [Ha Hb]. split; lia.
Qed.

(** X1. The size guard of the streaming path, in bytes: a run of the
    extractor over two maps outputs exactly the entries whose name and
    range are both at most 10,000 bytes long, and so as many elements
    as there are entries when no name and no range is longer. *)
Theorem stream_size_guard (deps devDeps : gmap string string) (out : list Dependency) :
  stream_extracts deps devDeps out ->
  (forall k v, mkDependency k v ∈ out <->
     (deps !! k = Some v \/ devDeps !! k = Some v)
     /\ (len k <= 10000)%Z /\ (len v <= 10000)%Z)
  /\ ((forall k v, deps !! k = Some v \/ devDeps !! k = Some v ->
         (len k <= 10000)%Z /\ (len v <= 10000)%Z) ->
      length out = size deps + size devDeps).
Proof.
  intros Hrun. destruct (stream_extracts_spec deps devDeps out Hrun) as [Hlen Hin].
  split.
  - intros k v. rewrite Hin, tooLong_false. reflexivity.
  - intros Hshort. apply Hlen. intros k v Hkv. apply tooLong_false. by apply Hshort.
Qed.

Lemma stream_size_guard_witness :
  stream_extracts {["left-pad" := "^1.3.0"]} ∅ [mkDependency "left-pad" "^1.3.0"]
  /\ length [mkDependency "left-pad" "^1.3.0"]
     = size ({["left-pad" := "^1.3.0"]} : gmap string string) + size (∅ : gmap string string).
Proof.
  assert (H : stream_extracts {["left-pad" := "^1.3.0"]} ∅ [mkDependency "left-pad" "^1.3.0"]).
  { exists [("left-pad", "^1.3.0")], []. split; [|split; [|reflexivity]].
    - unfold ranges. by rewrite map_to_list_singleton.
    - unfold ranges. by rewrite map_to_list_empty. }
  split; [exact H|].
  apply (proj2 (stream_size_guard _ _ _ H)).
  intros k v [Hk|Hk].
  - apply lookup_singleton_Some in Hk as [<- <-]. by vm_compute.
  - by rewrite lookup_empty in Hk.
Defined.

(** X2. The streaming extractor keeps the order of the visit: its output
    is the runtime dependencies followed by the dev dependencies, each
    in the order its map was visited, name and range unchanged, without
    the oversized entries. *)
Theorem stream_extract_in_order (visit visitDev : list (string * string)) :
  stream_extract visit visitDev
  = map (fun kv => mkDependency kv.1 kv.2)
        (List.filter (fun kv => negb (tooLong kv.1 kv.2)) (visit ++ visitDev)).
Proof.
  rewrite stream_extract_keep. unfold stream_keep.
  by rewrite List.filter_app, map_app.
Qed.

Lemma fold_live_append_outcome (visit : list (string * json)) (acc : list Dependency) :
  (exists all, foldM_outcome live_append visit acc = Ok all)
  \/ foldM_outcome live_append visit acc = Panic not_string_msg.
Proof.
  revert acc. induction visit as [|[k v] visit IH]; intros acc; cbn; [by eauto|].
  destruct v; cbn; try (by right). apply IH.
Qed.

Lemma forallb_exists_false {A} (f : A -> bool) (l : list A) :
  forallb f l = false -> exists x, In x l /\ f x = false.
Proof.
  induction l as [|a l IH]; cbn; [done|].
  destruct (f a) eqn:Ha; cbn.
  - intros H. destruct (IH H) as (x & Hx & Hfx). exists x. split; [by right|done].
  - intros _. exists a. split; [by left|done].
Qed.

Lemma live_extract_strings (visit visitDev : list (string * json)) :
  Forall (fun kv => is_JStr kv.2 = true) (visit ++ visitDev) ->
  live_extract visit visitDev = Ok (live_keep (visit ++ visitDev)).
Proof.
  intros [Hv Hd]%Forall_app. unfold live_extract.
  rewrite (fold_live_append_strings visit) by done. cbn.
  rewrite (fold_live_append_strings visitDev) by done.
  unfold live_keep. by rewrite map_app.
Qed.

Lemma live_extract_not_strings (visit visitDev : list (string * json)) :
  Exists (fun kv => is_JStr kv.2 = false) (visit ++ visitDev) ->
  live_extract visit visitDev = Panic not_string_msg.
Proof.
  intros [Hv|Hd]%Exists_app; unfold live_extract.
  - by rewrite (fold_live_append_panics visit).
  - destruct (fold_live_append_outcome visit []) as [[all ->]| ->]; [|done].
    cbn. by apply fold_live_append_panics.
Qed.

(** X3. The live extractor has two outcomes.  On maps whose ranges are
    all JSON strings it returns every entry: the runtime dependencies
    followed by the dev dependencies, each in the order its map was
    visited, name and range unchanged, whatever their length.  When some
    range is not a string it panics; it never returns a part of the
    entries and never an error. *)
Theorem live_extract_in_order (visit visitDev : list (string * json)) :
  live_extract visit visitDev
  = if forallb (fun kv => is_JStr kv.2) (visit ++ visitDev)
    then Ok (map (fun kv => mkDependency kv.1 (str_of kv.2)) (visit ++ visitDev))
    else Panic not_string_msg.
Proof.
  destruct (forallb _ _) eqn:Hall.
  - apply live_extract_strings. apply Forall_forall. intros kv Hkv.
    rewrite forallb_forall in Hall. by apply Hall, list_elem_of_In.
  - apply live_extract_not_strings. apply Exists_exists.
    destruct (forallb_exists_false _ _ Hall) as (kv & Hkv & Hns).
    exists kv. split; [by apply list_elem_of_In|done].
Qed.

(** ** The dependency field of a row *)

Lemma string_app_assoc (a b c : string) : (a ++ b) ++ c = a ++ (b ++ c).
Proof. induction a as [|x a IH]; [done|]. rewrite !append_cons. by rewrite IH. Qed.

Lemma string_app_nil_r (a : string) : a ++ "" = a.
Proof. induction a as [|x a IH]; [done|]. rewrite append_cons. by rewrite IH. Qed.

Lemma join_deps_concat (deps : list Dependency) :
  join_deps deps = String.concat ";" (map Dependency_String deps).
Proof.
  induction deps as [|d [|d' deps] IH]; [done|done|].
  change (join_deps (d :: d' :: deps))
    with (Dependency_String d ++ ";" ++ join_deps (d' :: deps)).
  rewrite IH. reflexivity.
Qed.

Lemma depsString_fold (l : Z) (deps : list Dependency) (acc : string) (i : Z) :
  l = (i + Z.of_nat (length deps))%Z ->
  (fold_left (depsString_step l) deps (acc, i)).1 = acc ++ join_deps deps.
Proof.
  revert acc i. induction deps as [|d deps IH]; intros acc i Hl.
  - cbn. by rewrite string_app_nil_r.
  - cbn [fold_left depsString_step]. destruct deps as [|d' deps].
    + cbn [length] in Hl. destruct (Z.ltb_spec i (l - 1)); [lia|]. reflexivity.
    + cbn [length] in Hl. destruct (Z.ltb_spec i (l - 1)); [|lia].
      rewrite IH by (cbn [length]; lia).
      change (join_deps (d :: d' :: deps))
        with (Dependency_String d ++ ";" ++ join_deps (d' :: deps)).
      by rewrite !string_app_assoc.
Qed.

(** X4. The loop of [writeOneToFile] joins the dependencies with [;]:
    the text [name:range] of each dependency, in order, a semicolon
    between two of them and none at the end; the fourth field of the
    record is that text between brackets. *)
Theorem depsString_is_join (input : VersionDependencies) :
  depsString_loop (vdep_Dependencies input)
  = String.concat ";" (map Dependency_String (vdep_Dependencies input))
  /\ csv_record input
     = [vdep_Name input; vdep_Version input; GoTime.Format (VersionCreated input);
        "[" ++ depsString_loop (vdep_Dependencies input) ++ "]"].
Proof.
  assert (H : depsString_loop (vdep_Dependencies input)
              = join_deps (vdep_Dependencies input)).
  { unfold depsString_loop. rewrite depsString_fold by lia. reflexivity. }
  split.
  - by rewrite H, join_deps_concat.
  - unfold csv_record. by rewrite H.
Qed.

(** ** Runs of the live path *)

Section LiveRuns.
Variable fetch : Z -> Z -> string -> outcome Response.
Variable order : Z -> Z -> bool -> gmap string json -> list (string * json).

(** What one iteration does to the state: a request, and then either
    nothing more (the version is skipped or the run ends), or one record
    pushed and written, with a flush when the index is a multiple of 10. *)
Lemma process_version_cases name packageIdx verIdx version st :
  let url := registry_url name (Number version) in
  (exists stop, process_version fetch order name packageIdx verIdx version st
                = (emit (EvFetch url) st, stop))
  \/ (exists all,
        let vd := mkVersionDependencies name (Number version) (PublishedAt version) all in
        let st1 := emit (EvWrite (csv_record vd)) (push_result vd (emit (EvFetch url) st)) in
        process_version fetch order name packageIdx verIdx version st
        = (if (Z.rem verIdx 10 =? 0)%Z then emit EvFlush st1 else st1, None)).
Proof.
  intros url. unfold process_version. fold url.
  destruct (fetch packageIdx verIdx url) as [response|msg|msg]; [|left; eauto..].
  destruct (unmarshal_VersionInfo (resp_body response)) as [parsed|msg|msg];
    [|left; destruct (StatusCode response =? 404)%Z; eauto|left; eauto].
  destruct (live_extract _ _) as [all|msg|msg]; [|left; eauto..].
  right. by exists all.
Qed.

Lemma writes_of_app (tr1 tr2 : list event) :
  writes_of (tr1 ++ tr2) = (writes_of tr1 ++ writes_of tr2)%list.
Proof. apply omap_app. Qed.

Lemma fetches_of_app (tr1 tr2 : list event) :
  fetches_of (tr1 ++ tr2) = (fetches_of tr1 ++ fetches_of tr2)%list.
Proof. apply omap_app. Qed.

Lemma process_version_written name packageIdx verIdx version st :
  results_written st ->
  results_written (process_version fetch order name packageIdx verIdx version st).1.
Proof.
  unfold results_written. intros Hst.
  destruct (process_version_cases name packageIdx verIdx version st) as [[stop ->]|[all ->]];
    cbv zeta.
  - cbn. rewrite writes_of_app, Hst. cbn. by rewrite app_nil_r.
  - destruct (Z.rem verIdx 10 =? 0)%Z; cbn;
      rewrite !writes_of_app, !map_app, Hst; cbn; by rewrite ?app_nil_r.
Qed.

Lemma process_versions_written name packageIdx versions :
  forall verIdx st,
    results_written st ->
    results_written (process_versions fetch order name packageIdx verIdx versions st).1.
Proof.
  induction versions as [|version versions IH]; intros verIdx st Hst; [done|].
  cbn [process_versions].
  pose proof (process_version_written name packageIdx verIdx version st Hst) as H1.
  destruct (process_version fetch order name packageIdx verIdx version st) as [st1 [msg|]];
    [done|]. by apply IH.
Qed.

Lemma process_packages_written input :
  forall packageIdx st,
    results_written st ->
    results_written (process_packages fetch order packageIdx input st).1.
Proof.
  induction input as [|p input IH]; intros packageIdx st Hst; [done|].
  cbn [process_packages].
  pose proof (process_versions_written (pkg_Name p) packageIdx (pkg_Versions p) 0 st Hst) as H1.
  destruct (process_versions fetch order (pkg_Name p) packageIdx 0 (pkg_Versions p) st)
    as [st1 [msg|]]; [done|].
  apply IH. unfold results_written in *. cbn in *.
  rewrite writes_of_app, H1. cbn. by rewrite app_nil_r.
Qed.

(** X5. The slice [process] returns and the rows it wrote agree at every
    point of every run, stopped or not: the records written are, in
    order, the rows of the resolved versions collected in [result]. *)
Theorem process_result_is_written (input : list PackageInfo) :
  writes_of (p_events (process fetch order input).1)
  = map csv_record (p_result (process fetch order input).1).
Proof. by apply process_packages_written. Qed.

Lemma concat_lines_cons (line : string) (lines : list string) :
  String.concat "" (line :: lines) = line ++ String.concat "" lines.
Proof.
  destruct lines as [|l lines]; [by rewrite string_app_nil_r|]. reflexivity.
Qed.

Lemma flushed_through_flush (tr later : list event) :
  forall pending file,
    flushed pending file ((tr ++ [EvFlush]) ++ later)
    = flushed "" (file ++ pending ++ lines_of tr) later.
Proof.
  unfold lines_of.
  induction tr as [|[url|record|] tr IH]; intros pending file; cbn [app flushed].
  - cbn. by rewrite !string_app_nil_r.
  - rewrite IH. reflexivity.
  - rewrite IH. change (writes_of (EvWrite record :: tr)) with (record :: writes_of tr).
    cbn [map]. rewrite concat_lines_cons. by rewrite !string_app_assoc.
  - rewrite IH. change (writes_of (EvFlush :: tr)) with (writes_of tr).
    by rewrite append_nil, string_app_assoc.
Qed.

Lemma flushed_last_flush (tr : list event) (pending file : string) :
  flushed pending file (tr ++ [EvFlush]) = file ++ pending ++ lines_of tr.
Proof.
  rewrite <- (app_nil_r (tr ++ [EvFlush])). by rewrite flushed_through_flush.
Qed.

Lemma process_packages_ends_flushed input :
  forall packageIdx st st',
    process_packages fetch order packageIdx input st = (st', None) ->
    (input = [] /\ st' = st) \/ exists tr, p_events st' = (tr ++ [EvFlush])%list.
Proof.
  induction input as [|p input IH]; intros packageIdx st st' Hrun.
  - left. cbn in Hrun. by injection Hrun as <-.
  - right. cbn [process_packages] in Hrun.
    destruct (process_versions fetch order (pkg_Name p) packageIdx 0 (pkg_Versions p) st)
      as [st1 [msg|]]; [discriminate|].
    destruct (IH _ _ _ Hrun) as [[_ ->]|Hflush]; [|done].
    by exists (p_events st1).
Qed.

(** X6. When [process] returns, nothing it wrote is left in the buffer:
    the file holds the line of every record written, in order. *)
Theorem process_return_flushed (input : list PackageInfo) :
  (process fetch order input).2 = None ->
  file_content (p_events (process fetch order input).1)
  = lines_of (p_events (process fetch order input).1).
Proof.
  intros Hret. unfold process in *.
  destruct (process_packages fetch order 0 input (mkPstate [] [])) as [st' stop] eqn:Hrun.
  cbn in Hret. subst stop. cbn [fst].
  destruct (process_packages_ends_flushed _ _ _ _ Hrun) as [[_ ->]|[tr Htr]]; [done|].
  rewrite Htr. unfold file_content. rewrite flushed_last_flush.
  unfold lines_of. rewrite writes_of_app. cbn. by rewrite app_nil_r.
Qed.

Lemma process_versions_fetches name packageIdx versions :
  forall verIdx st,
    let run := process_versions fetch order name packageIdx verIdx versions st in
    exists asked,
      fetches_of (p_events run.1) = (fetches_of (p_events st) ++ asked)%list
      /\ asked `prefix_of` map (fun version => registry_url name (Number version)) versions
      /\ (run.2 = None ->
          asked = map (fun version => registry_url name (Number version)) versions).
Proof.
  induction versions as [|version versions IH]; intros verIdx st; cbv zeta.
  - exists []. cbn. by rewrite app_nil_r.
  - cbn [process_versions].
    assert (Hone : exists st1 stop,
               process_version fetch order name packageIdx verIdx version st = (st1, stop)
               /\ fetches_of (p_events st1)
                  = (fetches_of (p_events st) ++ [registry_url name (Number version)])%list).
    { destruct (process_version_cases name packageIdx verIdx version st)
        as [[stop ->]|[all ->]]; cbv zeta.
      - eexists _, _. split; [reflexivity|]. cbn. by rewrite fetches_of_app.
      - eexists _, _. split; [reflexivity|].
        destruct (Z.rem verIdx 10 =? 0)%Z; cbn; rewrite !fetches_of_app; cbn;
          by rewrite ?app_nil_r. }
    destruct Hone as (st1 & stop & -> & Hf). destruct stop as [msg|].
    + exists [registry_url name (Number version)]. cbn [fst snd map].
      split; [done|]. split; [|done]. apply prefix_cons, prefix_nil.
    + destruct (IH (verIdx + 1)%Z st1) as (asked & Ha & Hp & Hall).
      exists (registry_url name (Number version) :: asked). cbn [map].
      split; [|split].
      * rewrite Ha, Hf. by rewrite <- app_assoc.
      * by apply prefix_cons.
      * intros Hnone. by rewrite (Hall Hnone).
Qed.

Lemma process_packages_fetches input :
  forall packageIdx st,
    let run := process_packages fetch order packageIdx input st in
    exists asked,
      fetches_of (p_events run.1) = (fetches_of (p_events st) ++ asked)%list
      /\ asked `prefix_of` concat (map package_urls input)
      /\ (run.2 = None -> asked = concat (map package_urls input)).
Proof.
  induction input as [|p input IH]; intros packageIdx st; cbv zeta.
  - exists []. cbn. by rewrite app_nil_r.
  - cbn [process_packages map concat].
    destruct (process_versions_fetches (pkg_Name p) packageIdx (pkg_Versions p) 0 st)
      as (asked & Ha & Hp & Hall).
    fold (package_urls p) in Hp, Hall.
    destruct (process_versions fetch order (pkg_Name p) packageIdx 0 (pkg_Versions p) st)
      as [st1 [msg|]]; cbn [fst snd] in *.
    + exists asked. split; [done|]. split; [by apply prefix_app_r|done].
    + rewrite (Hall eq_refl) in Ha.
      destruct (IH (packageIdx + 1)%Z (emit EvFlush st1)) as (asked' & Ha' & Hp' & Hall').
      exists (package_urls p ++ asked')%list. split; [|split].
      * rewrite Ha'. cbn. rewrite fetches_of_app, Ha. cbn.
        by rewrite app_nil_r, <- app_assoc.
      * by apply prefix_app.
      * intros Hnone. by rewrite (Hall' Hnone).
Qed.

(** X8. [process] asks the registry once per version, in the order of the
    input, at the address made of the package name and the version
    number, and never twice: the addresses requested are a prefix of the
    versions' addresses, and all of them when [process] returns. *)
Theorem process_requests (input : list PackageInfo) :
  fetches_of (p_events (process fetch order input).1)
    `prefix_of` concat (map package_urls input)
  /\ ((process fetch order input).2 = None ->
      fetches_of (p_events (process fetch order input).1)
      = concat (map package_urls input)).
Proof.
  destruct (process_packages_fetches input 0 (mkPstate [] [])) as (asked & Ha & Hp & Hall).
  unfold process. cbn in Ha. rewrite Ha. split; [done|]. exact Hall.
Qed.

Lemma process_versions_concern (p : PackageInfo) packageIdx versions :
  forall verIdx st,
    versions ⊆ pkg_Versions p ->
    Forall (concerns p) (p_events st) ->
    Forall (concerns p)
      (p_events (process_versions fetch order (pkg_Name p) packageIdx verIdx versions st).1).
Proof.
  induction versions as [|version versions IH]; intros verIdx st Hsub Hst; [done|].
  cbn [process_versions].
  assert (Hin : version ∈ pkg_Versions p) by (apply Hsub; by left).
  assert (Hrest : versions ⊆ pkg_Versions p) by (intros v Hv; apply Hsub; by right).
  assert (Hfetch : concerns p (EvFetch (registry_url (pkg_Name p) (Number version))))
    by (by exists version).
  destruct (process_version_cases (pkg_Name p) packageIdx verIdx version st)
    as [[stop ->]|[all ->]]; cbv zeta.
  - assert (Hone : Forall (concerns p)
              (p_events (emit (EvFetch (registry_url (pkg_Name p) (Number version))) st))).
    { cbn. apply Forall_app. split; [done|]. by repeat constructor. }
    destruct stop as [msg|]; [done|]. by apply IH.
  - apply IH; [done|].
    assert (Hwrite : concerns p (EvWrite (csv_record
              (mkVersionDependencies (pkg_Name p) (Number version) (PublishedAt version) all))))
      by (by exists version, all).
    destruct (Z.rem verIdx 10 =? 0)%Z; cbn; rewrite !Forall_app; repeat split; try done;
      by repeat constructor.
Qed.

Lemma process_unit_concerns (p : PackageInfo) :
  Forall (concerns p) (p_events (process fetch order [p]).1).
Proof.
  unfold process. cbn [process_packages].
  pose proof (process_versions_concern p 0 (pkg_Versions p) 0 (mkPstate [] [])
                ltac:(done) ltac:(constructor)) as H.
  destruct (process_versions fetch order (pkg_Name p) 0 0 (pkg_Versions p) (mkPstate [] []))
    as [st1 [msg|]]; [done|].
  cbn in *. apply Forall_app. split; [done|]. by repeat constructor.
Qed.

End LiveRuns.

Lemma process_return_flushed_witness :
  file_content (p_events (process (always left_pad_response) listed [eleven_versions]).1)
  = lines_of (p_events (process (always left_pad_response) listed [eleven_versions]).1).
Proof.
  apply (process_return_flushed (always left_pad_response) listed [eleven_versions]).
  vm_compute. reflexivity.
Defined.

(** ** What ends a run of the live path *)

Section LiveStops.
Variable fetch : Z -> Z -> string -> outcome Response.
Variable order : Z -> Z -> bool -> gmap string json -> list (string * json).

(** X7. The three ways a version ends the run, and no other: the request
    or the reading of its body fails; the body does not decode and the
    status is not 404; the body decodes and one of its ranges is not a
    JSON string.  [order] visits each map it is given. *)
Theorem process_version_stops name packageIdx verIdx version st :
  (forall dev m, ranges m (order packageIdx verIdx dev m)) ->
  (process_version fetch order name packageIdx verIdx version st).2 <> None
  <-> (forall response,
         fetch packageIdx verIdx (registry_url name (Number version)) <> Ok response)
      \/ exists response,
           fetch packageIdx verIdx (registry_url name (Number version)) = Ok response
           /\ ((exists msg, unmarshal_VersionInfo (resp_body response) = Err msg
                            /\ StatusCode response <> 404%Z)
               \/ exists parsed k v,
                    unmarshal_VersionInfo (resp_body response) = Ok parsed
                    /\ (vi_Dependencies parsed !! k = Some v
                        \/ vi_DevDependencies parsed !! k = Some v)
                    /\ is_JStr v = false).
Proof.
  intros Horder. unfold process_version.
  destruct (fetch packageIdx verIdx (registry_url name (Number version)))
    as [response|msg|msg] eqn:Hf; [|split; [by left|done]..].
  destruct (unmarshal_VersionInfo (resp_body response)) as [parsed|msg|msg] eqn:Hu.
  - set (visit := order packageIdx verIdx false (vi_Dependencies parsed)).
    set (visitDev := order packageIdx verIdx true (vi_DevDependencies parsed)).
    assert (Hv : ranges (vi_Dependencies parsed) visit) by apply Horder.
    assert (Hd : ranges (vi_DevDependencies parsed) visitDev) by apply Horder.
    assert (Hdec : forall kv : string * json,
               {is_JStr kv.2 = true} + {is_JStr kv.2 = false})
      by (intros kv; destruct (is_JStr kv.2); by eauto).
    destruct (Forall_Exists_dec _ _ Hdec (visit ++ visitDev)) as [Hall|Hsome'].
    + rewrite (live_extract_strings _ _ Hall). cbn. split; [done|].
      intros [Hno|(response' & [= <-] & [(msg & Hmsg & _)|(parsed' & k & v & Hp & Hk & Hns)])].
      * by destruct (Hno response).
      * congruence.
      * rewrite Hu in Hp. injection Hp as <-.
        rewrite Forall_app, !Forall_forall in Hall. destruct Hall as [Hall1 Hall2].
        destruct Hk as [Hk|Hk].
        -- apply (ranges_elem _ _ _ _ Hv) in Hk. apply Hall1 in Hk. cbn in Hk. congruence.
        -- apply (ranges_elem _ _ _ _ Hd) in Hk. apply Hall2 in Hk. cbn in Hk. congruence.
    + rewrite (live_extract_not_strings _ _ Hsome'). cbn. split; [|done].
      intros _. right. exists response. split; [done|]. right.
      apply Exists_exists in Hsome' as ([k v] & Hin & Hns).
      exists parsed, k, v. split; [done|]. split; [|done].
      apply elem_of_app in Hin as [Hin|Hin].
      * left. by apply (ranges_elem _ _ _ _ Hv).
      * right. by apply (ranges_elem _ _ _ _ Hd).
  - destruct (Z.eqb_spec (StatusCode response) 404) as [H404|H404]; cbn.
    + split; [done|].
      intros [Hno|(response' & [= <-] & [(msg' & _ & Hne)|(parsed' & k & v & Hp & _)])].
      * by destruct (Hno response).
      * done.
      * congruence.
    + split; [|done]. intros _. right. exists response. split; [done|]. left. by exists msg.
  - by destruct (unmarshal_VersionInfo_no_panic _ _ Hu).
Qed.

End LiveStops.

Lemma process_version_stops_witness :
  (process_version (always (mkResponse None 500)) listed "left-pad" 0 0
     (mkVersion "1.0.0" GoTime.zeroTime) (mkPstate [] [])).2 <> None
  <-> (forall response,
         always (mkResponse None 500) 0%Z 0%Z (registry_url "left-pad" "1.0.0")
         <> Ok response)
      \/ exists response,
           always (mkResponse None 500) 0%Z 0%Z (registry_url "left-pad" "1.0.0")
           = Ok response
           /\ ((exists msg, unmarshal_VersionInfo (resp_body response) = Err msg
                            /\ StatusCode response <> 404%Z)
               \/ exists parsed k v,
                    unmarshal_VersionInfo (resp_body response) = Ok parsed
                    /\ (vi_Dependencies parsed !! k = Some v
                        \/ vi_DevDependencies parsed !! k = Some v)
                    /\ is_JStr v = false).
Proof.
  apply (process_version_stops (always (mkResponse None 500)) listed "left-pad" 0 0
           (mkVersion "1.0.0" GoTime.zeroTime) (mkPstate [] [])).
  intros dev m. apply ranges_map_to_list.
Defined.

(** ** The version file *)

Lemma interleaving_Permutation {A} (ls : list (list A)) (tr : list A) :
  interleaving ls tr -> tr ≡ₚ concat ls.
Proof.
  induction 1 as [ls Hnil|ls1 ls2 x l tr _ IH].
  - induction Hnil as [|l ls -> _ IH]; [done|]. exact IH.
  - rewrite IH, !concat_app. cbn. by rewrite Permutation_middle.
Qed.

Lemma interleaving_sublist {A} (ls : list (list A)) (tr : list A) (l : list A) :
  interleaving ls tr -> l ∈ ls -> l `sublist_of` tr.
Proof.
  intros H. revert l. induction H as [ls Hnil|ls1 ls2 x l0 tr _ IH]; intros l Hin.
  - rewrite Forall_forall in Hnil. by rewrite (Hnil l Hin).
  - apply elem_of_app in Hin as [Hin|Hin].
    + apply sublist_cons, IH, elem_of_app. by left.
    + apply elem_of_cons in Hin as [->|Hin].
      * apply sublist_skip, IH, elem_of_app. right. by left.
      * apply sublist_cons, IH, elem_of_app. right. by right.
Qed.

(** X10. The version file holds the rows of every version of every
    package, each once, in some order; the rows of one package keep the
    order of its versions. *)
Theorem versionPrinter_rows (input : list PackageInfo) (rows : list (list string)) :
  versionPrinter input rows ->
  rows ≡ₚ concat (map printSinglePackage input)
  /\ forall p, p ∈ input -> printSinglePackage p `sublist_of` rows.
Proof.
  intros H. split; [by apply interleaving_Permutation|].
  intros p Hp. apply (interleaving_sublist _ _ _ H). exact (list_elem_of_fmap_2 printSinglePackage _ _ Hp).
Qed.

Lemma versionPrinter_rows_witness :
  concat (map printSinglePackage [eleven_versions])
    ≡ₚ concat (map printSinglePackage [eleven_versions])
  /\ forall p, p ∈ [eleven_versions] ->
       printSinglePackage p `sublist_of` concat (map printSinglePackage [eleven_versions]).
Proof.
  apply (versionPrinter_rows [eleven_versions]
           (concat (map printSinglePackage [eleven_versions]))).
  apply interleaving_sequential.
Defined.

(** ** The streaming path *)

Lemma lines_of_app (tr1 tr2 : list event) :
  lines_of (tr1 ++ tr2) = lines_of tr1 ++ lines_of tr2.
Proof.
  unfold lines_of. rewrite writes_of_app, map_app.
  induction (map csv_line (writes_of tr1)) as [|line lines IH]; [done|].
  cbn [app]. by rewrite !concat_lines_cons, IH, string_app_assoc.
Qed.

Lemma flushed_stream_events (evs : list EntryVisit) :
  forall file, flushed "" file (stream_events evs) = file ++ lines_of (stream_events evs).
Proof.
  unfold stream_events.
  induction evs as [|ev evs IH]; intros file; cbn [map concat].
  - cbn. by rewrite string_app_nil_r.
  - unfold stream_entry at 1 3. rewrite flushed_through_flush, IH.
    rewrite !lines_of_app. change (lines_of [EvFlush]) with "".
    by rewrite append_nil, string_app_nil_r, string_app_assoc.
Qed.

Lemma writes_of_stream_entry (ev : EntryVisit) :
  writes_of (stream_entry ev)
  = map (fun vv => csv_record (mkVersionDependencies (ev_Name ev) (vv_number vv)
                                 (time_of (ev_Time ev) (vv_number vv))
                                 (stream_extract (vv_deps vv) (vv_devDeps vv))))
        (ev_versions ev).
Proof.
  unfold stream_entry. rewrite writes_of_app. cbn. rewrite app_nil_r.
  induction (ev_versions ev) as [|vv vvs IH]; [done|].
  cbn [map]. rewrite <- IH. reflexivity.
Qed.

Lemma writes_of_stream_events (evs : list EntryVisit) :
  writes_of (stream_events evs) = concat (map (fun ev => writes_of (stream_entry ev)) evs).
Proof.
  unfold stream_events. induction evs as [|ev evs IH]; [done|].
  cbn [map concat]. by rewrite writes_of_app, IH.
Qed.

Lemma file_content_stream_events (evs : list EntryVisit) :
  file_content (stream_events evs)
  = String.concat ""
      (map csv_line (concat (map (fun ev => writes_of (stream_entry ev)) evs))).
Proof.
  unfold file_content. rewrite flushed_stream_events. unfold lines_of.
  by rewrite writes_of_stream_events.
Qed.

Lemma visits_entry_rows (e : Entry) (ev : EntryVisit) :
  visits_entry e ev -> entry_rows e (writes_of (stream_entry ev)).
Proof.
  intros (Hname & Htime & visit & Hr & Hvs). exists visit. split; [done|].
  rewrite writes_of_stream_entry. apply Forall2_fmap_r.
  eapply Forall2_impl; [exact Hvs|]. intros kv vv (Hn & Hd & Hdd).
  exists (stream_extract (vv_deps vv) (vv_devDeps vv)). split.
  - by exists (vv_deps vv), (vv_devDeps vv).
  - by rewrite Hname, Htime, Hn.
Qed.

Lemma entry_rows_visits (e : Entry) (records : list (list string)) :
  entry_rows e records ->
  exists ev, visits_entry e ev /\ writes_of (stream_entry ev) = records.
Proof.
  intros (visit & Hr & Hrows).
  assert (Hvvs : exists vvs,
            Forall2 visits_version visit vvs
            /\ map (fun vv => csv_record (mkVersionDependencies (doc_Name (entry_Doc e))
                                (vv_number vv)
                                (time_of (doc_Time (entry_Doc e)) (vv_number vv))
                                (stream_extract (vv_deps vv) (vv_devDeps vv)))) vvs
               = records).
  { clear Hr. induction Hrows as [|kv record visit records Hrow _ (vvs & Hvvs & Hmap)].
    - exists []. by split.
    - destruct Hrow as (deps & (visitD & visitDev & Hd & Hdd & ->) & ->).
      exists (mkVersionVisit kv.1 visitD visitDev :: vvs). split.
      + constructor; [done|exact Hvvs].
      + cbn [map]. by rewrite Hmap. }
  destruct Hvvs as (vvs & Hvvs & Hmap).
  exists (mkEntryVisit (doc_Name (entry_Doc e)) vvs (doc_Time (entry_Doc e))). split.
  - split; [done|]. split; [done|]. by exists visit.
  - by rewrite writes_of_stream_entry.
Qed.

Lemma entry_rows_length (e : Entry) (records : list (list string)) :
  entry_rows e records -> length records = size (doc_Versions (entry_Doc e)).
Proof.
  intros (visit & Hr & Hrows). rewrite <- (Forall2_length _ _ _ Hrows).
  by apply ranges_length.
Qed.

(** X11. The outputs of the streaming ingester, exactly.  Run into an
    empty file on a document whose entries decode, it leaves the lines
    of the records it wrote and nothing else, none held back in the
    buffer.  The records come package by package in the order of the
    document; those of a package are one for each entry of its versions
    map, in some order of that map, each with the package name, the key
    as number, the entry of the time map under that key as date (the
    zero time when there is none) and an output of the extractor on the
    two dependency maps of that version.  Every text of this form is an
    output of some run.  The number of records is the number of
    versions of the document. *)
Theorem StreamDecode_rows (document : list Entry) :
  (forall out,
     StreamDecode document out
     <-> exists rows,
           Forall2 entry_rows document rows
           /\ out = String.concat "" (map csv_line (concat rows)))
  /\ (forall rows,
        Forall2 entry_rows document rows ->
        length (concat rows) = streamed_versions document).
Proof.
  split.
  - intros out. split.
    + intros (evs & Hvisits & ->).
      exists (map (fun ev => writes_of (stream_entry ev)) evs). split.
      * apply Forall2_fmap_r. eapply Forall2_impl; [exact Hvisits|].
        apply visits_entry_rows.
      * apply file_content_stream_events.
    + intros (rows & Hrows & ->).
      assert (Hevs : exists evs,
                Forall2 visits_entry document evs
                /\ map (fun ev => writes_of (stream_entry ev)) evs = rows).
      { induction Hrows as [|e records document rows He _ (evs & Hevs & Hmap)].
        - exists []. by split.
        - destruct (entry_rows_visits e records He) as (ev & Hev & Hw).
          exists (ev :: evs). split; [by constructor|]. cbn [map]. by rewrite Hw, Hmap. }
      destruct Hevs as (evs & Hevs & <-). exists evs. split; [done|].
      symmetry. apply file_content_stream_events.
  - intros rows Hrows. unfold streamed_versions.
    induction Hrows as [|e records document rows He _ IH]; [done|].
    cbn [concat sum_list_with]. rewrite length_app, IH.
    by rewrite (entry_rows_length e records He).
Qed.

(** ** The units of work of the fan-out path *)

(** X9. A unit of work touches its own package only: in every trace of
    [ingestInternal], an event of the unit with index [i] is a request
    for a version of the package at index [i] of the decoded document,
    a record of such a version under the package's name, or a flush. *)
Theorem ingestInternal_units
    (fetch : nat -> Z -> Z -> string -> outcome Response)
    (order : nat -> Z -> Z -> bool -> gmap string json -> list (string * json))
    (inputBytes : json) (tr : list gevent) :
  ingestInternal fetch order inputBytes tr ->
  exists arr,
    unmarshal_PackageInfos inputBytes = Ok arr
    /\ forall i e, GUnit i e ∈ tr -> exists p, arr !! i = Some p /\ concerns p e.
Proof.
  intros (arr & rows & merged & later & Hdec & _ & Hunits & ->).
  exists arr. split; [done|]. intros i e Hin.
  apply elem_of_app in Hin as [Hin|Hin].
  { apply list_elem_of_fmap in Hin as (r & ? & _). discriminate. }
  destruct (interleaving_elem _ _ (GUnit i e) Hunits) as (l & Hl & Hel).
  { apply elem_of_app. by left. }
  apply list_elem_of_lookup in Hl as [j Hj]. rewrite list_lookup_imap in Hj.
  destruct (arr !! j) as [p|] eqn:Hp; [|done]. cbn in Hj. injection Hj as <-.
  unfold unit_events in Hel. apply list_elem_of_fmap in Hel as (e' & [= -> ->] & He').
  exists p. split; [done|].
  pose proof (process_unit_concerns (fetch j) (order j) p) as Hall.
  rewrite Forall_forall in Hall. by apply Hall.
Qed.

Lemma left_pad_ingest :
  ingestInternal (fun _ => always left_pad_response) (fun _ => listed) left_pad_document
    [GVersionRow ["left-pad"; "1.0.0"; "2015-03-17T00:00:00Z"];
     GUnit 0 (EvFetch "https://registry.npmjs.org/left-pad/1.0.0");
     GUnit 0 (EvWrite ["left-pad"; "1.0.0"; "2015-03-17T00:00:00Z"; "[]"])].
Proof.
  exists [mkPackageInfo "left-pad" [mkVersion "1.0.0" (GoTime.Date 2015 3 17 0 0 0 0)]],
    [["left-pad"; "1.0.0"; "2015-03-17T00:00:00Z"]],
    [GUnit 0 (EvFetch "https://registry.npmjs.org/left-pad/1.0.0");
     GUnit 0 (EvWrite ["left-pad"; "1.0.0"; "2015-03-17T00:00:00Z"; "[]"])],
    [GUnit 0 EvFlush; GUnit 0 EvFlush].
  split; [apply left_pad_decodes|]. split; [|split; [|reflexivity]].
  - unfold versionPrinter.
    replace (map printSinglePackage _)
      with [[["left-pad"; "1.0.0"; "2015-03-17T00:00:00Z"]]] by (vm_compute; reflexivity).
    apply (interleaving_sequential [[["left-pad"; "1.0.0"; "2015-03-17T00:00:00Z"]]]).
  - replace (imap _ _) with
      [[GUnit 0 (EvFetch "https://registry.npmjs.org/left-pad/1.0.0");
        GUnit 0 (EvWrite ["left-pad"; "1.0.0"; "2015-03-17T00:00:00Z"; "[]"]);
        GUnit 0 EvFlush; GUnit 0 EvFlush]] by (vm_compute; reflexivity).
    apply (interleaving_sequential
             [[GUnit 0 (EvFetch "https://registry.npmjs.org/left-pad/1.0.0");
               GUnit 0 (EvWrite ["left-pad"; "1.0.0"; "2015-03-17T00:00:00Z"; "[]"]);
               GUnit 0 EvFlush; GUnit 0 EvFlush]]).
Qed.

Lemma ingestInternal_units_witness :
  exists arr,
    unmarshal_PackageInfos left_pad_document = Ok arr
    /\ forall i e,
         GUnit i e ∈ [GVersionRow ["left-pad"; "1.0.0"; "2015-03-17T00:00:00Z"];
                      GUnit 0 (EvFetch "https://registry.npmjs.org/left-pad/1.0.0");
                      GUnit 0 (EvWrite ["left-pad"; "1.0.0"; "2015-03-17T00:00:00Z"; "[]"])] ->
         exists p, arr !! i = Some p /\ concerns p e.
Proof.
  apply (ingestInternal_units (fun _ => always left_pad_response) (fun _ => listed)
           left_pad_document). apply left_pad_ingest.
Defined.

(** ** The bulk document reader *)

Lemma mapM_outcome_Ok {A B} (f : A -> outcome B) (l : list A) (bs : list B) :
  mapM_outcome f l = Ok bs -> Forall2 (fun a b => f a = Ok b) l bs.
Proof.
  revert bs. induction l as [|a l IH]; intros bs; cbn.
  - intros [= <-]. constructor.
  - destruct (f a) as [b| |] eqn:Hb; try discriminate. cbn.
    destruct (mapM_outcome f l) as [bs'| |]; try discriminate. cbn.
    intros [= <-]. constructor; [done|]. by apply IH.
Qed.

Lemma save_error_Some (saved : option string) (msg : string) :
  save_error saved msg <> None.
Proof. by destruct saved. Qed.

Lemma decode_PackageInfo_members (members : list (string * json)) :
  forall p0 saved0 p saved,
    foldM_outcome decode_PackageInfo_member members (p0, saved0) = Ok (p, saved) ->
    (saved = None -> saved0 = None)
    /\ (pkg_Name p = pkg_Name p0
        \/ exists k, (k, JStr (pkg_Name p)) ∈ members /\ fold_eq k "Name" = true)
    /\ (pkg_Versions p = pkg_Versions p0 \/ pkg_Versions p = []
        \/ exists k vs, (k, JArr vs) ∈ members /\ fold_eq k "Versions" = true
             /\ mapM_outcome Version_UnmarshalJSON vs = Ok (pkg_Versions p)).
Proof.
  induction members as [|[k v] members IH]; intros p0 saved0 p saved; cbn [foldM_outcome].
  - intros [= <- <-]. split; [done|]. by split; left.
  - destruct (decode_PackageInfo_member (p0, saved0) (k, v)) as [[p1 saved1]| |] eqn:H1;
      try discriminate.
    cbn [mbind outcome_bind]. intros Hp.
    destruct (IH p1 saved1 p saved Hp) as (Hsaved & Hname & Hvers).
    assert (Hstep : (saved1 = None -> saved0 = None)
              /\ (pkg_Name p1 = pkg_Name p0
                  \/ exists s, v = JStr s /\ pkg_Name p1 = s /\ fold_eq k "Name" = true)
              /\ (pkg_Versions p1 = pkg_Versions p0 \/ pkg_Versions p1 = []
                  \/ exists vs, v = JArr vs /\ fold_eq k "Versions" = true
                       /\ mapM_outcome Version_UnmarshalJSON vs = Ok (pkg_Versions p1))).
    { clear -H1. cbn in H1. destruct (fold_eq k "Name") eqn:Hk.
      - destruct v; injection H1 as <- <-;
          (split; [try done; by intros ?%save_error_Some|]);
          (split; [|by left]); try (by left).
        right. by exists s.
      - destruct (fold_eq k "Versions") eqn:Hk2.
        + destruct v; try (injection H1 as <- <-;
            (split; [try done; by intros ?%save_error_Some|]);
            (split; [by left|]); first [by left|by right; left]).
          destruct (mapM_outcome Version_UnmarshalJSON elems) as [vs| |] eqn:Hvs;
            try discriminate.
          injection H1 as <- <-. split; [done|]. split; [by left|].
          right. right. by exists elems.
        + injection H1 as <- <-. split; [done|]. by split; left. }
    destruct Hstep as (Hsaved1 & Hname1 & Hvers1).
    split; [by intros ?%Hsaved%Hsaved1|]. split.
    + destruct Hname as [Hname|(k' & Hin & Hk')]; [|right; exists k'; split; [by right|done]].
      rewrite Hname. destruct Hname1 as [?|(s & -> & <- & Hk)]; [by left|].
      right. exists k. split; [by left|done].
    + destruct Hvers as [Hvers|[Hvers|(k' & vs & Hin & Hk' & Hvs)]];
        [|by right; left|right; right; exists k', vs; split; [by right|done]].
      rewrite Hvers. destruct Hvers1 as [?|[?|(vs & -> & Hk & Hvs)]];
        [by left|by right; left|].
      right. right. exists k, vs. split; [by left|done].
Qed.

Lemma decode_PackageInfo_from (saved0 : option string) (e : json)
    (p : PackageInfo) (saved : option string) :
  decode_PackageInfo saved0 e = Ok (p, saved) -> saved = None ->
  saved0 = None /\ decoded_from e p.
Proof.
  destruct e as [| | | | |members]; cbn;
    try (intros [= <- <-] Hnone; by destruct (save_error_Some _ _ Hnone)).
  - intros [= <- <-] ->. split; [done|]. split; [by left|]. by split; left.
  - intros Hp Hnone.
    destruct (decode_PackageInfo_members members _ _ _ _ Hp) as (Hsaved & Hname & Hvers).
    split; [by apply Hsaved|]. split; [right; by exists members|]. split.
    + destruct Hname as [Hname|(k & Hin & Hk)]; [by left|].
      right. by exists members, k.
    + destruct Hvers as [Hvers|[Hvers|(k & vs & Hin & Hk & Hvs)]]; [by left|by left|].
      right. exists vs. split; [by exists members, k|]. by apply mapM_outcome_Ok.
Qed.

Lemma decode_PackageInfo_elems_from (elems : list json) :
  forall saved0 arr saved,
    decode_PackageInfo_elems elems saved0 = Ok (arr, saved) -> saved = None ->
    saved0 = None /\ Forall2 decoded_from elems arr.
Proof.
  induction elems as [|e elems IH]; intros saved0 arr saved; cbn [decode_PackageInfo_elems].
  - intros [= <- <-] ->. split; [done|constructor].
  - destruct (decode_PackageInfo saved0 e) as [[p saved1]| |] eqn:He; try discriminate.
    cbn [mbind outcome_bind].
    destruct (decode_PackageInfo_elems elems saved1) as [[ps saved2]| |] eqn:Hrest;
      try discriminate.
    cbn [mbind outcome_bind]. intros [= <- <-] Hnone.
    destruct (IH _ _ _ Hrest Hnone) as [-> Hall].
    destruct (decode_PackageInfo_from _ _ _ _ He eq_refl) as [-> Hp].
    split; [done|]. by constructor.
Qed.

(** X12. A bulk document that decodes is [null] or an array, and the
    decoded slice has one [PackageInfo] per element, in order.  Every
    element is [null] or an object; each [PackageInfo] holds, for its
    name, a string member of the element whose key matches [Name]
    without regard to case (or nothing), and for its versions, nothing
    or the decoded elements of an array member whose key matches
    [Versions], every one of them accepted by [Version.UnmarshalJSON]. *)
Theorem unmarshal_PackageInfos_elements (j : json) (arr : list PackageInfo) :
  unmarshal_PackageInfos j = Ok arr ->
  exists elems,
    (j = JArr elems \/ (j = JNull /\ elems = []))
    /\ Forall2 decoded_from elems arr.
Proof.
  destruct j as [| | | |elems|]; try discriminate; cbn.
  - intros [= <-]. exists []. split; [by right|constructor].
  - destruct (decode_PackageInfo_elems elems None) as [[arr' saved]| |] eqn:Helems;
      try discriminate.
    cbn [mbind outcome_bind]. destruct saved as [msg|]; [discriminate|].
    intros [= <-]. exists elems. split; [by left|].
    by destruct (decode_PackageInfo_elems_from _ _ _ _ Helems eq_refl).
Qed.

Lemma unmarshal_PackageInfos_elements_witness :
  exists elems,
    (left_pad_document = JArr elems \/ (left_pad_document = JNull /\ elems = []))
    /\ Forall2 decoded_from elems
         [mkPackageInfo "left-pad" [mkVersion "1.0.0" (GoTime.Date 2015 3 17 0 0 0 0)]].
Proof.
  apply (unmarshal_PackageInfos_elements left_pad_document). apply left_pad_decodes.
Defined.

(** ** Quotes around a timestamp *)

Lemma trim_left_snoc (c : ascii) (s : string) :
  (trim_left c s = "" /\ trim_left c (s ++ String c "") = "")
  \/ (trim_left c s <> ""
      /\ trim_left c (s ++ String c "") = trim_left c s ++ String c "").
Proof.
  induction s as [|a s IH].
  - left. rewrite append_nil. cbn. by rewrite Ascii.eqb_refl.
  - rewrite append_cons. cbn [trim_left]. destruct (Ascii.eqb a c); [exact IH|].
    right. split; [done|]. by rewrite append_cons.
Qed.

(** X13. The timestamp decoder does not ask for the quotes of a JSON
    string: it trims whatever quotes there are at both ends, so a text
    decodes to the same result with a pair of quotes around it. *)
Theorem CreatedTime_UnmarshalJSON_quotes (b : string) :
  CreatedTime_UnmarshalJSON (quoted b) = CreatedTime_UnmarshalJSON b.
Proof.
  unfold CreatedTime_UnmarshalJSON. f_equal. unfold strings_Trim, quoted.
  rewrite append_cons. cbn [trim_left]. rewrite Ascii.eqb_refl.
  destruct (trim_left_snoc dquote b) as [[-> ->]|[_ ->]]; [done|].
  apply trim_right_snoc.
Qed.

(** ** Panics of the version decoder *)

Section DecoderPanics.
Import GoTime.

Lemma getnum_no_panic (s : string) (fixed : bool) (msg : string) :
  getnum s fixed <> Panic msg.
Proof.
  destruct s as [|c0 [|c1 s]]; cbn; [done|..].
  - by destruct (isDigit c0), fixed.
  - by destruct (isDigit c0), (isDigit c1), fixed.
Qed.

Lemma skip_no_panic (s : string) (c : ascii) (msg : string) : skip s c <> Panic msg.
Proof. destruct s as [|a s]; cbn; [done|]. by destruct (Ascii.eqb a c). Qed.

Lemma getyear_no_panic (s : string) (msg : string) : getyear s <> Panic msg.
Proof.
  destruct s as [|c0 [|c1 [|c2 [|c3 s]]]]; cbn; try done.
  by destruct (isDigit c0 && isDigit c1 && isDigit c2 && isDigit c3).
Qed.

Lemma getzone_no_panic (s : string) (msg : string) : getzone s <> Panic msg.
Proof.
  destruct s as [|sign after]; [done|]. unfold getzone.
  destruct (Ascii.eqb sign "Z"); [done|].
  destruct after as [|h0 [|h1 [|colon [|m0 [|m1 rest]]]]]; try done.
  destruct (negb (Ascii.eqb colon ":")); [done|].
  destruct (getnum (String h0 (String h1 "")) true) as [[hr ?]|?|?] eqn:E1;
    [|done|by destruct (getnum_no_panic _ _ _ E1)].
  cbn [mbind outcome_bind].
  destruct (getnum (String m0 (String m1 "")) true) as [[mm ?]|?|?] eqn:E2;
    [|done|by destruct (getnum_no_panic _ _ _ E2)].
  cbn [mbind outcome_bind].
  destruct (hr >? 24)%Z; [done|]. destruct (mm >? 60)%Z; [done|].
  by destruct (Ascii.eqb sign "+"), (Ascii.eqb sign "-").
Qed.

Ltac scan_step :=
  cbn [mbind outcome_bind];
  match goal with
  | |- mbind _ ?x <> Panic _ =>
      let E := fresh "E" in
      destruct x as [[? ?]|?|?] eqn:E;
      [|done|exfalso; revert E;
             first [apply getnum_no_panic|apply getyear_no_panic|apply getzone_no_panic]]
  | |- mbind _ (skip ?v ?c) <> Panic _ =>
      let E := fresh "E" in
      destruct (skip v c) as [?|?|?] eqn:E; [|done|by destruct (skip_no_panic _ _ _ E)]
  | |- (if ?c then Err _ else _) <> Panic _ => destruct c; [done|]
  | |- (let '(_, _) := getfrac ?v in _) <> Panic _ => destruct (getfrac v)
  end.

Lemma Parse_no_panic (value : string) (msg : string) : Parse value <> Panic msg.
Proof. unfold Parse. repeat scan_step. done. Qed.

Lemma unmarshal_CreatedTime_no_panic (date_string : string) (msg : string) :
  unmarshal_CreatedTime date_string <> Panic msg.
Proof.
  unfold unmarshal_CreatedTime, CreatedTime_UnmarshalJSON.
  destruct (plain_string date_string); [apply Parse_no_panic|done].
Qed.

End DecoderPanics.

Lemma string_member_cases (x : option json) :
  (exists s, x = Some (JStr s)) \/ (forall s, x <> Some (JStr s)).
Proof. destruct x as [[]|]; by eauto. Qed.

(** X14. The version decoder panics on its two type assertions and
    nowhere else, and it makes them in this order: [published_at] is
    asserted first, then the date is decoded, and [number] is asserted
    last.  So it panics when [published_at] is not a string, or when the
    date decodes and [number] is not a string; a document that is not an
    object and a date that does not decode are errors, not panics. *)
Theorem Version_UnmarshalJSON_panics (b : json) (msg : string) :
  Version_UnmarshalJSON b = Panic msg
  <-> msg = not_string_msg
      /\ exists dat,
           unmarshal_map_any b = Ok dat
           /\ ((forall s, dat !! "published_at" <> Some (JStr s))
               \/ ((exists s date, dat !! "published_at" = Some (JStr s)
                                   /\ unmarshal_CreatedTime s = Ok date)
                   /\ forall n, dat !! "number" <> Some (JStr n))).
Proof.
  unfold Version_UnmarshalJSON.
  destruct (unmarshal_map_any b) as [dat|e|e] eqn:Hdat; cbn [mbind outcome_bind].
  - destruct (string_member_cases (dat !! "published_at")) as [[s Hp]|Hp].
    2:{ rewrite (assert_string_not_string _ Hp). cbn. split.
        - intros [= <-]. split; [done|]. exists dat. split; [done|]. by left.
        - by intros [-> _]. }
    rewrite Hp. cbn [assert_string mbind outcome_bind].
    destruct (unmarshal_CreatedTime s) as [date|e|e] eqn:Hd; cbn [mbind outcome_bind].
    + destruct (string_member_cases (dat !! "number")) as [[n Hn]|Hn].
      * rewrite Hn. cbn. split; [done|].
        intros (_ & dat' & [= <-] & [Hno|[_ Hno]]); [by destruct (Hno s)|].
        by destruct (Hno n).
      * rewrite (assert_string_not_string _ Hn). cbn. split.
        -- intros [= <-]. split; [done|]. exists dat. split; [done|]. right.
           split; [by exists s, date|done].
        -- by intros [-> _].
    + split; [done|].
      intros (_ & dat' & [= <-] & [Hno|[(s' & date & Hs' & Hdate) _]]);
        [by destruct (Hno s)|].
      rewrite Hp in Hs'. injection Hs' as <-. congruence.
    + by destruct (unmarshal_CreatedTime_no_panic _ _ Hd).
  - split; [done|]. by intros (_ & dat & ? & _).
  - destruct b; discriminate.
Qed.
